(** * UREC-Scheduler: the shift-assignment core of [main.py]

    A shallow embedding of the scheduling core
    ([build_candidate_shifts], [overlaps_unavailability],
    [schedule_workers_softmin_hardmax]) and of the part of
    [SchedulerUI.run_scheduler] that guards the call to it; then of
    [format_hour], the demo datasets and the other handlers of the window
    ([add_employee], [remove_selected], [clear_all], [load_selected_demo],
    [export_coverage_csv]) and of the coverage summary that
    [run_scheduler] writes.

    Python integers are unbounded, hence [Z].  Sets of hours are [gset Z],
    dictionaries are [gmap].  The CP-SAT model that the code builds through
    [cp_model.CpModel] is a record of declared variables, posted constraints
    and the objective; the code that posts them runs in a state-and-exception
    monad over that record.  The solver itself is an external library: it is
    a parameter, and the only thing assumed of it is its contract (a variable
    assignment returned with status OPTIMAL or FEASIBLE satisfies the model).

    Not modelled: the 64-bit limits of the solver library on constants, the
    parsing of the text typed into the spin boxes (the handler is given
    integers), and the rendering of a result, kept as a single effect of
    [run_scheduler]; [label_shift], which computes with floats, and with it
    the rows of the result table.  The time budget, a float in the source,
    is a rational that is only passed on to the solver.  [str.strip] and
    [int], which [add_employee] calls, are parameters like the solver. *)

From Stdlib Require Import QArith.
From stdpp Require Import gmap strings list fin_maps sorting pretty.

Local Open Scope Z_scope.

(** ** Python helpers *)

(** [range(a, b)] for integers: [a, a+1, ..., b-1], empty when [b <= a]. *)
Definition range (a b : Z) : list Z :=
  (λ i : nat, a + Z.of_nat i) <$> seq 0 (Z.to_nat (b - a)).

(** [enumerate(l)] *)
Definition enumerate {A} (l : list A) : list (nat * A) :=
  zip (seq 0 (length l)) l.

(** A shift is the pair [(start, end)]. *)
Definition Shift : Type := Z * Z.

(** ** Candidate shifts (main.py, lines 39-45) *)

Definition build_candidate_shifts
    (day_start_hour day_length_hours : Z) (allowed_lengths : list Z) : list Shift :=
  let day_end_hour := day_start_hour + day_length_hours in
  foldl (λ shifts L,
           foldl (λ shifts start, shifts ++ [(start, start + L)])
                 shifts
                 (range day_start_hour (day_end_hour - L + 1)))
        [] allowed_lengths.

(** ** Feasibility (main.py, lines 48-53) *)

Definition overlaps_unavailability (shift : Shift) (unavailable_blocks : gset Z) : bool :=
  let '(start, end_) := shift in
  existsb (λ h, bool_decide (h ∈ unavailable_blocks)) (range start end_).

(** ** The CP-SAT model built through [cp_model.CpModel]

    A variable is identified by its index in the model, which is the order
    of its creation.  A declaration carries the domain bounds and the name
    given by the caller. *)

Abbreviation IntVar := nat.

Record VarDecl := { var_lb : Z; var_ub : Z; var_name : string }.

(** Linear expressions as the overloaded Python operators build them. *)
Inductive LinearExpr :=
| LConst (c : Z)
| LVar (v : IntVar)
| LAdd (a b : LinearExpr)
| LSub (a b : LinearExpr)
| LMul (a : LinearExpr) (c : Z).

Inductive Constraint :=
| CLe (a b : LinearExpr)                       (* a <= b *)
| CGe (a b : LinearExpr)                       (* a >= b *)
| CEq (a b : LinearExpr)                       (* a == b *)
| CMaxEquality (target : LinearExpr) (exprs : list LinearExpr)
| CMinEquality (target : LinearExpr) (exprs : list LinearExpr).

Record CpModel := {
  variables : list VarDecl;
  constraints : list Constraint;
  objective : option LinearExpr;     (* the expression to minimize *)
}.

(** [cp_model.CpModel()] *)
Definition new_CpModel : CpModel :=
  {| variables := []; constraints := []; objective := None |}.

(** Python's [sum(iterable)]: starts from [0] and adds from the left. *)
Definition py_sum (terms : list LinearExpr) : LinearExpr :=
  foldl LAdd (LConst 0) terms.

(** ** Exceptions and the model-building monad *)

Inductive exn := KeyError | IndexError.

Inductive res (A : Type) :=
| Ok (a : A)
| Raise (e : exn).
Arguments Ok {A} a.
Arguments Raise {A} e.

#[global] Instance res_ret : MRet res := λ A a, Ok a.
#[global] Instance res_bind : MBind res := λ A B f r,
  match r with Ok a => f a | Raise e => Raise e end.

(** [d[k]] on a dictionary and [l[i]] on a list (non-negative index). *)
Definition dict_get `{Countable K} {V} (d : gmap K V) (k : K) : res V :=
  match d !! k with Some v => Ok v | None => Raise KeyError end.

Definition list_get {A} (l : list A) (i : nat) : res A :=
  match l !! i with Some a => Ok a | None => Raise IndexError end.

(** A computation that posts to the model under construction. *)
Definition Build (A : Type) : Type := CpModel → res (A * CpModel).

#[global] Instance Build_ret : MRet Build := λ A a m, Ok (a, m).
#[global] Instance Build_bind : MBind Build := λ A B f c m,
  match c m with Ok (a, m') => f a m' | Raise e => Raise e end.

Definition lift {A} (r : res A) : Build A := λ m,
  match r with Ok a => Ok (a, m) | Raise e => Raise e end.

(** [model.NewIntVar(lb, ub, name)] *)
Definition NewIntVar (lb ub : Z) (name : string) : Build IntVar := λ m,
  Ok (length (variables m),
      {| variables := variables m ++ [{| var_lb := lb; var_ub := ub; var_name := name |}];
         constraints := constraints m;
         objective := objective m |}).

(** [model.NewBoolVar(name)]: an integer variable with domain [0, 1]. *)
Definition NewBoolVar (name : string) : Build IntVar := NewIntVar 0 1 name.

(** [model.Add(ct)] *)
Definition Add (ct : Constraint) : Build () := λ m,
  Ok ((), {| variables := variables m;
             constraints := constraints m ++ [ct];
             objective := objective m |}).

Definition AddMaxEquality (target : IntVar) (vars : list IntVar) : Build () :=
  Add (CMaxEquality (LVar target) (LVar <$> vars)).

Definition AddMinEquality (target : IntVar) (vars : list IntVar) : Build () :=
  Add (CMinEquality (LVar target) (LVar <$> vars)).

(** [model.Minimize(obj)] *)
Definition Minimize (obj : LinearExpr) : Build () := λ m,
  Ok ((), {| variables := variables m;
             constraints := constraints m;
             objective := Some obj |}).

(** A [for] loop that threads the local variables [s] it assigns to. *)
Fixpoint for_fold {A S} (body : S → A → Build S) (s : S) (l : list A) : Build S :=
  match l with
  | [] => mret s
  | a :: l => s' ← body s a; for_fold body s' l
  end.

(** A [for] loop run for its effect on the model only. *)
Definition for_each {A} (l : list A) (body : A → Build ()) : Build () :=
  for_fold (λ _ a, body a) () l.

(** A generator or list comprehension whose element expression can raise. *)
Fixpoint collect {A B} (f : A → res B) (l : list A) : res (list B) :=
  match l with
  | [] => Ok []
  | a :: l => b ← f a; bs ← collect f l; Ok (b :: bs)
  end.

(** ** Inputs and outputs of the core *)

(** An employee dictionary [{"name": str, "unavailable": set(int)}]; the
    code reads the second key with [e.get("unavailable", set())], so the key
    may be absent. *)
Record Employee := { name : string; unavailable : option (gset Z) }.

Definition get_unavailable (e : Employee) : gset Z := default ∅ (unavailable e).

(** The handles the function keeps on the variables it creates. *)
Module Vars.
Record t := {
  x : gmap (nat * nat) IntVar;
  coverage_vars : gmap Z IntVar;
  understaff : gmap Z IntVar;
  work_hours : list IntVar;
  max_work : IntVar;
  min_work : IntVar;
  spread : IntVar;
  total_coverage : IntVar;
  total_understaff : IntVar;
}.
End Vars.

(** One entry of ["assignments"]. *)
Record Assignment := {
  employee : string;
  shift : option Shift;
  work_hours : Z;
  unavailable_sorted : list Z;
}.

(** The dictionary returned with ["status": "ok"]. *)
Record Schedule := {
  day_start_hour : Z;
  day_end_hour : Z;
  min_workers_per_hour : Z;
  max_workers_per_hour : Z;
  fairness_spread : Z;
  total_understaff : Z;
  coverage_by_hour : gmap Z Z;
  understaff_by_hour : gmap Z Z;
  assignments : list Assignment;
}.

(** The returned dictionary: [{"status": "no_solution"}] or an "ok" one. *)
Inductive Outcome :=
| no_solution
| ok (r : Schedule).

(** ** The solver, an external library *)

Inductive CpSolverStatus := UNKNOWN | MODEL_INVALID | FEASIBLE | INFEASIBLE | OPTIMAL.

(** [solver.parameters.max_time_in_seconds = t; status = solver.Solve(model)]
    followed by [solver.Value(v)]: a status and the value of every variable. *)
Definition CpSolver : Type := Q → CpModel → CpSolverStatus * (IntVar → Z).

(** What the program does to the outside: the events a caller can observe. *)
Inductive Effect :=
| CpModel_created                       (* cp_model.CpModel() *)
| Solve_called (model : CpModel)        (* solver.Solve(model) *)
| showerror (title message : string)    (* messagebox.showerror *)
| results_cleared                       (* the two result views emptied *)
| results_rendered (r : Schedule).      (* rows and coverage lines inserted *)

(** ** [schedule_workers_softmin_hardmax] (main.py, lines 56-190) *)

(** Lines 79-83. *)
Definition feasible_shifts_of (employees : list Employee) (all_shifts : list Shift)
  : list (list Shift) :=
  (λ e, let unavailable := get_unavailable e in
        filter (λ s, ¬ overlaps_unavailability s unavailable) all_shifts) <$> employees.

(** Lines 87-91: one Boolean variable per (employee, feasible shift). *)
Definition decision_vars (feasible_shifts : list (list Shift))
  : Build (gmap (nat * nat) IntVar) :=
  for_fold (λ x '(e_idx, shifts),
      for_fold (λ x '(s_idx, s),
          v ← NewBoolVar ("x_e" +:+ pretty e_idx +:+ "_s" +:+ pretty s.1
                            +:+ "_" +:+ pretty s.2);
          mret (<[(e_idx, s_idx) := v]> x))
        x (enumerate shifts))
    ∅ (enumerate feasible_shifts).

(** Lines 95-96.  For an employee without feasible shifts the Python
    expression is [0 <= 1], posted as the constraint that always holds. *)
Definition one_shift_constraints (x : gmap (nat * nat) IntVar)
    (feasible_shifts : list (list Shift)) : Build () :=
  for_each (enumerate feasible_shifts) (λ '(e_idx, shifts),
    terms ← lift (collect (λ s_idx, v ← dict_get x (e_idx, s_idx); Ok (LVar v))
                          (seq 0 (length shifts)));
    Add (CLe (py_sum terms) (LConst 1))).

(** Lines 103-107. *)
Definition cover_terms_at (x : gmap (nat * nat) IntVar)
    (feasible_shifts : list (list Shift)) (h : Z) : Build (list LinearExpr) :=
  for_fold (λ cover_terms '(e_idx, shifts),
      for_fold (λ cover_terms '(s_idx, (start, end_)),
          if bool_decide (start ≤ h < end_)
          then v ← lift (dict_get x (e_idx, s_idx)); mret (cover_terms ++ [LVar v])
          else mret cover_terms)
        cover_terms (enumerate shifts))
    [] (enumerate feasible_shifts).

(** Lines 99-118. *)
Definition coverage_constraints (x : gmap (nat * nat) IntVar)
    (feasible_shifts : list (list Shift)) (n_employees : nat)
    (min_workers_per_hour max_workers_per_hour : Z) (hours : list Z)
  : Build (gmap Z IntVar * gmap Z IntVar) :=
  for_fold (λ '(coverage_vars, understaff) h,
      cover_terms ← cover_terms_at x feasible_shifts h;
      cov ← NewIntVar 0 (Z.of_nat n_employees) ("coverage_" +:+ pretty h);
      Add (CEq (LVar cov)
               (match cover_terms with [] => LConst 0 | _ => py_sum cover_terms end));;
      let coverage_vars := <[h := cov]> coverage_vars in
      Add (CLe (LVar cov) (LConst max_workers_per_hour));;
      u ← NewIntVar 0 1000 ("understaff_" +:+ pretty h);
      let understaff := <[h := u]> understaff in
      uh ← lift (dict_get understaff h);
      Add (CGe (LAdd (LVar cov) (LVar uh)) (LConst min_workers_per_hour));;
      mret (coverage_vars, understaff))
    (∅, ∅) hours.

(** Lines 121-130. *)
Definition work_hour_vars (x : gmap (nat * nat) IntVar)
    (feasible_shifts : list (list Shift)) : Build (list IntVar) :=
  for_fold (λ work_hours '(e_idx, shifts),
      wh ← NewIntVar 0 24 ("workhours_e" +:+ pretty e_idx);
      terms ← lift (collect (λ s_idx,
                       v ← dict_get x (e_idx, s_idx);
                       s1 ← list_get shifts s_idx;
                       s0 ← list_get shifts s_idx;
                       Ok (LMul (LVar v) (s1.2 - s0.1)))
                     (seq 0 (length shifts)));
      Add (CEq (LVar wh) (py_sum terms));;
      mret (work_hours ++ [wh]))
    [] (enumerate feasible_shifts).

(** Lines 85-149: everything posted to the model before the solver runs. *)
Definition build_model (employees : list Employee) (feasible_shifts : list (list Shift))
    (hours : list Z) (min_workers_per_hour max_workers_per_hour : Z)
    (max_one_shift_per_employee : bool) : Build Vars.t :=
  x ← decision_vars feasible_shifts;
  (if max_one_shift_per_employee
   then one_shift_constraints x feasible_shifts
   else mret ());;
  '(coverage_vars, understaff) ←
     coverage_constraints x feasible_shifts (length employees)
                          min_workers_per_hour max_workers_per_hour hours;
  work_hours ← work_hour_vars x feasible_shifts;
  max_work ← NewIntVar 0 24 "max_work";
  min_work ← NewIntVar 0 24 "min_work";
  AddMaxEquality max_work work_hours;;
  AddMinEquality min_work work_hours;;
  spread ← NewIntVar 0 24 "spread";
  Add (CEq (LVar spread) (LSub (LVar max_work) (LVar min_work)));;
  total_coverage ← NewIntVar 0 10000 "total_coverage";
  cov_terms ← lift (collect (λ h, v ← dict_get coverage_vars h; Ok (LVar v)) hours);
  Add (CEq (LVar total_coverage) (py_sum cov_terms));;
  total_understaff ← NewIntVar 0 10000 "total_understaff";
  us_terms ← lift (collect (λ h, v ← dict_get understaff h; Ok (LVar v)) hours);
  Add (CEq (LVar total_understaff) (py_sum us_terms));;
  Minimize (LAdd (LAdd (LMul (LVar total_understaff) 100000) (LMul (LVar spread) 1000))
                 (LVar total_coverage));;
  mret {| Vars.x := x; Vars.coverage_vars := coverage_vars;
          Vars.understaff := understaff; Vars.work_hours := work_hours;
          Vars.max_work := max_work; Vars.min_work := min_work;
          Vars.spread := spread; Vars.total_coverage := total_coverage;
          Vars.total_understaff := total_understaff |}.

(** Lines 161-165: the first shift whose variable has value 1. *)
Fixpoint first_chosen (Value : IntVar → Z) (x : gmap (nat * nat) IntVar)
    (e_idx : nat) (shifts : list (nat * Shift)) : res (option Shift) :=
  match shifts with
  | [] => Ok None
  | (s_idx, s) :: rest =>
      v ← dict_get x (e_idx, s_idx);
      if bool_decide (Value v = 1) then Ok (Some s)
      else first_chosen Value x e_idx rest
  end.

(** A dictionary comprehension: later items overwrite earlier ones. *)
Definition dict_of_items `{Countable K} {V} (items : list (K * V)) : gmap K V :=
  foldl (λ d '(k, v), <[k := v]> d) ∅ items.

(** [sorted(list(s))] *)
Definition sorted (s : gset Z) : list Z := merge_sort Z.le (elements s).

(** Lines 158-190. *)
Definition extract (Value : IntVar → Z) (vars : Vars.t) (employees : list Employee)
    (feasible_shifts : list (list Shift)) (hours : list Z)
    (day_start_hour day_end_hour min_workers_per_hour max_workers_per_hour : Z)
  : res Schedule :=
  assignments ← collect (λ '(e_idx, shifts),
                    first_chosen Value (Vars.x vars) e_idx (enumerate shifts))
                  (enumerate feasible_shifts);
  coverage_items ← collect (λ h, v ← dict_get (Vars.coverage_vars vars) h; Ok (h, Value v))
                           hours;
  understaff_items ← collect (λ h, v ← dict_get (Vars.understaff vars) h; Ok (h, Value v))
                             hours;
  rows ← collect (λ '(i, s),
             e ← list_get employees i;
             wh ← list_get (Vars.work_hours vars) i;
             e' ← list_get employees i;
             Ok {| employee := name e;
                   shift := s;
                   work_hours := Value wh;
                   unavailable_sorted := sorted (get_unavailable e') |})
           (enumerate assignments);
  Ok {| day_start_hour := day_start_hour;
        day_end_hour := day_end_hour;
        min_workers_per_hour := min_workers_per_hour;
        max_workers_per_hour := max_workers_per_hour;
        fairness_spread := Value (Vars.spread vars);
        total_understaff := Value (Vars.total_understaff vars);
        coverage_by_hour := dict_of_items coverage_items;
        understaff_by_hour := dict_of_items understaff_items;
        assignments := rows |}.

(** The function itself: the effects of the call, in order, and what it
    returns (or the exception it raises). *)
Definition schedule_workers_softmin_hardmax (solver : CpSolver)
    (employees : list Employee)
    (day_start_hour day_length_hours : Z)
    (allowed_shift_lengths : list Z)
    (min_workers_per_hour max_workers_per_hour : Z)
    (max_one_shift_per_employee : bool)
    (solver_time_limit_s : Q)
  : list Effect * res Outcome :=
  let day_end_hour := day_start_hour + day_length_hours in
  let hours := range day_start_hour day_end_hour in
  let all_shifts :=
    build_candidate_shifts day_start_hour day_length_hours allowed_shift_lengths in
  let feasible_shifts := feasible_shifts_of employees all_shifts in
  match build_model employees feasible_shifts hours
                    min_workers_per_hour max_workers_per_hour
                    max_one_shift_per_employee new_CpModel with
  | Raise e => ([CpModel_created], Raise e)
  | Ok (vars, model) =>
      let '(status, Value) := solver solver_time_limit_s model in
      ([CpModel_created; Solve_called model],
       match status with
       | OPTIMAL | FEASIBLE =>
           r ← extract Value vars employees feasible_shifts hours
                       day_start_hour day_end_hour
                       min_workers_per_hour max_workers_per_hour;
           Ok (ok r)
       | _ => Ok no_solution
       end)
  end.

(** ** [SchedulerUI.run_scheduler] (main.py, lines 483-562)

    The widget state the handler reads, and the last result it stores.  The
    rendering of a result into the two views is kept as one effect. *)
Record SchedulerUI := {
  self_employees : list Employee;
  self_last_result : option Schedule;
  day_start_var : Z;
  day_length_var : Z;
  min_cov_var : Z;
  max_cov_var : Z;
}.

Definition set_last_result (self : SchedulerUI) (r : option Schedule) : SchedulerUI :=
  {| self_employees := self_employees self;
     self_last_result := r;
     day_start_var := day_start_var self;
     day_length_var := day_length_var self;
     min_cov_var := min_cov_var self;
     max_cov_var := max_cov_var self |}.

(** The handler: its effects, in order, and the state of the window when
    it returns; an exception raised by the core propagates. *)
Definition run_scheduler (solver : CpSolver) (self : SchedulerUI)
  : list Effect * res SchedulerUI :=
  if bool_decide (length (self_employees self) = 0%nat) then
    ([showerror "No employees" "Add at least one employee."], Ok self)
  else
    let day_start := day_start_var self in
    let day_len := day_length_var self in
    let min_cov := min_cov_var self in
    let max_cov := max_cov_var self in
    if bool_decide (min_cov < 0 ∨ max_cov < 0) then
      ([showerror "Invalid coverage" "Min/Max workers/hour must be >= 0."], Ok self)
    else if bool_decide (min_cov > max_cov) then
      ([showerror "Invalid coverage"
                  "Min workers/hour cannot be greater than Max workers/hour."], Ok self)
    else
      let '(effects, result) :=
        schedule_workers_softmin_hardmax solver (self_employees self)
          day_start day_len [4; 5] min_cov max_cov true 10%Q in
      match result with
      | Raise e => (effects, Raise e)
      | Ok no_solution =>
          (effects ++ [results_cleared;
                       showerror "No solution"
                         "Solver did not find a schedule (unexpected with soft min)."],
           Ok (set_last_result self None))
      | Ok (ok r) =>
          (effects ++ [results_cleared; results_rendered r],
           Ok (set_last_result self (Some r)))
      end.

(** ** What a solution of a model is *)

Fixpoint eval (Value : IntVar → Z) (e : LinearExpr) : Z :=
  match e with
  | LConst c => c
  | LVar v => Value v
  | LAdd a b => eval Value a + eval Value b
  | LSub a b => eval Value a - eval Value b
  | LMul a c => eval Value a * c
  end.

(** Maximum and minimum of a list; none for the empty list. *)
Definition list_max (l : list Z) : option Z :=
  match l with [] => None | a :: l => Some (foldl Z.max a l) end.

Definition list_min (l : list Z) : option Z :=
  match l with [] => None | a :: l => Some (foldl Z.min a l) end.

(** When a constraint holds under a valuation.  A max- or min-equality over
    no expression at all has no solution: the solver rejects such a model. *)
Definition holds (Value : IntVar → Z) (ct : Constraint) : Prop :=
  match ct with
  | CLe a b => eval Value a ≤ eval Value b
  | CGe a b => eval Value b ≤ eval Value a
  | CEq a b => eval Value a = eval Value b
  | CMaxEquality target exprs => list_max (eval Value <$> exprs) = Some (eval Value target)
  | CMinEquality target exprs => list_min (eval Value <$> exprs) = Some (eval Value target)
  end.

#[global] Instance holds_dec Value ct : Decision (holds Value ct) :=
  match ct as ct return Decision (holds Value ct) with
  | CLe a b => decide (eval Value a ≤ eval Value b)
  | CGe a b => decide (eval Value b ≤ eval Value a)
  | CEq a b => decide (eval Value a = eval Value b)
  | CMaxEquality target exprs =>
      decide (list_max (eval Value <$> exprs) = Some (eval Value target))
  | CMinEquality target exprs =>
      decide (list_min (eval Value <$> exprs) = Some (eval Value target))
  end.

Definition in_domain (Value : IntVar → Z) (d : VarDecl) (v : IntVar) : Prop :=
  var_lb d ≤ Value v ≤ var_ub d.

Definition satisfies (Value : IntVar → Z) (m : CpModel) : Prop :=
  (∀ v d, variables m !! v = Some d → in_domain Value d v)
  ∧ Forall (holds Value) (constraints m).

(** The contract of the solver: a valuation that comes with status OPTIMAL
    or FEASIBLE is a solution of the model it was given. *)
Definition sound (solver : CpSolver) : Prop :=
  ∀ t m status Value,
    solver t m = (status, Value) →
    status = OPTIMAL ∨ status = FEASIBLE →
    satisfies Value m.

(** A solver backend that only checks a proposed valuation. *)
Definition check_solution (Value : IntVar → Z) (m : CpModel) : bool :=
  forallb (λ '(v, d), bool_decide (in_domain Value d v)) (enumerate (variables m))
  && forallb (λ ct, bool_decide (holds Value ct)) (constraints m).

Definition checking_solver (proposal : list Z) : CpSolver := λ _ m,
  let Value := λ v, default 0 (proposal !! v) in
  if check_solution Value m then (FEASIBLE, Value) else (UNKNOWN, Value).

(** ** Vocabulary for reasoning about the construction of a model

    The code only ever adds to the model: variables and constraints are
    appended, never removed.  A fact of the form "this variable was declared
    with this domain" or "this constraint was posted" therefore survives
    everything the code does afterwards. *)

Definition extends (m m' : CpModel) : Prop :=
  variables m `prefix_of` variables m' ∧ constraints m `prefix_of` constraints m'.

Definition declared (m : CpModel) (v : IntVar) (lb ub : Z) : Prop :=
  ∃ d, variables m !! v = Some d ∧ var_lb d = lb ∧ var_ub d = ub.

Definition posted (m : CpModel) (ct : Constraint) : Prop := ct ∈ constraints m.

(** Started on [m], the computation [c] does not raise; it returns some [a]
    and a model that extends [m], and these satisfy [Q]. *)
Definition yields {A} (c : Build A) (m : CpModel) (Q : A → CpModel → Prop) : Prop :=
  ∃ a m', c m = Ok (a, m') ∧ extends m m' ∧ Q a m'.

(** The sum of a list of integers. *)
Definition sumZ (l : list Z) : Z := foldr Z.add 0 l.

(** The terms over which lines 96 and 125-128 sum, for employee [e_idx]. *)
Definition x_terms (x : gmap (nat * nat) IntVar) (e_idx n : nat) : res (list LinearExpr) :=
  collect (λ s_idx, v ← dict_get x (e_idx, s_idx); Ok (LVar v)) (seq 0 n).

Definition wh_terms (x : gmap (nat * nat) IntVar) (e_idx : nat) (shifts : list Shift)
  : res (list LinearExpr) :=
  collect (λ s_idx,
             v ← dict_get x (e_idx, s_idx);
             s1 ← list_get shifts s_idx;
             s0 ← list_get shifts s_idx;
             Ok (LMul (LVar v) (s1.2 - s0.1)))
          (seq 0 (length shifts)).

(** The terms over which lines 142 and 146 sum. *)
Definition var_terms (d : gmap Z IntVar) (hours : list Z) : res (list LinearExpr) :=
  collect (λ h, v ← dict_get d h; Ok (LVar v)) hours.

(** Every value of the dictionary [x] is a variable declared Boolean. *)
Definition bool_vars (x : gmap (nat * nat) IntVar) (m : CpModel) : Prop :=
  ∀ k v, x !! k = Some v → declared m v 0 1.

(** The dictionary [x] has a key for every (employee, feasible shift). *)
Definition keyed (x : gmap (nat * nat) IntVar) (feasible_shifts : list (list Shift)) : Prop :=
  ∀ e_idx shifts s_idx,
    feasible_shifts !! e_idx = Some shifts → (s_idx < length shifts)%nat →
    is_Some (x !! (e_idx, s_idx)).

(** The number of selected shifts that cover the hour [h], written as the
    sum of the decision variables of the covering shifts: for one employee,
    and over all employees. *)
Definition covering (Value : IntVar → Z) (x : gmap (nat * nat) IntVar) (h : Z)
    (e_idx : nat) (shifts : list (nat * Shift)) : Z :=
  sumZ ((λ p : nat * Shift,
           if bool_decide (p.2.1 ≤ h < p.2.2)
           then from_option Value 0 (x !! (e_idx, p.1)) else 0) <$> shifts).

Definition cover_count (Value : IntVar → Z) (x : gmap (nat * nat) IntVar)
    (feasible_shifts : list (list Shift)) (h : Z) : Z :=
  sumZ ((λ q : nat * list Shift, covering Value x h q.1 (enumerate q.2))
          <$> enumerate feasible_shifts).

(** What lines 103-118 leave behind for the hour [h]. *)
Definition hour_posted (x : gmap (nat * nat) IntVar) (feasible_shifts : list (list Shift))
    (coverage_vars understaff : gmap Z IntVar) (m : CpModel)
    (n_employees : nat) (min_workers max_workers : Z) (h : Z) : Prop :=
  ∃ cov u,
    coverage_vars !! h = Some cov ∧ understaff !! h = Some u
    ∧ declared m cov 0 (Z.of_nat n_employees) ∧ declared m u 0 1000
    ∧ posted m (CLe (LVar cov) (LConst max_workers))
    ∧ posted m (CGe (LAdd (LVar cov) (LVar u)) (LConst min_workers))
    ∧ ∃ expr, posted m (CEq (LVar cov) expr)
              ∧ ∀ Value, eval Value expr = cover_count Value x feasible_shifts h.

(** What lines 123-130 leave behind for the employee [e_idx]. *)
Definition work_hours_posted (x : gmap (nat * nat) IntVar) (work_hours : list IntVar)
    (m : CpModel) (i e_idx : nat) (shifts : list Shift) : Prop :=
  ∃ wh terms,
    work_hours !! i = Some wh ∧ declared m wh 0 24
    ∧ wh_terms x e_idx shifts = Ok terms
    ∧ posted m (CEq (LVar wh) (py_sum terms)).

(** The objective of line 149 over the handles [vars]. *)
Definition objective_of (vars : Vars.t) : LinearExpr :=
  LAdd (LAdd (LMul (LVar (Vars.total_understaff vars)) 100000)
             (LMul (LVar (Vars.spread vars)) 1000))
       (LVar (Vars.total_coverage vars)).

(** Everything [build_model] has declared and posted when it returns. *)
Record Built (feasible_shifts : list (list Shift)) (n_employees : nat) (hours : list Z)
    (min_workers max_workers : Z) (one_shift : bool)
    (vars : Vars.t) (m : CpModel) : Prop := {
  built_bool : bool_vars (Vars.x vars) m;
  built_keyed : keyed (Vars.x vars) feasible_shifts;
  built_one_shift :
    one_shift = true →
    ∀ e_idx shifts, feasible_shifts !! e_idx = Some shifts →
      ∃ terms, x_terms (Vars.x vars) e_idx (length shifts) = Ok terms
               ∧ posted m (CLe (py_sum terms) (LConst 1));
  built_hours :
    ∀ h, h ∈ hours →
      hour_posted (Vars.x vars) feasible_shifts
                  (Vars.coverage_vars vars) (Vars.understaff vars) m
                  n_employees min_workers max_workers h;
  built_work_hours_length : length (Vars.work_hours vars) = length feasible_shifts;
  built_work_hours :
    ∀ e_idx shifts, feasible_shifts !! e_idx = Some shifts →
      work_hours_posted (Vars.x vars) (Vars.work_hours vars) m e_idx e_idx shifts;
  built_max_work :
    posted m (CMaxEquality (LVar (Vars.max_work vars)) (LVar <$> Vars.work_hours vars));
  built_min_work :
    posted m (CMinEquality (LVar (Vars.min_work vars)) (LVar <$> Vars.work_hours vars));
  built_spread :
    posted m (CEq (LVar (Vars.spread vars))
                  (LSub (LVar (Vars.max_work vars)) (LVar (Vars.min_work vars))));
  built_total_coverage :
    ∃ terms, var_terms (Vars.coverage_vars vars) hours = Ok terms
             ∧ posted m (CEq (LVar (Vars.total_coverage vars)) (py_sum terms));
  built_total_understaff :
    ∃ terms, var_terms (Vars.understaff vars) hours = Ok terms
             ∧ posted m (CEq (LVar (Vars.total_understaff vars)) (py_sum terms));
  built_objective : objective m = Some (objective_of vars);
}.

(** The shifts of employee [e_idx] whose decision variable has value 1, in
    the order of the feasible list. *)
Definition is_selected (Value : IntVar → Z) (x : gmap (nat * nat) IntVar)
    (e_idx : nat) (p : nat * Shift) : Prop :=
  from_option (λ v, Value v = 1) False (x !! (e_idx, p.1)).

#[global] Instance is_selected_dec Value x e_idx p : Decision (is_selected Value x e_idx p) :=
  match x !! (e_idx, p.1) as o
        return Decision (from_option (λ v, Value v = 1) False o) with
  | Some v => decide (Value v = 1)
  | None => right (λ contra : False, contra)
  end.

Definition selected (Value : IntVar → Z) (x : gmap (nat * nat) IntVar)
    (e_idx : nat) (shifts : list Shift) : list Shift :=
  snd <$> filter (is_selected Value x e_idx) (enumerate shifts).

(** The length [end - start] of a shift. *)
Definition shift_length (s : Shift) : Z := s.2 - s.1.

(** Names for the first lines of the function body. *)
Definition hours_of (day_start_hour day_length_hours : Z) : list Z :=
  range day_start_hour (day_start_hour + day_length_hours).

Definition feasible_of (employees : list Employee)
    (day_start_hour day_length_hours : Z) (allowed_shift_lengths : list Z)
  : list (list Shift) :=
  feasible_shifts_of employees
    (build_candidate_shifts day_start_hour day_length_hours allowed_shift_lengths).

(** The model handed to the solver, with the handles on its variables. *)
Definition model_of (employees : list Employee)
    (day_start_hour day_length_hours : Z) (allowed_shift_lengths : list Z)
    (min_workers_per_hour max_workers_per_hour : Z)
    (max_one_shift_per_employee : bool) : res (Vars.t * CpModel) :=
  build_model employees
    (feasible_of employees day_start_hour day_length_hours allowed_shift_lengths)
    (hours_of day_start_hour day_length_hours)
    min_workers_per_hour max_workers_per_hour max_one_shift_per_employee
    new_CpModel.

(** The sum over [hours] of the values of the variables [d[h]]. *)
Definition sum_over (Value : IntVar → Z) (d : gmap Z IntVar) (hours : list Z) : Z :=
  sumZ ((λ h, from_option Value 0 (d !! h)) <$> hours).

(** ** The constants that the solver library accepts

    [model.Add] and the operators that build its argument raise when a
    constant lies outside the signed 64-bit range of the library; [Add]
    above does not.  The constants that enter the model are the two
    coverage bounds (lines 114 and 118) and the shift lengths (line 125).
    What is said of a call returning is therefore said for constants well
    inside that range, where the library accepts them. *)
Definition solver_constant (k : Z) : Prop := - 2 ^ 62 < k < 2 ^ 62.

Definition accepted_by_solver (allowed_shift_lengths : list Z)
    (min_workers_per_hour max_workers_per_hour : Z) : Prop :=
  Forall solver_constant allowed_shift_lengths
  ∧ solver_constant min_workers_per_hour
  ∧ solver_constant max_workers_per_hour.

(** ** Vocabulary for the checks made before the core is called *)

(** The run created a constraint model, or called the solver. *)
Definition builds_model (effects : list Effect) : Prop := CpModel_created ∈ effects.

Definition calls_solver (effects : list Effect) : Prop :=
  ∃ model, Solve_called model ∈ effects.

(** [run_scheduler] showed one error dialog and did nothing else. *)
Definition rejected (run : list Effect * res SchedulerUI) (self : SchedulerUI) : Prop :=
  ∃ title message, run = ([showerror title message], Ok self).

(** The configurations that the specification calls invalid; the handler
    always passes the allowed lengths [(4, 5)]. *)
Definition invalid_configuration (self : SchedulerUI) : Prop :=
  max_cov_var self < min_cov_var self
  ∨ min_cov_var self < 0 ∨ max_cov_var self < 0
  ∨ day_length_var self ≤ 0
  ∨ (∀ L, L ∈ [4; 5] → day_length_var self < L).

(** ** Two small days, used to run the definitions *)

Definition worker (n : string) (hours : list Z) : Employee :=
  {| name := n; unavailable := Some (list_to_set hours) |}.

(** A four-hour day from 8: Alex is free all day, Brianna is in class during
    every hour of it. *)
Definition morning_staff : list Employee :=
  [worker "Alex" [12]; worker "Brianna" [8; 9; 10; 11]].

(** The values a solver may return for the model of that day, in the order
    in which the variables are created: [x_e0_s8_12]; coverage and understaff
    for the hours 8 to 11; the work hours of the two employees; [max_work],
    [min_work], [spread], [total_coverage], [total_understaff]. *)
Definition morning_values : list Z :=
  [1; 1; 0; 1; 0; 1; 0; 1; 0; 4; 0; 4; 0; 4; 4; 0].

Definition morning_solver : CpSolver := checking_solver morning_values.

Definition morning_schedule : Schedule :=
  {| day_start_hour := 8;
     day_end_hour := 12;
     min_workers_per_hour := 1;
     max_workers_per_hour := 2;
     fairness_spread := 4;
     total_understaff := 0;
     coverage_by_hour := dict_of_items [(8, 1); (9, 1); (10, 1); (11, 1)];
     understaff_by_hour := dict_of_items [(8, 0); (9, 0); (10, 0); (11, 0)];
     assignments :=
       [{| employee := "Alex"; shift := Some (8, 12); work_hours := 4;
           unavailable_sorted := [12] |};
        {| employee := "Brianna"; shift := None; work_hours := 0;
           unavailable_sorted := [8; 9; 10; 11] |}] |}.

(** A five-hour day from 8: Alex is free and has three feasible shifts, 8
    to 12, 9 to 13 and 8 to 13; Brianna is in class at 8 and has one. *)
Definition five_hour_staff : list Employee :=
  [worker "Alex" []; worker "Brianna" [8]].

(** Values for the model of that day: the three decision variables of
    Alex and the one of Brianna; coverage and understaff for the hours 8
    to 12; the work hours of the two; [max_work], [min_work], [spread],
    [total_coverage], [total_understaff].  Alex works 8 to 12 and Brianna
    9 to 13. *)
Definition five_hour_values : list Z :=
  [1; 0; 0; 1; 1; 0; 2; 0; 2; 0; 2; 0; 1; 0; 4; 4; 4; 4; 0; 8; 0].

Definition five_hour_solver : CpSolver := checking_solver five_hour_values.

Definition five_hour_schedule : Schedule :=
  {| day_start_hour := 8;
     day_end_hour := 13;
     min_workers_per_hour := 1;
     max_workers_per_hour := 2;
     fairness_spread := 0;
     total_understaff := 0;
     coverage_by_hour := dict_of_items [(8, 1); (9, 2); (10, 2); (11, 2); (12, 1)];
     understaff_by_hour := dict_of_items [(8, 0); (9, 0); (10, 0); (11, 0); (12, 0)];
     assignments :=
       [{| employee := "Alex"; shift := Some (8, 12); work_hours := 4;
           unavailable_sorted := [] |};
        {| employee := "Brianna"; shift := Some (9, 13); work_hours := 4;
           unavailable_sorted := [8] |}] |}.

(** Values in which Alex works both 8 to 12 and 9 to 13, and Brianna not
    at all: coverage, work hours and totals are those of these shifts. *)
Definition double_shift_values : list Z :=
  [1; 1; 0; 0; 1; 0; 2; 0; 2; 0; 2; 0; 1; 0; 8; 0; 8; 0; 8; 8; 0].

(** The widgets of the window with one employee and a three-hour day. *)
Definition short_day : SchedulerUI :=
  {| self_employees := [worker "Alex" []];
     self_last_result := None;
     day_start_var := 8;
     day_length_var := 3;
     min_cov_var := 1;
     max_cov_var := 2 |}.

(** The widgets with a maximum below the minimum, and with no employee. *)
Definition crossed_bounds : SchedulerUI :=
  {| self_employees := [worker "Alex" []];
     self_last_result := None;
     day_start_var := 8;
     day_length_var := 12;
     min_cov_var := 2;
     max_cov_var := 1 |}.

Definition empty_window : SchedulerUI :=
  {| self_employees := [];
     self_last_result := None;
     day_start_var := 8;
     day_length_var := 12;
     min_cov_var := 1;
     max_cov_var := 2 |}.

(** ** A day with a blackout hour, used to run the definitions

    A four-hour day from 8 with one employee who is in class from 9 to 10:
    the only candidate shift overlaps it. *)
Definition blackout_staff : list Employee := [worker "Alex" [9]].

(** The values of the variables of that day's model: coverage and understaff
    for the hours 8 to 11, the employee's work hours, [max_work], [min_work],
    [spread], [total_coverage], [total_understaff]. *)
Definition blackout_values : list Z := [0; 1; 0; 1; 0; 1; 0; 1; 0; 0; 0; 0; 0; 4].

Definition blackout_schedule : Schedule :=
  {| day_start_hour := 8;
     day_end_hour := 12;
     min_workers_per_hour := 1;
     max_workers_per_hour := 2;
     fairness_spread := 0;
     total_understaff := 4;
     coverage_by_hour := dict_of_items [(8, 0); (9, 0); (10, 0); (11, 0)];
     understaff_by_hour := dict_of_items [(8, 1); (9, 1); (10, 1); (11, 1)];
     assignments :=
       [{| employee := "Alex"; shift := None; work_hours := 0;
           unavailable_sorted := [9] |}] |}.

(** ** [format_hour] (main.py, lines 10-19)

    Python's [%] with a positive divisor yields a result in [0, 24), as
    [Z.modulo] does. *)
Definition format_hour (hour : Z) : string :=
  let hour := hour `mod` 24 in
  if bool_decide (hour = 0) then "12:00 AM"
  else if bool_decide (hour < 12) then pretty hour +:+ ":00 AM"
  else if bool_decide (hour = 12) then "12:00 PM"
  else pretty (hour - 12) +:+ ":00 PM".

(** ** The demo datasets (main.py, lines 196-261) *)

Record Dataset := {
  data_day_start : Z;
  data_day_length : Z;
  data_min_cov : Z;
  data_max_cov : Z;
  data_employees : list Employee;
  data_note : string;
}.

(** A Python dictionary with string keys, in insertion order. *)
Definition DEMO_DATASETS : list (string * Dataset) :=
  [("Feasible (clean schedule)",
    {| data_day_start := 8; data_day_length := 12; data_min_cov := 1; data_max_cov := 2;
       data_employees :=
         [worker "Alex" [10]; worker "Brianna" [12]; worker "Carlos" [9; 14];
          worker "Diana" [11]; worker "Ethan" [15]; worker "Faith" [];
          worker "Gabriel" [13]];
       data_note := "Should cover all hours with 1–2 workers. Good baseline demo." |});
   ("Understaff demo (forced gap at 12 PM)",
    {| data_day_start := 8; data_day_length := 12; data_min_cov := 1; data_max_cov := 2;
       data_employees :=
         [worker "Alex" [12]; worker "Brianna" [12]; worker "Carlos" [12];
          worker "Diana" [12]; worker "Ethan" [12]; worker "Faith" [9; 15]];
       data_note :=
         "Everyone is unavailable at 12–1 PM, so you will see UNDERSTAFF there." |});
   ("Understaff demo (2-hour blackout 11–1)",
    {| data_day_start := 8; data_day_length := 12; data_min_cov := 1; data_max_cov := 2;
       data_employees :=
         [worker "Alex" [11; 12]; worker "Brianna" [11; 12]; worker "Carlos" [11; 12];
          worker "Diana" [11; 12]; worker "Ethan" [11; 12]; worker "Faith" [9; 15]];
       data_note := "You should see UNDERSTAFF for 11–12 and 12–1." |});
   ("Busier day (min=2, max=2)",
    {| data_day_start := 8; data_day_length := 12; data_min_cov := 2; data_max_cov := 2;
       data_employees :=
         [worker "Alex" [10]; worker "Brianna" [12]; worker "Carlos" [9; 14];
          worker "Diana" [11]; worker "Ethan" [15]; worker "Faith" [];
          worker "Gabriel" [13]; worker "Hannah" [16]; worker "Ivan" [8; 17]];
       data_note :=
         "Requires 2 workers every hour (exactly 2). Understaff may appear if impossible." |})].

(** [d.get(key)] on such a dictionary. *)
Fixpoint dict_lookup {V} (d : list (string * V)) (key : string) : option V :=
  match d with
  | [] => None
  | (k, v) :: d => if bool_decide (k = key) then Some v else dict_lookup d key
  end.

(** ** The window (main.py, lines 267-616)

    Beside the fields of [SchedulerUI], the state of the window that the
    handlers read and write: the two entry fields, the selected demo, and
    the rows of the employee table.  The positions of the rows selected in
    that table, the path chosen in the save dialog and the failure of the
    file system, if any, are inputs of the handlers. *)
Record Window := {
  ui : SchedulerUI;
  name_var : string;
  unavail_var : string;
  demo_var : string;
  emp_tree : list (string * string);
}.

(** The string functions of Python that the handlers call, as parameters:
    [str.strip] and [int], which yields nothing where Python raises
    [ValueError]. *)
Record Python := {
  str_strip : string → string;
  int_of_str : string → option Z;
}.

(** The line feed character. *)
Definition newline : string := String (Ascii.ascii_of_nat 10) EmptyString.

(** [s.split(",")]: the pieces between the commas, one more than there are
    commas. *)
Fixpoint split_commas (s : string) : list string :=
  match s with
  | EmptyString => [EmptyString]
  | String c s =>
      if bool_decide (String c EmptyString = ",") then EmptyString :: split_commas s
      else match split_commas s with
           | piece :: pieces => String c piece :: pieces
           | [] => [String c EmptyString]
           end
  end.

(** [sep.join(pieces)] *)
Fixpoint join (sep : string) (pieces : list string) : string :=
  match pieces with
  | [] => EmptyString
  | [piece] => piece
  | piece :: pieces => piece +:+ sep +:+ join sep pieces
  end.

(** What the handlers do to the outside. *)
Inductive Event :=
| core_effect (e : Effect)
| showinfo (title message : string)                      (* messagebox.showinfo *)
| csv_written (path : string) (rows : list (list string)). (* the rows written to the file *)

(** The row of the employee table for an employee (lines 429 and 454). *)
Definition employee_row (name : string) (unavailable : gset Z) : string * string :=
  (name, join "," (pretty <$> sorted unavailable)).

Definition with_ui (self : Window) (u : SchedulerUI) : Window :=
  {| ui := u; name_var := name_var self; unavail_var := unavail_var self;
     demo_var := demo_var self; emp_tree := emp_tree self |}.

Definition with_employees (u : SchedulerUI) (employees : list Employee) : SchedulerUI :=
  {| self_employees := employees;
     self_last_result := self_last_result u;
     day_start_var := day_start_var u;
     day_length_var := day_length_var u;
     min_cov_var := min_cov_var u;
     max_cov_var := max_cov_var u |}.

(** [clear_all] (lines 470-480). *)
Definition clear_all (self : Window) : list Event * Window :=
  ([core_effect results_cleared],
   {| ui := set_last_result (with_employees (ui self) []) None;
      name_var := name_var self; unavail_var := unavail_var self;
      demo_var := demo_var self; emp_tree := [] |}).

(** [add_employee] (lines 434-457).  The hours are parsed, then checked:
    any failure shows the same error and leaves the window as it was. *)
Definition parse_unavailable (py : Python) (unavail_raw : string) : option (gset Z) :=
  let parts := filter (λ p, p ≠ EmptyString) (str_strip py <$> split_commas unavail_raw) in
  hours ← mapM (int_of_str py) parts;
  let unavailable : gset Z := list_to_set hours in
  if bool_decide (set_Forall (λ h, ¬ (h < 0 ∨ h > 23)) unavailable)
  then Some unavailable else None.

Definition add_employee (py : Python) (self : Window) : list Event * Window :=
  let name := str_strip py (name_var self) in
  if bool_decide (name = EmptyString) then
    ([core_effect (showerror "Missing name" "Please enter an employee name.")], self)
  else
    let unavail_raw := str_strip py (unavail_var self) in
    let parsed :=
      if bool_decide (unavail_raw = EmptyString) then Some ∅
      else parse_unavailable py unavail_raw in
    match parsed with
    | None =>
        ([core_effect (showerror "Invalid hours"
            "Enter class hours like: 12 or 9,15 (integers 0–23).")], self)
    | Some unavailable =>
        ([],
         {| ui := with_employees (ui self)
                    (self_employees (ui self)
                       ++ [{| name := name; unavailable := Some unavailable |}]);
            name_var := EmptyString;
            unavail_var := EmptyString;
            demo_var := demo_var self;
            emp_tree := emp_tree self ++ [employee_row name unavailable] |})
    end.

(** [remove_selected] (lines 459-468), given the positions [idxs] of the
    selected rows: the rows are deleted from the table, then the employees
    at these positions are popped, from the last position down. *)
Definition delete_rows {A} (idxs : list nat) (rows : list A) : list A :=
  (enumerate rows) ≫= (λ '(i, row), if bool_decide (i ∈ idxs) then [] else [row]).

(** [delete_rows] on rows numbered from [n]: a form for induction. *)
Definition delete_rows_from {A} (n : nat) (idxs : list nat) (rows : list A) : list A :=
  zip (seq n (length rows)) rows
    ≫= (λ '(i, row), if bool_decide (i ∈ idxs) then [] else [row]).

Definition pop_all (idxs_descending : list nat) (employees : list Employee)
  : list Employee :=
  foldl (λ employees i,
           if bool_decide (i < length employees)%nat then delete i employees
           else employees)
        employees idxs_descending.

Definition remove_selected (idxs : list nat) (self : Window) : list Event * Window :=
  match idxs with
  | [] => ([], self)
  | _ =>
      ([],
       {| ui := with_employees (ui self)
                  (pop_all (reverse (merge_sort Nat.le idxs)) (self_employees (ui self)));
          name_var := name_var self; unavail_var := unavail_var self;
          demo_var := demo_var self;
          emp_tree := delete_rows idxs (emp_tree self) |})
  end.

(** [load_selected_demo] (lines 414-431). *)
Definition load_selected_demo (self : Window) : list Event * Window :=
  let key := demo_var self in
  match dict_lookup DEMO_DATASETS key with
  | None => ([], self)
  | Some data =>
      let '(events, self) := clear_all self in
      let u := ui self in
      let u := {| self_employees := self_employees u;
                  self_last_result := self_last_result u;
                  day_start_var := data_day_start data;
                  day_length_var := data_day_length data;
                  min_cov_var := data_min_cov data;
                  max_cov_var := data_max_cov data |} in
      let self :=
        foldl (λ self e,
                 {| ui := with_employees (ui self)
                            (self_employees (ui self)
                               ++ [{| name := name e;
                                      unavailable := Some (get_unavailable e) |}]);
                    name_var := name_var self; unavail_var := unavail_var self;
                    demo_var := demo_var self;
                    emp_tree := emp_tree self
                                  ++ [employee_row (name e) (get_unavailable e)] |})
              (with_ui self u) (data_employees data) in
      (events ++ [showinfo "Demo Loaded"
                    ("Loaded: " +:+ key +:+ newline +:+ newline
                       +:+ "Click 'Run Scheduler' to generate the schedule.")],
       self)
  end.

(** [export_coverage_csv] (lines 565-616).  The cells of a row are the
    strings that [csv.writer] writes for the values: none of them needs
    quoting.  A missing hour key raises [KeyError] inside the [try] block:
    the rows written so far stay in the file and the error is shown. *)
Definition csv_header : list string :=
  ["block_start_hour_24h"; "block_end_hour_24h"; "block_start_time"; "block_end_time";
   "coverage"; "understaff"; "min_workers_soft"; "max_workers_hard"].

Fixpoint csv_rows (result : Schedule) (hours : list Z) (written : list (list string))
  : list (list string) * option string :=
  match hours with
  | [] => (written, None)
  | h :: hours =>
      match coverage_by_hour result !! h with
      | None => (written, Some (pretty h))
      | Some cov =>
          match understaff_by_hour result !! h with
          | None => (written, Some (pretty h))
          | Some short =>
              csv_rows result hours
                (written ++ [[pretty h; pretty (h + 1);
                              format_hour h; format_hour (h + 1);
                              pretty cov; pretty short;
                              pretty (min_workers_per_hour result);
                              pretty (max_workers_per_hour result)]])
          end
      end
  end.

Definition export_coverage_csv (path : string) (fs_error : option string)
    (self : Window) : list Event :=
  match self_last_result (ui self) with
  | None =>
      [core_effect (showerror "Nothing to export"
                      "Run the scheduler first, then export coverage to CSV.")]
  | Some result =>
      if bool_decide (path = EmptyString) then []
      else
        match fs_error with
        | Some e =>
            [core_effect (showerror "Export failed"
                            ("Could not write CSV:" +:+ newline +:+ e))]
        | None =>
            let '(rows, error) :=
              csv_rows result (range (day_start_hour result) (day_end_hour result))
                       [csv_header] in
            match error with
            | Some e =>
                [csv_written path rows;
                 core_effect (showerror "Export failed"
                                ("Could not write CSV:" +:+ newline +:+ e))]
            | None =>
                [csv_written path rows;
                 showinfo "Export complete"
                          ("Saved coverage CSV:" +:+ newline +:+ path)]
            end
        end
  end.

(** The coverage summary that [run_scheduler] writes for a result (lines
    543-562): the pieces of text inserted, each with whether it carries the
    tag that shows it in red, and the [KeyError] if a key is missing. *)
Definition coverage_header (result : Schedule) : string :=
  join newline
    ["Coverage constraints: MIN=" +:+ pretty (min_workers_per_hour result)
       +:+ " (soft), MAX=" +:+ pretty (max_workers_per_hour result) +:+ " (hard)";
     "Total understaff (sum across hours): " +:+ pretty (total_understaff result);
     "Fairness spread (max work hrs - min work hrs): "
       +:+ pretty (fairness_spread result);
     "";
     "Coverage by hour:"]
  +:+ newline.

Fixpoint coverage_lines (result : Schedule) (hours : list Z)
    (inserted : list (string * bool)) : list (string * bool) * option exn :=
  match hours with
  | [] => (inserted, None)
  | h :: hours =>
      match coverage_by_hour result !! h with
      | None => (inserted, Some KeyError)
      | Some cov =>
          match understaff_by_hour result !! h with
          | None => (inserted, Some KeyError)
          | Some short =>
              let line := "  " +:+ format_hour h +:+ " – " +:+ format_hour (h + 1)
                            +:+ " : " +:+ pretty cov +:+ " worker(s)" in
              if bool_decide (short > 0) then
                coverage_lines result hours
                  (inserted ++ [(line +:+ "   UNDERSTAFF +" +:+ pretty short +:+ newline,
                                 true)])
              else
                coverage_lines result hours (inserted ++ [(line +:+ newline, false)])
          end
      end
  end.

Definition coverage_report (day_start : Z) (result : Schedule)
  : list (string * bool) * option exn :=
  coverage_lines result (range day_start (day_end_hour result))
                 [(coverage_header result, false)].

(** ** The window as a state machine

    The window when it opens (lines 268-321), and what the user can do:
    edit a field, or click a button, which calls the handler bound to it. *)
Definition first_demo : string :=
  match DEMO_DATASETS with (key, _) :: _ => key | [] => EmptyString end.

Definition opening_window : Window :=
  {| ui := {| self_employees := []; self_last_result := None;
              day_start_var := 8; day_length_var := 12;
              min_cov_var := 1; max_cov_var := 2 |};
     name_var := EmptyString; unavail_var := EmptyString;
     demo_var := first_demo; emp_tree := [] |}.

Inductive Action :=
| type_name (text : string)
| type_unavailable (text : string)
| select_demo (key : string)
| set_day_start (value : Z)
| set_day_length (value : Z)
| set_min_cov (value : Z)
| set_max_cov (value : Z)
| click_add
| click_remove (selected_rows : list nat)
| click_clear
| click_load_demo
| click_run
| click_export (path : string) (fs_error : option string).

Definition set_vars (u : SchedulerUI) (ds dl mn mx : Z) : SchedulerUI :=
  {| self_employees := self_employees u;
     self_last_result := self_last_result u;
     day_start_var := ds; day_length_var := dl;
     min_cov_var := mn; max_cov_var := mx |}.

Definition step (solver : CpSolver) (py : Python) (a : Action) (self : Window)
  : list Event * Window :=
  let u := ui self in
  match a with
  | type_name text =>
      ([], {| ui := u; name_var := text; unavail_var := unavail_var self;
              demo_var := demo_var self; emp_tree := emp_tree self |})
  | type_unavailable text =>
      ([], {| ui := u; name_var := name_var self; unavail_var := text;
              demo_var := demo_var self; emp_tree := emp_tree self |})
  | select_demo key =>
      ([], {| ui := u; name_var := name_var self; unavail_var := unavail_var self;
              demo_var := key; emp_tree := emp_tree self |})
  | set_day_start v =>
      ([], with_ui self (set_vars u v (day_length_var u) (min_cov_var u) (max_cov_var u)))
  | set_day_length v =>
      ([], with_ui self (set_vars u (day_start_var u) v (min_cov_var u) (max_cov_var u)))
  | set_min_cov v =>
      ([], with_ui self (set_vars u (day_start_var u) (day_length_var u) v (max_cov_var u)))
  | set_max_cov v =>
      ([], with_ui self (set_vars u (day_start_var u) (day_length_var u) (min_cov_var u) v))
  | click_add => add_employee py self
  | click_remove idxs => remove_selected idxs self
  | click_clear => clear_all self
  | click_load_demo => load_selected_demo self
  | click_run =>
      let '(effects, outcome) := run_scheduler solver u in
      (core_effect <$> effects,
       match outcome with Ok u' => with_ui self u' | Raise _ => self end)
  | click_export path fs_error => (export_coverage_csv path fs_error self, self)
  end.

(** The rows selected in the table are distinct rows. *)
Definition possible (a : Action) : Prop :=
  match a with click_remove idxs => NoDup idxs | _ => True end.

Inductive reachable (solver : CpSolver) (py : Python) : Window → Prop :=
| reachable_opening : reachable solver py opening_window
| reachable_step w a :
    reachable solver py w → possible a → reachable solver py (step solver py a w).2.

(** What holds of the employees of a window, and of the result it stores. *)
Definition employees_ok (self : Window) : Prop :=
  emp_tree self
  = (λ e, employee_row (name e) (get_unavailable e)) <$> self_employees (ui self)
  ∧ ∀ e, e ∈ self_employees (ui self) →
      name e ≠ EmptyString ∧ ∀ h, h ∈ get_unavailable e → 0 ≤ h ≤ 23.

Definition result_ok (result : Schedule) : Prop :=
  0 ≤ min_workers_per_hour result ≤ max_workers_per_hour result
  ∧ (∀ h, day_start_hour result ≤ h < day_end_hour result →
       ∃ cov short,
         coverage_by_hour result !! h = Some cov
         ∧ understaff_by_hour result !! h = Some short
         ∧ 0 ≤ cov ≤ max_workers_per_hour result
         ∧ 0 ≤ short ∧ min_workers_per_hour result ≤ cov + short)
  ∧ (∀ a s, a ∈ assignments result → shift a = Some s →
       day_start_hour result ≤ s.1 ∧ s.2 ≤ day_end_hour result
       ∧ (shift_length s = 4 ∨ shift_length s = 5)
       ∧ work_hours a = shift_length s).

(** A small [str.strip] and [int], for running the definitions: blanks
    removed at both ends, and unsigned decimal numbers. *)
Fixpoint lstrip_blanks (s : string) : string :=
  match s with
  | String c s' => if bool_decide (String c EmptyString = " ") then lstrip_blanks s' else s
  | EmptyString => EmptyString
  end.

Definition strip_blanks (s : string) : string :=
  String.rev (lstrip_blanks (String.rev (lstrip_blanks s))).

Fixpoint digits_value (s : string) (acc : Z) : option Z :=
  match s with
  | EmptyString => Some acc
  | String c s =>
      let d := Z.of_nat (Ascii.nat_of_ascii c) - 48 in
      if bool_decide (0 ≤ d ≤ 9) then digits_value s (10 * acc + d) else None
  end.

Definition small_python : Python :=
  {| str_strip := strip_blanks;
     int_of_str := λ s, if bool_decide (s = EmptyString) then None else digits_value s 0 |}.

(** ** Windows reached by a few clicks, used to run the definitions *)

Definition blackout_solver : CpSolver := checking_solver blackout_values.

(** The window after a list of actions, in order. *)
Definition run_actions (solver : CpSolver) (py : Python) (actions : list Action)
    (w : Window) : Window :=
  foldl (λ w a, (step solver py a w).2) w actions.

(** Alex, in class at 9, is added; the day is cut to four hours; Run. *)
Definition blackout_window : Window :=
  run_actions blackout_solver small_python
    [type_name " Alex "; type_unavailable "9"; click_add; set_day_length 4; click_run]
    opening_window.

(** Three employees are added and the one in the middle is removed. *)
Definition three_rows : Window :=
  {| ui := {| self_employees := [worker "Alex" [10]; worker "Brianna" [12];
                                 worker "Carlos" [9; 14]];
              self_last_result := None;
              day_start_var := 8; day_length_var := 12;
              min_cov_var := 1; max_cov_var := 2 |};
     name_var := EmptyString; unavail_var := EmptyString;
     demo_var := first_demo;
     emp_tree := [("Alex", "10"); ("Brianna", "12"); ("Carlos", "9,14")] |}.

(** * Properties *)

Example range_8_12 : range 8 12 = [8; 9; 10; 11].
Proof. reflexivity. Qed.

Example range_empty : range 5 3 = [].
Proof. reflexivity. Qed.

Example candidates_6h :
  build_candidate_shifts 8 6 [4; 5] = [(8, 12); (9, 13); (10, 14); (8, 13); (9, 14)].
Proof. reflexivity. Qed.

Example overlap_yes : overlaps_unavailability (8, 12) {[ 10 ]} = true.
Proof. vm_compute. reflexivity. Qed.

Example overlap_no : overlaps_unavailability (8, 12) {[ 12 ]} = false.
Proof. vm_compute. reflexivity. Qed.


(** ** Ranges and enumerations *)

Lemma elem_of_range a b h : h ∈ range a b ↔ a ≤ h < b.
Proof.
  unfold range. rewrite list_elem_of_fmap. split.
  - intros (i & -> & Hi). apply elem_of_seq in Hi. lia.
  - intros Hh. exists (Z.to_nat (h - a)). split; [lia|].
    apply elem_of_seq. lia.
Qed.

Lemma NoDup_range a b : NoDup (range a b).
Proof.
  unfold range. apply NoDup_fmap_2; [|apply NoDup_seq].
  intros i j Hij. lia.
Qed.

Lemma range_nil a b : b ≤ a → range a b = [].
Proof.
  intros Hba. unfold range. by replace (Z.to_nat (b - a)) with 0%nat by lia.
Qed.

Lemma length_enumerate {A} (l : list A) : length (enumerate l) = length l.
Proof. unfold enumerate. rewrite length_zip_with, length_seq. lia. Qed.

Lemma lookup_enumerate {A} (l : list A) i p :
  enumerate l !! i = Some p ↔ p.1 = i ∧ l !! i = Some p.2.
Proof.
  unfold enumerate. destruct p as [j a]. simpl. rewrite lookup_zip_with_Some. split.
  - intros (j' & a' & [= <- <-] & Hj & Ha). apply lookup_seq in Hj. by destruct Hj as [-> _].
  - intros [-> Ha]. exists i, a. split_and!; [done| |done].
    apply lookup_seq. split; [done|]. by eapply lookup_lt_Some.
Qed.

Lemma elem_of_enumerate {A} (l : list A) i a :
  (i, a) ∈ enumerate l ↔ l !! i = Some a.
Proof.
  rewrite list_elem_of_lookup. split.
  - intros [k Hk]. apply lookup_enumerate in Hk. simpl in Hk. by destruct Hk as [-> ?].
  - intros Ha. exists i. by apply lookup_enumerate.
Qed.

Lemma enumerate_mid {A} (l : list A) done i a rest :
  enumerate l = done ++ (i, a) :: rest → l !! i = Some a.
Proof.
  intros Hl. apply elem_of_enumerate. rewrite Hl, elem_of_app. right. left.
Qed.

Lemma enumerate_snoc {A} (l : list A) a :
  enumerate (l ++ [a]) = enumerate l ++ [(length l, a)].
Proof.
  unfold enumerate. rewrite length_app. simpl. rewrite seq_app. simpl.
  rewrite zip_with_app by (by rewrite length_seq). done.
Qed.

(** ** Candidate shifts *)

Lemma foldl_snoc_fmap {A B} (f : A → B) (l : list A) (acc : list B) :
  foldl (λ acc a, acc ++ [f a]) acc l = acc ++ (f <$> l).
Proof.
  revert acc. induction l as [|a l IH]; intros acc; simpl.
  - by rewrite app_nil_r.
  - rewrite IH. by rewrite <- app_assoc.
Qed.

Lemma foldl_app_bind {A B} (g : A → list B) (l : list A) (acc : list B) :
  foldl (λ acc a, acc ++ g a) acc l = acc ++ (l ≫= g).
Proof.
  revert acc. induction l as [|a l IH]; intros acc; simpl.
  - by rewrite app_nil_r.
  - rewrite IH. by rewrite <- app_assoc.
Qed.

Lemma foldl_pointwise {A B} (f g : B → A → B) (l : list A) (b : B) :
  (∀ b a, f b a = g b a) → foldl f b l = foldl g b l.
Proof.
  intros Hfg. revert b. induction l as [|a l IH]; intros b; simpl; [done|].
  by rewrite Hfg, IH.
Qed.

(** The two nested loops enumerate, length by length, every start hour. *)
Lemma build_candidate_shifts_unfold ds dl ls :
  build_candidate_shifts ds dl ls =
  ls ≫= (λ L, (λ start, (start, start + L)) <$> range ds (ds + dl - L + 1)).
Proof.
  unfold build_candidate_shifts. cbv zeta.
  rewrite <- (app_nil_l (ls ≫= _)). rewrite <- foldl_app_bind.
  apply foldl_pointwise. intros acc L.
  apply (foldl_snoc_fmap (λ start, (start, start + L))).
Qed.

Lemma elem_of_build_candidate_shifts ds dl ls s e :
  (s, e) ∈ build_candidate_shifts ds dl ls ↔
  ∃ L, L ∈ ls ∧ e = s + L ∧ ds ≤ s ∧ s + L ≤ ds + dl.
Proof.
  rewrite build_candidate_shifts_unfold, list_elem_of_bind. split.
  - intros (L & Hin & HL). apply list_elem_of_fmap in Hin as (start & [= -> ->] & Hst).
    apply elem_of_range in Hst. exists L. split_and!; [done|done|lia|lia].
  - intros (L & HL & -> & Hs1 & Hs2). exists L. split; [|done].
    apply list_elem_of_fmap. exists s. split; [done|].
    apply elem_of_range. lia.
Qed.

Lemma NoDup_build_candidate_shifts ds dl ls :
  NoDup ls → NoDup (build_candidate_shifts ds dl ls).
Proof.
  intros Hls. rewrite build_candidate_shifts_unfold.
  apply NoDup_bind; [| |done].
  - intros L1 L2 [s e] _ _ H1 H2.
    apply list_elem_of_fmap in H1 as (s1 & [= -> ->] & _).
    apply list_elem_of_fmap in H2 as (s2 & [= -> He] & _). lia.
  - intros L _. apply NoDup_fmap_2; [|apply NoDup_range].
    intros s1 s2 [= ->]. done.
Qed.

Lemma build_candidate_shifts_nil ds dl ls :
  (∀ L, L ∈ ls → dl < L) → build_candidate_shifts ds dl ls = [].
Proof.
  intros Hfit. destruct (build_candidate_shifts ds dl ls) as [|[s e] l] eqn:Heq; [done|].
  assert ((s, e) ∈ build_candidate_shifts ds dl ls) as Hin by (rewrite Heq; left).
  apply elem_of_build_candidate_shifts in Hin as (L & HL & _ & ? & ?).
  apply Hfit in HL. lia.
Qed.

(** C5: [build_candidate_shifts] returns exactly the pairs
    [(start, start + L)] with [L] an allowed length, [start >= day_start] and
    [start + L <= day_start + day_length], each of them once when the allowed
    lengths are distinct; when every allowed length exceeds the day length
    the result is the empty list. *)
Theorem build_candidate_shifts_exact ds dl ls :
  (∀ s e, (s, e) ∈ build_candidate_shifts ds dl ls ↔
          ∃ L, L ∈ ls ∧ e = s + L ∧ ds ≤ s ∧ s + L ≤ ds + dl)
  ∧ (NoDup ls → NoDup (build_candidate_shifts ds dl ls))
  ∧ ((∀ L, L ∈ ls → dl < L) → build_candidate_shifts ds dl ls = []).
Proof.
  split_and!.
  - intros s e. apply elem_of_build_candidate_shifts.
  - apply NoDup_build_candidate_shifts.
  - apply build_candidate_shifts_nil.
Qed.

Lemma build_candidate_shifts_exact_witness :
  (8, 12) ∈ build_candidate_shifts 8 6 [4; 5]
  ∧ NoDup (build_candidate_shifts 8 6 [4; 5])
  ∧ build_candidate_shifts 8 3 [4; 5] = [].
Proof.
  split_and!.
  - apply (build_candidate_shifts_exact 8 6 [4; 5]). exists 4.
    split_and!; [apply list_elem_of_here|lia|lia|lia].
  - apply (build_candidate_shifts_exact 8 6 [4; 5]).
    apply NoDup_cons. split; [|apply NoDup_singleton].
    apply not_elem_of_cons. split; [lia|apply not_elem_of_nil].
  - apply (build_candidate_shifts_exact 8 3 [4; 5]).
    intros L HL. apply list_elem_of_In in HL. simpl in HL.
    destruct HL as [<-|[<-|[]]]; lia.
Defined.

(** ** The feasibility filter *)

Lemma filter_none {A} (P : A → Prop) `{∀ a, Decision (P a)} (l : list A) :
  (∀ a, a ∈ l → ¬ P a) → filter P l = [].
Proof.
  induction l as [|a l IH]; intros Hnone; [done|].
  rewrite filter_cons_False by (apply Hnone; left).
  apply IH. intros b Hb. apply Hnone. by right.
Qed.

Lemma overlaps_unavailability_true s e (u : gset Z) :
  overlaps_unavailability (s, e) u = true ↔ ∃ h, s ≤ h < e ∧ h ∈ u.
Proof.
  unfold overlaps_unavailability. rewrite existsb_exists. split.
  - intros (h & Hh & Hu). apply list_elem_of_In, elem_of_range in Hh.
    apply bool_decide_eq_true in Hu. eauto.
  - intros (h & Hh & Hu). exists h. split.
    + by apply list_elem_of_In, elem_of_range.
    + by apply bool_decide_eq_true.
Qed.

Lemma not_overlaps_unavailability s e (u : gset Z) :
  ¬ overlaps_unavailability (s, e) u ↔ ∀ h, s ≤ h < e → h ∉ u.
Proof.
  rewrite Is_true_true, overlaps_unavailability_true. split.
  - intros Hno h Hh Hu. apply Hno. by exists h.
  - intros Hall (h & Hh & Hu). by apply (Hall h).
Qed.

Lemma feasible_shifts_of_lookup employees all_shifts i :
  feasible_shifts_of employees all_shifts !! i =
  (λ e, filter (λ s, ¬ overlaps_unavailability s (get_unavailable e)) all_shifts)
    <$> employees !! i.
Proof. unfold feasible_shifts_of. by rewrite list_lookup_fmap. Qed.

Lemma length_feasible_shifts_of employees all_shifts :
  length (feasible_shifts_of employees all_shifts) = length employees.
Proof. unfold feasible_shifts_of. by rewrite length_fmap. Qed.

Lemma elem_of_feasible employees all_shifts i e feasible s t :
  employees !! i = Some e →
  feasible_shifts_of employees all_shifts !! i = Some feasible →
  (s, t) ∈ feasible ↔
  (s, t) ∈ all_shifts ∧ ∀ h, s ≤ h < t → h ∉ get_unavailable e.
Proof.
  intros He. rewrite feasible_shifts_of_lookup, He. intros [= <-].
  rewrite list_elem_of_filter, not_overlaps_unavailability. tauto.
Qed.

(** ** Rules for [yields] *)

#[global] Instance extends_preorder : PreOrder extends.
Proof.
  split.
  - intros m. by split.
  - intros m1 m2 m3 [??] [??]. split; by etrans.
Qed.

Lemma declared_extends m m' v lb ub :
  extends m m' → declared m v lb ub → declared m' v lb ub.
Proof.
  intros [Hv _] (d & Hd & ? & ?). exists d. split_and!; [|done|done].
  by eapply prefix_lookup_Some.
Qed.

Lemma posted_extends m m' ct : extends m m' → posted m ct → posted m' ct.
Proof.
  intros [_ [k Hc]]. unfold posted. rewrite Hc, elem_of_app. by left.
Qed.

Lemma yields_ret {A} (a : A) m (Q : A → CpModel → Prop) :
  Q a m → yields (mret a) m Q.
Proof. intros HQ. by exists a, m. Qed.

Lemma yields_bind {A B} (c : Build A) (f : A → Build B) m
    (P : A → CpModel → Prop) (Q : B → CpModel → Prop) :
  yields c m P →
  (∀ a m', extends m m' → P a m' → yields (f a) m' Q) →
  yields (c ≫= f) m Q.
Proof.
  intros (a & m' & Hc & Hext & HP) Hf.
  destruct (Hf a m' Hext HP) as (b & m'' & Hfa & Hext' & HQ).
  exists b, m''. split_and!; [|by etrans|done].
  unfold mbind, Build_bind. by rewrite Hc.
Qed.

Lemma yields_mono {A} (c : Build A) m (P Q : A → CpModel → Prop) :
  yields c m P →
  (∀ a m', extends m m' → P a m' → Q a m') →
  yields c m Q.
Proof. intros (a & m' & Hc & Hext & HP) HPQ. exists a, m'. eauto. Qed.

Lemma yields_lift {A} (r : res A) (a : A) m (Q : A → CpModel → Prop) :
  r = Ok a → Q a m → yields (lift r) m Q.
Proof. intros -> HQ. by exists a, m. Qed.

Lemma yields_NewIntVar lb ub nm m (Q : IntVar → CpModel → Prop) :
  (∀ v m', extends m m' → declared m' v lb ub → Q v m') →
  yields (NewIntVar lb ub nm) m Q.
Proof.
  intros HQ. eexists _, _. split; [reflexivity|].
  assert (extends m
    {| variables := variables m ++ [{| var_lb := lb; var_ub := ub; var_name := nm |}];
       constraints := constraints m; objective := objective m |}) as Hext.
  { split; simpl; [by apply prefix_app_r|done]. }
  split; [done|]. apply HQ; [done|].
  exists {| var_lb := lb; var_ub := ub; var_name := nm |}. split; [|done]. simpl.
  by rewrite lookup_app_r, Nat.sub_diag.
Qed.

Lemma yields_Add ct m (Q : () → CpModel → Prop) :
  (∀ m', extends m m' → posted m' ct → Q () m') →
  yields (Add ct) m Q.
Proof.
  intros HQ. eexists _, _. split; [reflexivity|].
  assert (extends m
    {| variables := variables m; constraints := constraints m ++ [ct];
       objective := objective m |}) as Hext.
  { split; simpl; [done|by apply prefix_app_r]. }
  split; [done|]. apply HQ; [done|].
  unfold posted. simpl. rewrite elem_of_app, list_elem_of_singleton. by right.
Qed.

Lemma yields_Minimize obj m (Q : () → CpModel → Prop) :
  (∀ m', extends m m' → objective m' = Some obj → Q () m') →
  yields (Minimize obj) m Q.
Proof.
  intros HQ. eexists _, _. split; [reflexivity|].
  assert (extends m
    {| variables := variables m; constraints := constraints m;
       objective := Some obj |}) as Hext by done.
  split; [done|]. by apply HQ.
Qed.

Lemma yields_NewIntVar_declared lb ub nm m :
  yields (NewIntVar lb ub nm) m (λ v m', declared m' v lb ub).
Proof. by apply yields_NewIntVar. Qed.

Lemma yields_Add_posted ct m : yields (Add ct) m (λ _ m', posted m' ct).
Proof. by apply yields_Add. Qed.

Lemma yields_Minimize_objective obj m :
  yields (Minimize obj) m (λ _ m', objective m' = Some obj).
Proof. by apply yields_Minimize. Qed.

Lemma yields_lift_eq {A} (r : res A) (a : A) m :
  r = Ok a → yields (lift r) m (λ a' _, a' = a).
Proof. intros Hr. by eapply yields_lift. Qed.

(** A loop establishes an invariant [I] of the elements already processed,
    the local variables and the model. *)
Lemma yields_for_fold {A S} (body : S → A → Build S) (I : list A → S → CpModel → Prop)
    (l : list A) (s : S) m :
  I [] s m →
  (∀ done a rest s m',
     l = done ++ a :: rest → extends m m' → I done s m' →
     yields (body s a) m' (λ s' m'', I (done ++ [a]) s' m'')) →
  yields (for_fold body s l) m (λ s' m', I l s' m').
Proof.
  intros Hinit Hbody.
  cut (∀ rest done s m', l = done ++ rest → extends m m' → I done s m' →
         yields (for_fold body s rest) m' (λ s' m'', I l s' m'')).
  { intros Hgen. by apply (Hgen l [] s m). }
  induction rest as [|a rest IH]; intros done s0 m' Hl Hext HI.
  - rewrite app_nil_r in Hl. subst done. by apply yields_ret.
  - simpl. eapply yields_bind; [by eapply Hbody|].
    intros s' m'' Hext' HI'. simpl in HI'.
    apply (IH (done ++ [a])); [by rewrite <- app_assoc|by etrans|done].
Qed.

Lemma yields_for_each {A} (body : A → Build ()) (I : list A → CpModel → Prop)
    (l : list A) m :
  I [] m →
  (∀ done a rest m',
     l = done ++ a :: rest → extends m m' → I done m' →
     yields (body a) m' (λ _ m'', I (done ++ [a]) m'')) →
  yields (for_each l body) m (λ _ m', I l m').
Proof.
  intros Hinit Hbody. unfold for_each.
  apply (yields_for_fold _ (λ done _ m', I done m')); [done|].
  intros done a rest [] m' Hl Hext HI. by eapply Hbody.
Qed.

(** ** Comprehensions *)

Lemma res_bind_Ok {A B} (a : A) (f : A → res B) : Ok a ≫= f = f a.
Proof. done. Qed.

Lemma collect_Ok {A B} (f : A → res B) (l : list A) (bs : list B) :
  collect f l = Ok bs ↔ Forall2 (λ a b, f a = Ok b) l bs.
Proof.
  revert bs. induction l as [|a l IH]; intros bs; simpl.
  { split; [intros [= <-]; constructor|]. intros Hnil.
    apply Forall2_nil_inv_l in Hnil. by subst. }
  unfold mbind, res_bind. split.
  - destruct (f a) as [b|e] eqn:Hfa; [|done].
    destruct (collect f l) as [bs'|e] eqn:Hl; [|done].
    intros [= <-]. constructor; [done|]. by apply IH.
  - intros Hall. apply Forall2_cons_inv_l in Hall as (b & bs' & Hb & Hbs & ->).
    apply IH in Hbs. by rewrite Hb, Hbs.
Qed.

Lemma collect_total {A B} (f : A → res B) (l : list A) :
  (∀ a, a ∈ l → ∃ b, f a = Ok b) → ∃ bs, collect f l = Ok bs.
Proof.
  induction l as [|a l IH]; intros Hf; [by eexists|].
  destruct (Hf a) as [b Hb]; [left|].
  destruct IH as [bs Hbs]; [intros; apply Hf; by right|].
  exists (b :: bs). simpl. unfold mbind, res_bind. by rewrite Hb, Hbs.
Qed.

Lemma collect_fmap {A B} (f : A → res B) (g : A → B) (l : list A) :
  (∀ a, a ∈ l → f a = Ok (g a)) → collect f l = Ok (g <$> l).
Proof.
  induction l as [|a l IH]; intros Hf; [done|].
  simpl. unfold mbind, res_bind. rewrite Hf by left.
  rewrite IH; [done|]. intros; apply Hf; by right.
Qed.

(** ** Sums of terms *)

Lemma eval_foldl_LAdd Value acc terms :
  eval Value (foldl LAdd acc terms) = eval Value acc + sumZ (eval Value <$> terms).
Proof.
  revert acc. unfold sumZ.
  induction terms as [|t terms IH]; intros acc; [simpl; lia|].
  rewrite fmap_cons. cbn [foldl foldr]. rewrite IH. cbn [eval]. lia.
Qed.

Lemma eval_py_sum Value terms :
  eval Value (py_sum terms) = sumZ (eval Value <$> terms).
Proof. unfold py_sum. by rewrite eval_foldl_LAdd. Qed.

(** ** The blocks of [schedule_workers_softmin_hardmax] *)

Ltac chain_extends := repeat (etrans; [eassumption|]); done.

Lemma bool_vars_extends x m m' : extends m m' → bool_vars x m → bool_vars x m'.
Proof. intros Hext Hx k v Hk. eapply declared_extends; [done|]. by eapply Hx. Qed.

Lemma bool_vars_insert x m k v :
  bool_vars x m → declared m v 0 1 → bool_vars (<[k := v]> x) m.
Proof.
  intros Hx Hv k' v'. rewrite lookup_insert. case_decide.
  - by intros [= <-].
  - apply Hx.
Qed.

(** Lines 87-91. *)
Lemma decision_vars_spec fs m :
  yields (decision_vars fs) m (λ x m', bool_vars x m' ∧ keyed x fs).
Proof.
  unfold decision_vars.
  eapply yields_mono.
  - apply (yields_for_fold _ (λ done x m',
      bool_vars x m' ∧
      ∀ e_idx shifts s_idx, (e_idx, shifts) ∈ done → (s_idx < length shifts)%nat →
                            is_Some (x !! (e_idx, s_idx)))).
    { split; [by intros k v; rewrite lookup_empty|].
      intros ??? Hin. by apply elem_of_nil in Hin. }
    intros done [e_idx shifts] rest x m1 _ _ [Hbool Hkeys].
    eapply yields_mono.
    + apply (yields_for_fold _ (λ done' x' m'',
        bool_vars x' m'' ∧
        (∀ k, is_Some (x !! k) → is_Some (x' !! k)) ∧
        ∀ s_idx s, (s_idx, s) ∈ done' → is_Some (x' !! (e_idx, s_idx)))).
      { split_and!; [done|done|]. intros ?? Hin. by apply elem_of_nil in Hin. }
      intros done' [s_idx s] rest' x' m2 _ Hext2 (Hbool' & Hold & Hnew).
      eapply yields_bind; [apply yields_NewIntVar_declared|].
      intros v m3 Hext3 Hv. apply yields_ret. split_and!.
      * apply bool_vars_insert; [|done]. by eapply bool_vars_extends.
      * intros k Hk. rewrite lookup_insert. case_decide; [done|]. by apply Hold.
      * intros s_idx' s' [Hin|Hin]%elem_of_app.
        -- rewrite lookup_insert. case_decide; [done|]. by eapply Hnew.
        -- apply list_elem_of_singleton in Hin as [= -> ->].
           by rewrite lookup_insert_eq.
    + simpl. intros x' m2 Hext2 (Hbool' & Hold & Hnew). split; [done|].
      intros e_idx' shifts' s_idx [Hin|Hin]%elem_of_app Hlt.
      * apply Hold. by eapply Hkeys.
      * apply list_elem_of_singleton in Hin as [= -> ->].
        destruct (lookup_lt_is_Some_2 shifts s_idx Hlt) as [s Hs].
        apply (Hnew s_idx s). by apply elem_of_enumerate.
  - simpl. intros x m' _ [Hbool Hkeys]. split; [done|].
    intros e_idx shifts s_idx Hfs. apply Hkeys. by apply elem_of_enumerate.
Qed.

Lemma dict_get_Ok `{Countable K} {V} (d : gmap K V) k v :
  dict_get d k = Ok v ↔ d !! k = Some v.
Proof. unfold dict_get. destruct (d !! k); split; congruence. Qed.

Lemma list_get_Ok {A} (l : list A) i a : list_get l i = Ok a ↔ l !! i = Some a.
Proof. unfold list_get. destruct (l !! i); split; congruence. Qed.

Lemma x_terms_total x fs e_idx shifts :
  keyed x fs → fs !! e_idx = Some shifts →
  ∃ terms, x_terms x e_idx (length shifts) = Ok terms.
Proof.
  intros Hkeys Hfs. apply collect_total. intros s_idx Hin.
  apply elem_of_seq in Hin.
  destruct (Hkeys e_idx shifts s_idx Hfs) as [v Hv]; [lia|].
  exists (LVar v). apply dict_get_Ok in Hv. by rewrite Hv.
Qed.

Lemma wh_terms_total x fs e_idx shifts :
  keyed x fs → fs !! e_idx = Some shifts →
  ∃ terms, wh_terms x e_idx shifts = Ok terms.
Proof.
  intros Hkeys Hfs. apply collect_total. intros s_idx Hin.
  apply elem_of_seq in Hin.
  destruct (Hkeys e_idx shifts s_idx Hfs) as [v Hv]; [lia|].
  destruct (lookup_lt_is_Some_2 shifts s_idx) as [s Hs]; [lia|].
  exists (LMul (LVar v) (s.2 - s.1)).
  apply dict_get_Ok in Hv. apply list_get_Ok in Hs. by rewrite Hv, Hs.
Qed.

(** Lines 95-96. *)
Lemma one_shift_constraints_spec x fs m :
  keyed x fs →
  yields (one_shift_constraints x fs) m (λ _ m',
    ∀ e_idx shifts, fs !! e_idx = Some shifts →
      ∃ terms, x_terms x e_idx (length shifts) = Ok terms
               ∧ posted m' (CLe (py_sum terms) (LConst 1))).
Proof.
  intros Hkeys. unfold one_shift_constraints.
  eapply yields_mono.
  - apply (yields_for_each _ (λ done m',
      ∀ e_idx shifts, (e_idx, shifts) ∈ done →
        ∃ terms, x_terms x e_idx (length shifts) = Ok terms
                 ∧ posted m' (CLe (py_sum terms) (LConst 1)))).
    { intros ?? Hin. by apply elem_of_nil in Hin. }
    intros done [e_idx shifts] rest m1 Hl _ Hdone.
    assert (fs !! e_idx = Some shifts) as Hfs by (by eapply enumerate_mid).
    destruct (x_terms_total x fs e_idx shifts Hkeys Hfs) as [terms Hterms].
    eapply yields_bind; [by apply yields_lift_eq|].
    intros ? m2 Hext2 ->. apply yields_Add. intros m3 Hext3 Hposted.
    intros e_idx' shifts' [Hin|Hin]%elem_of_app.
    + destruct (Hdone _ _ Hin) as (terms' & ? & ?). exists terms'. split; [done|].
      eapply posted_extends; [|done]. by etrans.
    + apply list_elem_of_singleton in Hin as [= -> ->]. by exists terms.
  - simpl. intros _ m' _ Hall e_idx shifts Hfs. apply Hall.
    by apply elem_of_enumerate.
Qed.

Lemma sumZ_app l k : sumZ (l ++ k) = sumZ l + sumZ k.
Proof. unfold sumZ. induction l as [|a l IH]; simpl; lia. Qed.

Lemma sumZ_fmap_snoc {A} (f : A → Z) l a :
  sumZ (f <$> (l ++ [a])) = sumZ (f <$> l) + f a.
Proof. rewrite fmap_app, sumZ_app. unfold sumZ. simpl. lia. Qed.

(** Lines 103-107: the terms collected for the hour [h] are the decision
    variables of the shifts that cover it. *)
Lemma cover_terms_at_spec x fs h m :
  keyed x fs →
  yields (cover_terms_at x fs h) m (λ terms _,
    ∀ Value, sumZ (eval Value <$> terms) = cover_count Value x fs h).
Proof.
  intros Hkeys. unfold cover_terms_at, cover_count.
  apply (yields_for_fold _ (λ done terms _,
    ∀ Value, sumZ (eval Value <$> terms)
             = sumZ ((λ q : nat * list Shift, covering Value x h q.1 (enumerate q.2))
                       <$> done))); [done|].
  intros done [e_idx shifts] rest terms m1 Hl _ Hdone.
  assert (fs !! e_idx = Some shifts) as Hfs by (by eapply enumerate_mid).
  eapply yields_mono.
  - apply (yields_for_fold _ (λ done' terms' _,
      ∀ Value, sumZ (eval Value <$> terms')
               = sumZ (eval Value <$> terms) + covering Value x h e_idx done')).
    { intros Value. unfold covering, sumZ. simpl. lia. }
    intros done' [s_idx [start end_]] rest' terms' m2 Hl' _ Hdone'.
    assert (shifts !! s_idx = Some (start, end_)) as Hs by (by eapply enumerate_mid).
    destruct (Hkeys e_idx shifts s_idx Hfs) as [v Hv]; [by eapply lookup_lt_Some|].
    case_bool_decide as Hcov.
    + eapply yields_bind; [by apply yields_lift_eq, dict_get_Ok|].
      intros ? m3 _ ->. apply yields_ret. intros Value.
      rewrite sumZ_fmap_snoc, Hdone'. unfold covering.
      rewrite sumZ_fmap_snoc. simpl.
      rewrite bool_decide_eq_true_2 by done. rewrite Hv. simpl. lia.
    + apply yields_ret. intros Value. rewrite Hdone'. unfold covering.
      rewrite sumZ_fmap_snoc. simpl.
      rewrite bool_decide_eq_false_2 by done. lia.
  - simpl. intros terms' m2 _ Hdone' Value.
    rewrite Hdone', Hdone, sumZ_fmap_snoc. done.
Qed.

Lemma hour_posted_extends x fs cv us m m' n mn mx h :
  extends m m' → hour_posted x fs cv us m n mn mx h → hour_posted x fs cv us m' n mn mx h.
Proof.
  intros Hext (cov & u & ? & ? & ? & ? & ? & ? & expr & ? & ?). exists cov, u.
  split_and!; eauto using declared_extends, posted_extends.
Qed.

(** Lines 99-118. *)
Lemma coverage_constraints_spec x fs n mn mx hours m :
  keyed x fs →
  yields (coverage_constraints x fs n mn mx hours) m (λ '(cv, us) m',
    ∀ h, h ∈ hours → hour_posted x fs cv us m' n mn mx h).
Proof.
  intros Hkeys. unfold coverage_constraints.
  apply (yields_for_fold _ (λ done '(cv, us) m',
    ∀ h, h ∈ done → hour_posted x fs cv us m' n mn mx h)).
  { intros ? Hin. by apply elem_of_nil in Hin. }
  intros done h rest [cv us] m1 _ _ Hdone.
  eapply yields_bind; [by apply cover_terms_at_spec|].
  intros cover_terms m2 Hext2 Hterms. simpl in Hterms.
  eapply yields_bind; [apply yields_NewIntVar_declared|].
  intros cov m3 Hext3 Hcov. simpl in Hcov.
  eapply yields_bind; [apply yields_Add_posted|].
  intros [] m4 Hext4 Heq. simpl in Heq.
  eapply yields_bind; [apply yields_Add_posted|].
  intros [] m5 Hext5 Hle. simpl in Hle.
  eapply yields_bind; [apply yields_NewIntVar_declared|].
  intros u m6 Hext6 Hu. simpl in Hu.
  eapply yields_bind; [apply yields_lift_eq, dict_get_Ok, lookup_insert_eq|].
  intros ? m7 Hext7 ->.
  eapply yields_bind; [apply yields_Add_posted|].
  intros [] m8 Hext8 Hge. simpl in Hge.
  apply yields_ret. intros h' Hin.
  destruct (decide (h' = h)) as [->|Hne].
  - exists cov, u. rewrite !lookup_insert_eq. split_and!; [done|done|..].
    + eapply declared_extends; [|done]. chain_extends.
    + eapply declared_extends; [|done]. chain_extends.
    + eapply posted_extends; [|done]. chain_extends.
    + done.
    + eexists. split; [eapply posted_extends; [|exact Heq]; chain_extends|].
      intros Value. rewrite <- Hterms. destruct cover_terms; [done|].
      apply eval_py_sum.
  - apply elem_of_app in Hin as [Hin|Hin];
      [|by apply list_elem_of_singleton in Hin].
    assert (extends m1 m8) as Hext by chain_extends.
    eapply hour_posted_extends in Hdone; [|exact Hext|exact Hin].
    destruct Hdone as (cov' & u' & ? & ? & Hrest). exists cov', u'.
    by rewrite !lookup_insert_ne by done.
Qed.

Lemma work_hours_posted_extends x whs m m' i e_idx shifts :
  extends m m' → work_hours_posted x whs m i e_idx shifts →
  work_hours_posted x whs m' i e_idx shifts.
Proof.
  intros Hext (wh & terms & ? & ? & ? & ?). exists wh, terms.
  split_and!; eauto using declared_extends, posted_extends.
Qed.

(** Lines 121-130. *)
Lemma work_hour_vars_spec x fs m :
  keyed x fs →
  yields (work_hour_vars x fs) m (λ whs m',
    length whs = length fs
    ∧ ∀ e_idx shifts, fs !! e_idx = Some shifts →
        work_hours_posted x whs m' e_idx e_idx shifts).
Proof.
  intros Hkeys. unfold work_hour_vars.
  eapply yields_mono.
  - apply (yields_for_fold _ (λ done whs m',
      length whs = length done
      ∧ ∀ i e_idx shifts, done !! i = Some (e_idx, shifts) →
          work_hours_posted x whs m' i e_idx shifts)).
    { split; [done|]. intros ???. by rewrite lookup_nil. }
    intros done [e_idx shifts] rest whs m1 Hl _ [Hlen Hdone].
    assert (fs !! e_idx = Some shifts) as Hfs by (by eapply enumerate_mid).
    destruct (wh_terms_total x fs e_idx shifts Hkeys Hfs) as [terms Hterms].
    eapply yields_bind; [apply yields_NewIntVar_declared|].
    intros wh m2 Hext2 Hwh. simpl in Hwh.
    eapply yields_bind; [by apply yields_lift_eq|].
    intros ? m3 Hext3 ->.
    eapply yields_bind; [apply yields_Add_posted|].
    intros [] m4 Hext4 Heq. simpl in Heq.
    apply yields_ret. split; [rewrite !length_app; simpl; lia|].
    assert (extends m1 m4) as Hext by (repeat (etrans; [eassumption|]); done).
    intros i e_idx' shifts' Hi.
    apply lookup_app_Some in Hi as [Hi|[Hge Hi]].
    + eapply work_hours_posted_extends in Hdone; [|exact Hext|exact Hi].
      destruct Hdone as (wh' & terms' & Hwh' & ?). exists wh', terms'.
      split; [|done]. by apply lookup_app_l_Some.
    + apply list_lookup_singleton_Some in Hi as [Hi [= -> ->]].
      exists wh, terms. split_and!; [|by eauto using declared_extends|done|done].
      rewrite lookup_app_r by lia.
      by replace (i - length whs)%nat with 0%nat by lia.
  - simpl. intros whs m' _ [Hlen Hall]. split; [by rewrite Hlen, length_enumerate|].
    intros e_idx shifts Hfs. apply (Hall e_idx e_idx shifts).
    by apply lookup_enumerate.
Qed.

Lemma var_terms_total (d : gmap Z IntVar) hours :
  (∀ h, h ∈ hours → is_Some (d !! h)) → ∃ terms, var_terms d hours = Ok terms.
Proof.
  intros Hd. apply collect_total. intros h Hh. destruct (Hd h Hh) as [v Hv].
  exists (LVar v). apply dict_get_Ok in Hv. by rewrite Hv.
Qed.

(** Lines 85-149: the construction never raises, and when it returns
    everything listed in [Built] is in the model. *)
Lemma build_model_spec employees fs hours mn mx one_shift m :
  yields (build_model employees fs hours mn mx one_shift) m
         (Built fs (length employees) hours mn mx one_shift).
Proof.
  unfold build_model.
  eapply yields_bind; [apply decision_vars_spec|].
  intros x m1 Hext1 [Hbool Hkeys].
  eapply yields_bind.
  { instantiate (1 := λ _ m',
      one_shift = true →
      ∀ e_idx shifts, fs !! e_idx = Some shifts →
        ∃ terms, x_terms x e_idx (length shifts) = Ok terms
                 ∧ posted m' (CLe (py_sum terms) (LConst 1))).
    destruct one_shift.
    - eapply yields_mono; [by apply one_shift_constraints_spec|].
      intros u m' Hext Hall Hflag. exact Hall.
    - by apply yields_ret. }
  intros [] m2 Hext2 Hone. simpl in Hone.
  eapply yields_bind; [by apply coverage_constraints_spec|].
  intros [cv us] m3 Hext3 Hhours.
  eapply yields_bind; [by apply work_hour_vars_spec|].
  intros whs m4 Hext4 [Hlen Hwh].
  eapply yields_bind; [apply yields_NewIntVar_declared|].
  intros max_work m5 Hext5 _.
  eapply yields_bind; [apply yields_NewIntVar_declared|].
  intros min_work m6 Hext6 _.
  eapply yields_bind; [apply yields_Add_posted|].
  intros [] m7 Hext7 Hmax.
  eapply yields_bind; [apply yields_Add_posted|].
  intros [] m8 Hext8 Hmin.
  eapply yields_bind; [apply yields_NewIntVar_declared|].
  intros spread m9 Hext9 _.
  eapply yields_bind; [apply yields_Add_posted|].
  intros [] m10 Hext10 Hspread.
  eapply yields_bind; [apply yields_NewIntVar_declared|].
  intros total_coverage m11 Hext11 _.
  destruct (var_terms_total cv hours) as [cov_terms Hcov_terms].
  { intros h Hh. destruct (Hhours h Hh) as (cov & u & Hc & _). by exists cov. }
  eapply yields_bind; [by apply yields_lift_eq|].
  intros ? m12 Hext12 ->.
  eapply yields_bind; [apply yields_Add_posted|].
  intros [] m13 Hext13 Htc.
  eapply yields_bind; [apply yields_NewIntVar_declared|].
  intros total_understaff m14 Hext14 _.
  destruct (var_terms_total us hours) as [us_terms Hus_terms].
  { intros h Hh. destruct (Hhours h Hh) as (cov & u & _ & Hu & _). by exists u. }
  eapply yields_bind; [by apply yields_lift_eq|].
  intros ? m15 Hext15 ->.
  eapply yields_bind; [apply yields_Add_posted|].
  intros [] m16 Hext16 Htu.
  eapply yields_bind; [apply yields_Minimize_objective|].
  intros [] m17 Hext17 Hobj. simpl in Hobj.
  apply yields_ret. split; simpl.
  - eapply bool_vars_extends; [|done]. chain_extends.
  - done.
  - intros Hflag e_idx shifts Hfs.
    destruct (Hone Hflag e_idx shifts Hfs) as (terms & ? & ?). exists terms.
    split; [done|]. eapply posted_extends; [|done]. chain_extends.
  - intros h Hh. eapply hour_posted_extends; [|by apply Hhours]. chain_extends.
  - done.
  - intros e_idx shifts Hfs.
    eapply work_hours_posted_extends; [|by apply Hwh]. chain_extends.
  - eapply posted_extends; [|done]. chain_extends.
  - eapply posted_extends; [|done]. chain_extends.
  - eapply posted_extends; [|done]. chain_extends.
  - exists cov_terms. split; [done|]. eapply posted_extends; [|done]. chain_extends.
  - exists us_terms. split; [done|]. eapply posted_extends; [|done]. chain_extends.
  - done.
Qed.

(** ** Solutions *)

Lemma foldl_max_spec a l :
  (foldl Z.max a l = a ∨ foldl Z.max a l ∈ l)
  ∧ a ≤ foldl Z.max a l ∧ ∀ b, b ∈ l → b ≤ foldl Z.max a l.
Proof.
  revert a. induction l as [|b l IH]; intros a; simpl.
  - split_and!; [by left|lia|]. intros b Hb. by apply elem_of_nil in Hb.
  - destruct (IH (Z.max a b)) as (Hin & Hle & Hall). split_and!.
    + destruct Hin as [Heq|Hin]; [|right; by right].
      rewrite Heq. destruct (Z.max_spec a b) as [[_ ->]|[_ ->]]; [right; left|by left].
    + lia.
    + intros c [->|Hc]%elem_of_cons; [lia|by apply Hall].
Qed.

Lemma foldl_min_spec a l :
  (foldl Z.min a l = a ∨ foldl Z.min a l ∈ l)
  ∧ foldl Z.min a l ≤ a ∧ ∀ b, b ∈ l → foldl Z.min a l ≤ b.
Proof.
  revert a. induction l as [|b l IH]; intros a; simpl.
  - split_and!; [by left|lia|]. intros b Hb. by apply elem_of_nil in Hb.
  - destruct (IH (Z.min a b)) as (Hin & Hle & Hall). split_and!.
    + destruct Hin as [Heq|Hin]; [|right; by right].
      rewrite Heq. destruct (Z.min_spec a b) as [[_ ->]|[_ ->]]; [by left|right; left].
    + lia.
    + intros c [->|Hc]%elem_of_cons; [lia|by apply Hall].
Qed.

(** [list_max] and [list_min] are the greatest and the least element. *)
Lemma list_max_spec l hi :
  list_max l = Some hi ↔ hi ∈ l ∧ ∀ b, b ∈ l → b ≤ hi.
Proof.
  destruct l as [|a l]; simpl.
  { split; [done|]. intros [Hin _]. by apply elem_of_nil in Hin. }
  destruct (foldl_max_spec a l) as (Hin & Hle & Hall). split.
  - intros [= <-]. split.
    + destruct Hin as [->|Hin]; [left|by right].
    + intros b [->|Hb]%elem_of_cons; [done|by apply Hall].
  - intros [Hhi Hub]. f_equal. apply Z.le_antisymm.
    + apply Hub. destruct Hin as [->|Hin]; [left|by right].
    + apply elem_of_cons in Hhi as [->|Hhi]; [done|by apply Hall].
Qed.

Lemma list_min_spec l lo :
  list_min l = Some lo ↔ lo ∈ l ∧ ∀ b, b ∈ l → lo ≤ b.
Proof.
  destruct l as [|a l]; simpl.
  { split; [done|]. intros [Hin _]. by apply elem_of_nil in Hin. }
  destruct (foldl_min_spec a l) as (Hin & Hle & Hall). split.
  - intros [= <-]. split.
    + destruct Hin as [->|Hin]; [left|by right].
    + intros b [->|Hb]%elem_of_cons; [done|by apply Hall].
  - intros [Hlo Hlb]. f_equal. apply Z.le_antisymm.
    + apply elem_of_cons in Hlo as [->|Hlo]; [done|by apply Hall].
    + apply Hlb. destruct Hin as [->|Hin]; [left|by right].
Qed.

Lemma satisfies_posted Value m ct : satisfies Value m → posted m ct → holds Value ct.
Proof. intros [_ Hall] Hct. rewrite Forall_forall in Hall. by apply Hall. Qed.

Lemma satisfies_declared Value m v lb ub :
  satisfies Value m → declared m v lb ub → lb ≤ Value v ≤ ub.
Proof. intros [Hdom _] (d & Hd & <- & <-). by apply (Hdom v d). Qed.

Lemma check_solution_correct Value m :
  check_solution Value m = true → satisfies Value m.
Proof.
  unfold check_solution. rewrite andb_true_iff, !forallb_forall. intros [Hdom Hcts].
  split.
  - intros v d Hv. specialize (Hdom (v, d)). simpl in Hdom.
    eapply bool_decide_eq_true_1, Hdom, list_elem_of_In. by apply elem_of_enumerate.
  - apply Forall_forall. intros ct Hct.
    eapply bool_decide_eq_true_1, Hcts. by apply list_elem_of_In.
Qed.

Lemma checking_solver_sound proposal : sound (checking_solver proposal).
Proof.
  intros t m status Value. unfold checking_solver.
  destruct (check_solution _ m) eqn:Hcheck.
  - intros [= <- <-] _. by apply check_solution_correct.
  - intros [= <- <-] [?|?]; discriminate.
Qed.

(** ** Reading the solution back *)

Lemma first_chosen_Some Value x e_idx l s :
  first_chosen Value x e_idx l = Ok (Some s) →
  ∃ done s_idx rest v,
    l = done ++ (s_idx, s) :: rest ∧ x !! (e_idx, s_idx) = Some v ∧ Value v = 1
    ∧ filter (is_selected Value x e_idx) done = [].
Proof.
  induction l as [|[s_idx s'] l IH]; simpl; [done|].
  unfold mbind, res_bind. destruct (dict_get x (e_idx, s_idx)) as [v|] eqn:Hv; [|done].
  apply dict_get_Ok in Hv. case_bool_decide as HV.
  - intros [= ->]. by exists [], s_idx, l, v.
  - intros (done & s_idx' & rest & v' & -> & ? & ? & Hnone)%IH.
    exists ((s_idx, s') :: done), s_idx', rest, v'. split_and!; [done..|].
    rewrite filter_cons_False; [done|]. unfold is_selected. simpl. by rewrite Hv.
Qed.

Lemma first_chosen_None Value x e_idx l :
  first_chosen Value x e_idx l = Ok None →
  filter (is_selected Value x e_idx) l = [].
Proof.
  induction l as [|[s_idx s'] l IH]; simpl; [done|].
  unfold mbind, res_bind. destruct (dict_get x (e_idx, s_idx)) as [v|] eqn:Hv; [|done].
  apply dict_get_Ok in Hv. case_bool_decide as HV; [done|].
  intros Hrest%IH. rewrite filter_cons_False; [done|].
  unfold is_selected. simpl. by rewrite Hv.
Qed.

Lemma first_chosen_total Value x fs e_idx shifts :
  keyed x fs → fs !! e_idx = Some shifts →
  ∃ chosen, first_chosen Value x e_idx (enumerate shifts) = Ok chosen.
Proof.
  intros Hkeys Hfs.
  assert (∀ s_idx s, (s_idx, s) ∈ enumerate shifts → is_Some (x !! (e_idx, s_idx))) as Hl.
  { intros s_idx s Hin%elem_of_enumerate. eapply Hkeys; [done|]. by eapply lookup_lt_Some. }
  induction (enumerate shifts) as [|[s_idx s] l IH]; simpl; [by eexists|].
  destruct (Hl s_idx s) as [v Hv]; [left|]. apply dict_get_Ok in Hv.
  unfold mbind, res_bind. rewrite Hv. case_bool_decide; [by eexists|].
  apply IH. intros ???. eapply Hl. by right.
Qed.

Lemma dict_of_items_lookup {V} (P : Z → V → Prop) (keys : list Z) (items : list (Z * V)) :
  Forall2 (λ k item, item.1 = k ∧ P k item.2) keys items →
  ∀ k, k ∈ keys → ∃ v, dict_of_items items !! k = Some v ∧ P k v.
Proof.
  intros Hall k Hk. unfold dict_of_items.
  cut (∀ d0 : gmap Z V,
         k ∈ keys ∨ (∃ v, d0 !! k = Some v ∧ P k v) →
         ∃ v, foldl (λ d '(k, v), <[k := v]> d) d0 items !! k = Some v ∧ P k v).
  { intros Hgen. apply Hgen. by left. }
  clear Hk. induction Hall as [|k0 [k0' v0] keys items [Hk0 HP] Hall IH];
    intros d0 Hcase; simpl in *.
  - destruct Hcase as [Hin|?]; [by apply elem_of_nil in Hin|done].
  - subst k0'. apply IH. destruct (decide (k = k0)) as [->|Hne].
    + right. exists v0. by rewrite lookup_insert_eq.
    + destruct Hcase as [Hin|(v & Hv & HPv)].
      * left. apply elem_of_cons in Hin as [?|?]; [done|done].
      * right. exists v. by rewrite lookup_insert_ne.
Qed.

Lemma collect_values_lookup (Value : IntVar → Z) (d : gmap Z IntVar) hours items :
  collect (λ h, v ← dict_get d h; Ok (h, Value v)) hours = Ok items →
  ∀ h, h ∈ hours → ∃ v, d !! h = Some v ∧ dict_of_items items !! h = Some (Value v).
Proof.
  intros Hitems%collect_Ok h Hh.
  destruct (dict_of_items_lookup (λ k val, ∃ v, d !! k = Some v ∧ val = Value v)
              hours items) with (k := h) as (val & Hval & v & Hv & ->); [|done|by eauto].
  eapply Forall2_impl; [exact Hitems|]. intros k [k' val]. simpl.
  unfold mbind, res_bind. destruct (dict_get d k) as [v|] eqn:Hv; [|done].
  apply dict_get_Ok in Hv. intros [= <- <-]. eauto.
Qed.

(** ** The result of [schedule_workers_softmin_hardmax] *)

(** One step through a sequence of statements that can raise. *)
Ltac step_bind a H :=
  match goal with
  | |- match ?c with Ok _ => _ | Raise _ => _ end = Ok _ → _ =>
      destruct c as [a|] eqn:H; [|discriminate]
  end.

Lemma extract_inv Value vars employees fs hours ds de mn mx r :
  extract Value vars employees fs hours ds de mn mx = Ok r →
  ∃ chosen cov_items us_items,
    collect (λ '(e_idx, shifts),
               first_chosen Value (Vars.x vars) e_idx (enumerate shifts))
            (enumerate fs) = Ok chosen
    ∧ collect (λ h, v ← dict_get (Vars.coverage_vars vars) h; Ok (h, Value v)) hours
      = Ok cov_items
    ∧ collect (λ h, v ← dict_get (Vars.understaff vars) h; Ok (h, Value v)) hours
      = Ok us_items
    ∧ collect (λ '(i, s),
                 e ← list_get employees i;
                 wh ← list_get (Vars.work_hours vars) i;
                 e' ← list_get employees i;
                 Ok {| employee := name e; shift := s; work_hours := Value wh;
                       unavailable_sorted := sorted (get_unavailable e') |})
              (enumerate chosen) = Ok (assignments r)
    ∧ r = {| day_start_hour := ds; day_end_hour := de;
             min_workers_per_hour := mn; max_workers_per_hour := mx;
             fairness_spread := Value (Vars.spread vars);
             total_understaff := Value (Vars.total_understaff vars);
             coverage_by_hour := dict_of_items cov_items;
             understaff_by_hour := dict_of_items us_items;
             assignments := assignments r |}.
Proof.
  unfold extract, mbind, res_bind.
  step_bind chosen Hchosen. step_bind cov_items Hcov.
  step_bind us_items Hus. step_bind rows Hrows.
  intros [= <-]. by exists chosen, cov_items, us_items.
Qed.

(** The entry of ["assignments"] at position [i] is about employee [i]. *)
Lemma assignment_inv Value vars employees fs hours ds de mn mx r i a :
  extract Value vars employees fs hours ds de mn mx = Ok r →
  assignments r !! i = Some a →
  ∃ e shifts wh,
    employees !! i = Some e ∧ fs !! i = Some shifts
    ∧ Vars.work_hours vars !! i = Some wh
    ∧ first_chosen Value (Vars.x vars) i (enumerate shifts) = Ok (shift a)
    ∧ employee a = name e ∧ work_hours a = Value wh
    ∧ unavailable_sorted a = sorted (get_unavailable e).
Proof.
  intros (chosen & _ & _ & Hchosen & _ & _ & Hrows & _)%extract_inv Ha.
  apply collect_Ok in Hchosen, Hrows.
  destruct (Forall2_lookup_r _ _ _ _ _ Hrows Ha) as ([i' c] & Hc & Hrow).
  apply lookup_enumerate in Hc as [Hi Hc]. simpl in Hi, Hc. subst i'.
  destruct (Forall2_lookup_r _ _ _ _ _ Hchosen Hc) as ([i' shifts] & Hs & Hfirst).
  apply lookup_enumerate in Hs as [Hi Hs]. simpl in Hi, Hs. subst i'.
  unfold mbind, res_bind in Hrow.
  destruct (list_get employees i) as [e|] eqn:He; [|done].
  destruct (list_get (Vars.work_hours vars) i) as [wh|] eqn:Hwh; [|done].
  injection Hrow as <-. apply list_get_Ok in He, Hwh.
  by exists e, shifts, wh.
Qed.

Lemma length_assignments Value vars employees fs hours ds de mn mx r :
  extract Value vars employees fs hours ds de mn mx = Ok r →
  length (assignments r) = length fs.
Proof.
  intros (chosen & _ & _ & Hchosen & _ & _ & Hrows & _)%extract_inv.
  apply collect_Ok, Forall2_length in Hchosen.
  apply collect_Ok, Forall2_length in Hrows.
  rewrite length_enumerate in Hchosen. rewrite length_enumerate in Hrows.
  congruence.
Qed.

Lemma coverage_by_hour_inv Value vars employees fs hours ds de mn mx r h :
  extract Value vars employees fs hours ds de mn mx = Ok r →
  h ∈ hours →
  ∃ cov u,
    Vars.coverage_vars vars !! h = Some cov ∧ Vars.understaff vars !! h = Some u
    ∧ coverage_by_hour r !! h = Some (Value cov)
    ∧ understaff_by_hour r !! h = Some (Value u).
Proof.
  intros (chosen & cov_items & us_items & _ & Hcov & Hus & _ & ->)%extract_inv Hh.
  destruct (collect_values_lookup _ _ _ _ Hcov h Hh) as (cov & ? & ?).
  destruct (collect_values_lookup _ _ _ _ Hus h Hh) as (u & ? & ?).
  by exists cov, u.
Qed.

(** ** Sums of decision variables *)

Lemma Forall2_enumerate_seq {A B} (P : nat → A → B → Prop) (l : list A) (k : list B) :
  Forall2 (λ i b, ∀ a, l !! i = Some a → P i a b) (seq 0 (length l)) k →
  Forall2 (λ p b, P p.1 p.2 b) (enumerate l) k.
Proof.
  intros Hall. apply Forall2_same_length_lookup. split.
  - rewrite length_enumerate. apply Forall2_length in Hall.
    by rewrite length_seq in Hall.
  - intros i [j a] b Hp Hb. apply lookup_enumerate in Hp as [Hj Ha].
    simpl in *. subst j.
    eapply (Forall2_lookup_lr _ _ _ i i b) in Hall; [by apply Hall| |done].
    apply lookup_seq. split; [done|]. by eapply lookup_lt_Some.
Qed.

Lemma x_terms_enumerate x e_idx shifts terms :
  x_terms x e_idx (length shifts) = Ok terms →
  Forall2 (λ (p : nat * Shift) t, ∃ v, x !! (e_idx, p.1) = Some v ∧ t = LVar v)
          (enumerate shifts) terms.
Proof.
  intros Hterms%collect_Ok.
  apply (Forall2_enumerate_seq (λ i _ t, ∃ v, x !! (e_idx, i) = Some v ∧ t = LVar v)).
  eapply Forall2_impl; [exact Hterms|]. intros i t Hi _ _.
  unfold mbind, res_bind in Hi.
  destruct (dict_get x (e_idx, i)) as [v|] eqn:Hv; [|done].
  apply dict_get_Ok in Hv. injection Hi as <-. by exists v.
Qed.

Lemma wh_terms_enumerate x e_idx shifts terms :
  wh_terms x e_idx shifts = Ok terms →
  Forall2 (λ (p : nat * Shift) t, ∃ v, x !! (e_idx, p.1) = Some v
                                       ∧ t = LMul (LVar v) (shift_length p.2))
          (enumerate shifts) terms.
Proof.
  intros Hterms%collect_Ok.
  apply (Forall2_enumerate_seq
           (λ i s t, ∃ v, x !! (e_idx, i) = Some v ∧ t = LMul (LVar v) (shift_length s))).
  eapply Forall2_impl; [exact Hterms|]. intros i t Hi s Hs.
  unfold mbind, res_bind in Hi.
  destruct (dict_get x (e_idx, i)) as [v|] eqn:Hv; [|done].
  apply dict_get_Ok in Hv. apply list_get_Ok in Hs. rewrite Hs in Hi.
  injection Hi as <-. by exists v.
Qed.

(** Among non-negative variables whose sum is [n], at most [n] have value 1. *)
Lemma count_selected_le Value x e_idx (l : list (nat * Shift)) terms :
  Forall2 (λ (p : nat * Shift) t,
             ∃ v, x !! (e_idx, p.1) = Some v ∧ t = LVar v ∧ 0 ≤ Value v) l terms →
  Z.of_nat (length (filter (is_selected Value x e_idx) l)) ≤ sumZ (eval Value <$> terms).
Proof.
  induction 1 as [|p t l terms (v & Hv & -> & Hpos) _ IH]; [done|].
  rewrite fmap_cons. unfold sumZ in *. cbn [foldr eval].
  destruct (decide (is_selected Value x e_idx p)) as [Hsel|Hsel].
  - rewrite filter_cons_True by done. unfold is_selected in Hsel.
    rewrite Hv in Hsel. simpl in *. lia.
  - rewrite filter_cons_False by done. lia.
Qed.

(** For 0/1 variables, the weighted sum is the sum over those of value 1. *)
Lemma sum_selected Value x e_idx (l : list (nat * Shift)) terms :
  Forall2 (λ (p : nat * Shift) t,
             ∃ v, x !! (e_idx, p.1) = Some v
                  ∧ t = LMul (LVar v) (shift_length p.2)
                  ∧ 0 ≤ Value v ≤ 1) l terms →
  sumZ (eval Value <$> terms)
  = sumZ (shift_length <$> (snd <$> filter (is_selected Value x e_idx) l)).
Proof.
  induction 1 as [|p t l terms (v & Hv & -> & Hbool) _ IH]; [done|].
  rewrite fmap_cons. unfold sumZ in *. cbn [foldr eval]. rewrite IH.
  destruct (decide (is_selected Value x e_idx p)) as [Hsel|Hsel].
  - rewrite filter_cons_True by done. rewrite !fmap_cons. cbn [foldr].
    unfold is_selected in Hsel. rewrite Hv in Hsel. simpl in *. rewrite Hsel. lia.
  - rewrite filter_cons_False by done.
    unfold is_selected in Hsel. rewrite Hv in Hsel. simpl in *.
    assert (Value v = 0) as -> by lia. lia.
Qed.

(** Over 0/1 variables, [covering] counts the selected shifts of an
    employee that cover the hour [h]. *)
Lemma covering_counts_selected Value x h e_idx (l : list (nat * Shift)) :
  (∀ p, p ∈ l → ∃ v, x !! (e_idx, p.1) = Some v ∧ 0 ≤ Value v ≤ 1) →
  covering Value x h e_idx l
  = Z.of_nat (length (filter (λ s : Shift, s.1 ≤ h < s.2)
                             (snd <$> filter (is_selected Value x e_idx) l))).
Proof.
  unfold covering, sumZ.
  induction l as [|p l IH]; intros Hbool; [done|].
  rewrite fmap_cons. cbn [foldr]. rewrite IH by (intros; apply Hbool; by right).
  destruct (Hbool p) as (v & Hv & Hbit); [left|].
  destruct (decide (is_selected Value x e_idx p)) as [Hsel|Hsel].
  - rewrite (filter_cons_True (is_selected Value x e_idx)) by done.
    rewrite fmap_cons. unfold is_selected in Hsel. rewrite Hv in *. simpl in *.
    case_bool_decide.
    + rewrite filter_cons_True by done. simpl. lia.
    + rewrite filter_cons_False by done. lia.
  - rewrite (filter_cons_False (is_selected Value x e_idx)) by done.
    unfold is_selected in Hsel. rewrite Hv in *. simpl in *.
    case_bool_decide; lia.
Qed.

(** The reported shift is the first selected one. *)
Lemma first_chosen_head Value x e_idx l c :
  first_chosen Value x e_idx l = Ok c →
  c = head (snd <$> filter (is_selected Value x e_idx) l).
Proof.
  destruct c as [s|].
  - intros (done & s_idx & rest & v & -> & Hv & HV & Hnone)%first_chosen_Some.
    rewrite filter_app, Hnone, filter_cons_True; [done|].
    unfold is_selected. simpl. by rewrite Hv.
  - intros Hnone%first_chosen_None. by rewrite Hnone.
Qed.

Lemma sum_over_var_terms Value (d : gmap Z IntVar) hours terms :
  var_terms d hours = Ok terms →
  sumZ (eval Value <$> terms) = sum_over Value d hours.
Proof.
  intros Hterms%collect_Ok. unfold sum_over. f_equal.
  induction Hterms as [|h t hours terms Ht _ IH]; [done|].
  rewrite !fmap_cons, IH. f_equal.
  unfold mbind, res_bind in Ht. destruct (dict_get d h) as [v|] eqn:Hv; [|done].
  apply dict_get_Ok in Hv. injection Ht as <-. by rewrite Hv.
Qed.

Lemma work_hours_column Value vars employees fs hours ds de mn mx r :
  extract Value vars employees fs hours ds de mn mx = Ok r →
  length (Vars.work_hours vars) = length fs →
  work_hours <$> assignments r = Value <$> Vars.work_hours vars.
Proof.
  intros Hextract Hlen. apply list_eq. intros i. rewrite !list_lookup_fmap.
  destruct (assignments r !! i) as [a|] eqn:Ha; simpl.
  - destruct (assignment_inv _ _ _ _ _ _ _ _ _ _ _ _ Hextract Ha)
      as (e & shifts & wh & _ & _ & Hwh & _ & _ & Hval & _).
    by rewrite Hwh, Hval.
  - apply lookup_ge_None in Ha.
    rewrite (length_assignments _ _ _ _ _ _ _ _ _ _ Hextract), <- Hlen in Ha.
    apply lookup_ge_None in Ha. by rewrite Ha.
Qed.

(** Reading the solution back never raises: every key and index used was
    put there by the construction. *)
Lemma extract_total Value vars m employees fs n hours ds de mn mx one_shift :
  Built fs n hours mn mx one_shift vars m →
  length employees = length fs →
  ∃ r, extract Value vars employees fs hours ds de mn mx = Ok r.
Proof.
  intros Hbuilt Hlen. unfold extract.
  destruct (collect_total
    (λ '(e_idx, shifts), first_chosen Value (Vars.x vars) e_idx (enumerate shifts))
    (enumerate fs)) as [chosen Hchosen].
  { intros [e_idx shifts] Hin%elem_of_enumerate.
    apply (first_chosen_total _ _ fs); [|done].
    apply (built_keyed _ _ _ _ _ _ _ _ Hbuilt). }
  destruct (collect_total
    (λ h, v ← dict_get (Vars.coverage_vars vars) h; Ok (h, Value v)) hours)
    as [cov_items Hcov].
  { intros h Hh.
    destruct (built_hours _ _ _ _ _ _ _ _ Hbuilt h Hh) as (cov & u & Hc & _).
    apply dict_get_Ok in Hc. rewrite Hc. by eexists. }
  destruct (collect_total
    (λ h, v ← dict_get (Vars.understaff vars) h; Ok (h, Value v)) hours)
    as [us_items Hus].
  { intros h Hh.
    destruct (built_hours _ _ _ _ _ _ _ _ Hbuilt h Hh) as (cov & u & _ & Hu & _).
    apply dict_get_Ok in Hu. rewrite Hu. by eexists. }
  assert (length chosen = length fs) as Hlen_chosen.
  { apply collect_Ok, Forall2_length in Hchosen.
    by rewrite length_enumerate in Hchosen. }
  destruct (collect_total
    (λ '(i, s),
       e ← list_get employees i;
       wh ← list_get (Vars.work_hours vars) i;
       e' ← list_get employees i;
       Ok {| employee := name e; shift := s; work_hours := Value wh;
             unavailable_sorted := sorted (get_unavailable e') |})
    (enumerate chosen)) as [rows Hrows].
  { intros [i s] Hin%elem_of_enumerate. apply lookup_lt_Some in Hin.
    destruct (lookup_lt_is_Some_2 employees i) as [e He]; [lia|].
    destruct (lookup_lt_is_Some_2 (Vars.work_hours vars) i) as [wh Hwh].
    { rewrite (built_work_hours_length _ _ _ _ _ _ _ _ Hbuilt). lia. }
    apply list_get_Ok in He, Hwh. rewrite He, Hwh. by eexists. }
  rewrite Hchosen, res_bind_Ok, Hcov, res_bind_Ok, Hus, res_bind_Ok, Hrows, res_bind_Ok.
  by eexists.
Qed.

Section core.
Variable solver : CpSolver.
Hypothesis solver_sound : sound solver.

Variable employees : list Employee.
Variables day_start day_length : Z.
Variable allowed_lengths : list Z.
Variables min_workers max_workers : Z.
Variable one_shift : bool.
Variable time_limit : Q.

Local Abbreviation result :=
  (schedule_workers_softmin_hardmax solver employees day_start day_length
     allowed_lengths min_workers max_workers one_shift time_limit).
Local Abbreviation feasible_shifts :=
  (feasible_of employees day_start day_length allowed_lengths).
Local Abbreviation hours := (hours_of day_start day_length).
Local Abbreviation the_model :=
  (model_of employees day_start day_length allowed_lengths
            min_workers max_workers one_shift).

(** The model is always built: no lookup made during construction fails. *)
Lemma model_of_built :
  ∃ vars m,
    the_model = Ok (vars, m)
    ∧ Built feasible_shifts (length employees) hours
            min_workers max_workers one_shift vars m.
Proof.
  destruct (build_model_spec employees feasible_shifts hours
              min_workers max_workers one_shift new_CpModel)
    as (vars & m & Hbuild & _ & Hbuilt).
  by exists vars, m.
Qed.

(** A result with status "ok" is read back from the solver's answer to
    the model, and that answer had status OPTIMAL or FEASIBLE. *)
Lemma schedule_ok_extract r :
  result.2 = Ok (ok r) →
  ∃ vars m,
    the_model = Ok (vars, m)
    ∧ Built feasible_shifts (length employees) hours
            min_workers max_workers one_shift vars m
    ∧ ((solver time_limit m).1 = OPTIMAL ∨ (solver time_limit m).1 = FEASIBLE)
    ∧ extract (solver time_limit m).2 vars employees feasible_shifts hours
              day_start (day_start + day_length) min_workers max_workers = Ok r.
Proof.
  destruct model_of_built as (vars & m & Hmodel & Hbuilt).
  unfold schedule_workers_softmin_hardmax. cbv zeta.
  pose proof Hmodel as Hmodel'.
  unfold model_of, feasible_of, hours_of in Hmodel'. rewrite Hmodel'.
  intros Hres. exists vars, m. split; [exact Hmodel|]. split; [done|].
  destruct (solver time_limit m) as [status Value] eqn:Hsolve. simpl in *.
  assert (status = OPTIMAL ∨ status = FEASIBLE) as Hstatus.
  { destruct status; try discriminate; auto. }
  split; [done|].
  unfold mbind, res_bind in Hres. unfold feasible_of, hours_of.
  destruct Hstatus as [-> | ->];
    (destruct (extract _ _ _ _ _ _ _ _ _) as [r'|]; [|done]);
    by injection Hres as ->.
Qed.

(** With a sound solver, it is read back from a solution of the model. *)
Lemma schedule_ok_inv r :
  result.2 = Ok (ok r) →
  ∃ vars m,
    the_model = Ok (vars, m)
    ∧ Built feasible_shifts (length employees) hours
            min_workers max_workers one_shift vars m
    ∧ satisfies (solver time_limit m).2 m
    ∧ extract (solver time_limit m).2 vars employees feasible_shifts hours
              day_start (day_start + day_length) min_workers max_workers = Ok r.
Proof.
  intros (vars & m & Hmodel & Hbuilt & Hstatus & Hextract)%schedule_ok_extract.
  exists vars, m. split_and!; [done|done| |done].
  destruct (solver time_limit m) as [status Value] eqn:Hsolve.
  by eapply solver_sound.
Qed.

(** C1: in every result with status "ok", for every hour [h] of the day,
    [coverage_by_hour[h]] is present and at most [max_workers_per_hour]. *)
Theorem coverage_at_most_max r h :
  (schedule_workers_softmin_hardmax solver employees day_start day_length
     allowed_lengths min_workers max_workers one_shift time_limit).2 = Ok (ok r) →
  day_start ≤ h < day_start + day_length →
  ∃ c, coverage_by_hour r !! h = Some c
       ∧ c ≤ max_workers ∧ max_workers_per_hour r = max_workers.
Proof.
  intros (vars & m & _ & Hbuilt & Hsat & Hextract)%schedule_ok_inv Hh.
  apply elem_of_range in Hh.
  destruct (coverage_by_hour_inv _ _ _ _ _ _ _ _ _ _ h Hextract Hh)
    as (cov & u & Hcov & _ & Hc & _).
  destruct (built_hours _ _ _ _ _ _ _ _ Hbuilt h Hh)
    as (cov' & u' & Hcov' & _ & _ & _ & Hle & _).
  assert (cov' = cov) as -> by congruence.
  apply (satisfies_posted _ _ _ Hsat) in Hle. simpl in Hle.
  exists ((solver time_limit m).2 cov). split_and!; [done|done|].
  apply extract_inv in Hextract as (? & ? & ? & _ & _ & _ & _ & ->). done.
Qed.

(** C2: in every result with status "ok", for every hour [h] of the day,
    [understaff_by_hour[h]] is a non-negative integer and
    [coverage_by_hour[h] + understaff_by_hour[h]] is at least
    [min_workers_per_hour]. *)
Theorem coverage_plus_understaff_at_least_min r h :
  (schedule_workers_softmin_hardmax solver employees day_start day_length
     allowed_lengths min_workers max_workers one_shift time_limit).2 = Ok (ok r) →
  day_start ≤ h < day_start + day_length →
  ∃ c u, coverage_by_hour r !! h = Some c
         ∧ understaff_by_hour r !! h = Some u
         ∧ 0 ≤ u ∧ min_workers ≤ c + u.
Proof.
  intros (vars & m & _ & Hbuilt & Hsat & Hextract)%schedule_ok_inv Hh.
  apply elem_of_range in Hh.
  destruct (coverage_by_hour_inv _ _ _ _ _ _ _ _ _ _ h Hextract Hh)
    as (cov & u & Hcov & Hu & Hc & Hus).
  destruct (built_hours _ _ _ _ _ _ _ _ Hbuilt h Hh)
    as (cov' & u' & Hcov' & Hu' & _ & Hdecl & _ & Hge & _).
  assert (cov' = cov) as -> by congruence.
  assert (u' = u) as -> by congruence.
  apply (satisfies_posted _ _ _ Hsat) in Hge. simpl in Hge.
  apply (satisfies_declared _ _ _ _ _ Hsat) in Hdecl.
  exists ((solver time_limit m).2 cov), ((solver time_limit m).2 u).
  split_and!; [done|done|lia|lia].
Qed.

(** The reported coverage of an hour is the number of selected shifts that
    cover it, summed over the employees. *)
Lemma reported_coverage_counts r h :
  result.2 = Ok (ok r) →
  day_start ≤ h < day_start + day_length →
  ∃ vars m,
    the_model = Ok (vars, m)
    ∧ coverage_by_hour r !! h
      = Some (sumZ ((λ q : nat * list Shift,
                       Z.of_nat (length (filter (λ s : Shift, s.1 ≤ h < s.2)
                         (selected (solver time_limit m).2 (Vars.x vars) q.1 q.2))))
                    <$> enumerate feasible_shifts)).
Proof.
  intros (vars & m & Hmodel & Hbuilt & Hsat & Hextract)%schedule_ok_inv Hh.
  exists vars, m. split; [done|]. apply elem_of_range in Hh.
  destruct (coverage_by_hour_inv _ _ _ _ _ _ _ _ _ _ h Hextract Hh)
    as (cov & u & Hcov & _ & -> & _).
  destruct (built_hours _ _ _ _ _ _ _ _ Hbuilt h Hh)
    as (cov' & u' & Hcov' & _ & _ & _ & _ & _ & expr & Hposted & Heval).
  assert (cov' = cov) as -> by congruence.
  apply (satisfies_posted _ _ _ Hsat) in Hposted. simpl in Hposted.
  rewrite Hposted, Heval. unfold cover_count. do 2 f_equal.
  apply Forall_fmap_ext, Forall_forall. intros [e_idx shifts] Hin%elem_of_enumerate.
  simpl. unfold selected. apply covering_counts_selected.
  intros [s_idx s] Hp%elem_of_enumerate. simpl.
  destruct (built_keyed _ _ _ _ _ _ _ _ Hbuilt e_idx shifts s_idx Hin) as [v Hv].
  { by eapply lookup_lt_Some. }
  exists v. split; [done|].
  apply (built_bool _ _ _ _ _ _ _ _ Hbuilt) in Hv.
  by apply (satisfies_declared _ _ _ _ _ Hsat) in Hv.
Qed.

(** The reported total is the sum of the reported understaff values. *)
Lemma reported_total_understaff r :
  result.2 = Ok (ok r) →
  total_understaff r = sumZ ((λ h, default 0 (understaff_by_hour r !! h)) <$> hours).
Proof.
  intros (vars & m & _ & Hbuilt & Hsat & Hextract)%schedule_ok_inv.
  destruct (built_total_understaff _ _ _ _ _ _ _ _ Hbuilt) as (terms & Hterms & Hposted).
  apply (satisfies_posted _ _ _ Hsat) in Hposted. simpl in Hposted.
  rewrite eval_py_sum, (sum_over_var_terms _ _ _ _ Hterms) in Hposted.
  transitivity ((solver time_limit m).2 (Vars.total_understaff vars)).
  { apply extract_inv in Hextract as (? & ? & ? & _ & _ & _ & _ & ->). done. }
  rewrite Hposted. unfold sum_over. f_equal.
  apply Forall_fmap_ext, Forall_forall. intros h Hh.
  destruct (coverage_by_hour_inv _ _ _ _ _ _ _ _ _ _ h Hextract Hh)
    as (cov & u & _ & -> & _ & ->). done.
Qed.

(** C3: with [max_one_shift_per_employee] true, in every result with
    status "ok" each employee has at most one decision variable of value 1,
    and the reported [shift] is that one selected shift, or [None] when
    there is none. *)
Theorem at_most_one_shift r :
  one_shift = true →
  (schedule_workers_softmin_hardmax solver employees day_start day_length
     allowed_lengths min_workers max_workers one_shift time_limit).2 = Ok (ok r) →
  ∃ vars m,
    the_model = Ok (vars, m)
    ∧ ∀ e_idx shifts, feasible_shifts !! e_idx = Some shifts →
        let chosen := selected (solver time_limit m).2 (Vars.x vars) e_idx shifts in
        (length chosen ≤ 1)%nat
        ∧ ∃ a, assignments r !! e_idx = Some a ∧ shift a = head chosen.
Proof.
  intros Hflag (vars & m & Hmodel & Hbuilt & Hsat & Hextract)%schedule_ok_inv.
  exists vars, m. split; [done|]. intros e_idx shifts Hfs. cbv zeta. split.
  - destruct (built_one_shift _ _ _ _ _ _ _ _ Hbuilt Hflag e_idx shifts Hfs)
      as (terms & Hterms & Hposted).
    apply (satisfies_posted _ _ _ Hsat) in Hposted. simpl in Hposted.
    rewrite eval_py_sum in Hposted.
    unfold selected. rewrite length_fmap.
    enough (Z.of_nat (length (filter (is_selected (solver time_limit m).2
               (Vars.x vars) e_idx) (enumerate shifts)))
            ≤ sumZ (eval (solver time_limit m).2 <$> terms)) by lia.
    apply count_selected_le.
    eapply Forall2_impl; [by apply x_terms_enumerate|].
    intros p t (v & Hv & ->). exists v. split_and!; [done|done|].
    apply (built_bool _ _ _ _ _ _ _ _ Hbuilt) in Hv.
    apply (satisfies_declared _ _ _ _ _ Hsat) in Hv. lia.
  - destruct (lookup_lt_is_Some_2 (assignments r) e_idx) as [a Ha].
    { rewrite (length_assignments _ _ _ _ _ _ _ _ _ _ Hextract).
      by eapply lookup_lt_Some. }
    exists a. split; [done|].
    destruct (assignment_inv _ _ _ _ _ _ _ _ _ _ _ _ Hextract Ha)
      as (e & shifts' & wh & _ & Hfs' & _ & Hfirst & _).
    assert (shifts' = shifts) as -> by congruence.
    by apply first_chosen_head.
Qed.


(** The work hours of employee [e_idx] are the sum posted on line 125. *)
Lemma work_hours_of_employee r vars m e_idx shifts :
  the_model = Ok (vars, m) →
  result.2 = Ok (ok r) →
  feasible_shifts !! e_idx = Some shifts →
  ∃ a, assignments r !! e_idx = Some a
       ∧ work_hours a
         = sumZ (shift_length <$>
                   selected (solver time_limit m).2 (Vars.x vars) e_idx shifts).
Proof.
  intros Hmodel (vars' & m' & Hmodel' & Hbuilt & Hsat & Hextract)%schedule_ok_inv Hfs.
  assert (vars' = vars ∧ m' = m) as [-> ->] by (split; congruence).
  destruct (lookup_lt_is_Some_2 (assignments r) e_idx) as [a Ha].
  { rewrite (length_assignments _ _ _ _ _ _ _ _ _ _ Hextract).
    by eapply lookup_lt_Some. }
  exists a. split; [done|].
  destruct (assignment_inv _ _ _ _ _ _ _ _ _ _ _ _ Hextract Ha)
    as (e & shifts' & wh & _ & Hfs' & Hwh & _ & _ & Hval & _).
  assert (shifts' = shifts) as -> by congruence.
  destruct (built_work_hours _ _ _ _ _ _ _ _ Hbuilt e_idx shifts Hfs)
    as (wh' & terms & Hwh' & _ & Hterms & Hposted).
  assert (wh' = wh) as -> by congruence.
  apply (satisfies_posted _ _ _ Hsat) in Hposted. simpl in Hposted.
  rewrite eval_py_sum in Hposted.
  rewrite Hval, Hposted. unfold selected. apply sum_selected.
  eapply Forall2_impl; [by apply wh_terms_enumerate|].
  intros p t (v & Hv & ->). exists v. split; [done|]. split; [done|].
  apply (built_bool _ _ _ _ _ _ _ _ Hbuilt) in Hv.
  by apply (satisfies_declared _ _ _ _ _ Hsat) in Hv.
Qed.

Lemma no_feasible_shift_no_work r :
  result.2 = Ok (ok r) →
  ∀ e_idx shifts, feasible_shifts !! e_idx = Some shifts →
    ∃ a, assignments r !! e_idx = Some a ∧ (shifts = [] → work_hours a = 0).
Proof.
  intros Hr e_idx shifts Hfs.
  destruct model_of_built as (vars & m & Hmodel & _).
  destruct (work_hours_of_employee r vars m e_idx shifts Hmodel Hr Hfs)
    as (a & Ha & Hsum).
  exists a. split; [done|]. intros ->. by rewrite Hsum.
Qed.

(** C7: in every result with status "ok", [fairness_spread] is the maximum
    minus the minimum of the reported work hours of the employees; the
    work hours of an employee are the sum of [end - start] over the shifts
    whose decision variable has value 1, and are 0 for an employee without
    feasible shifts. *)
Theorem fairness_spread_is_max_minus_min r :
  (schedule_workers_softmin_hardmax solver employees day_start day_length
     allowed_lengths min_workers max_workers one_shift time_limit).2 = Ok (ok r) →
  ∃ vars m,
    the_model = Ok (vars, m)
    ∧ (∃ hi lo,
         list_max (work_hours <$> assignments r) = Some hi
         ∧ list_min (work_hours <$> assignments r) = Some lo
         ∧ fairness_spread r = hi - lo)
    ∧ ∀ e_idx shifts, feasible_shifts !! e_idx = Some shifts →
        ∃ a, assignments r !! e_idx = Some a
             ∧ work_hours a
               = sumZ (shift_length <$>
                         selected (solver time_limit m).2 (Vars.x vars) e_idx shifts)
             ∧ (shifts = [] → work_hours a = 0).
Proof.
  intros Hr.
  pose proof Hr as (vars & m & Hmodel & Hbuilt & Hsat & Hextract)%schedule_ok_inv.
  exists vars, m. split; [done|]. split.
  - pose proof (built_max_work _ _ _ _ _ _ _ _ Hbuilt) as Hmax.
    pose proof (built_min_work _ _ _ _ _ _ _ _ Hbuilt) as Hmin.
    pose proof (built_spread _ _ _ _ _ _ _ _ Hbuilt) as Hspread.
    apply (satisfies_posted _ _ _ Hsat) in Hmax, Hmin, Hspread.
    simpl in Hmax, Hmin, Hspread.
    rewrite <- list_fmap_compose in Hmax, Hmin.
    rewrite (work_hours_column _ _ _ _ _ _ _ _ _ _ Hextract)
      by apply (built_work_hours_length _ _ _ _ _ _ _ _ Hbuilt).
    eexists _, _. split_and!; [exact Hmax|exact Hmin|].
    apply extract_inv in Hextract as (? & ? & ? & _ & _ & _ & _ & ->). done.
  - intros e_idx shifts Hfs.
    destruct (work_hours_of_employee r vars m e_idx shifts Hmodel Hr Hfs)
      as (a & Ha & Hsum).
    exists a. split_and!; [done|done|]. intros ->. by rewrite Hsum.
Qed.

(** C10: in every result with status "ok", a reported shift that is not
    [None] is one of that employee's feasible shifts: no hour of it is in
    the employee's unavailable set, it starts no earlier than the day
    start, ends no later than the day end, and its length is one of the
    allowed lengths. *)
Theorem reported_shift_is_feasible r i a s e_ :
  (schedule_workers_softmin_hardmax solver employees day_start day_length
     allowed_lengths min_workers max_workers one_shift time_limit).2 = Ok (ok r) →
  assignments r !! i = Some a →
  shift a = Some (s, e_) →
  ∃ emp feasible,
    employees !! i = Some emp ∧ employee a = name emp
    ∧ feasible_shifts !! i = Some feasible ∧ (s, e_) ∈ feasible
    ∧ (∀ h, s ≤ h < e_ → h ∉ get_unavailable emp)
    ∧ day_start ≤ s ∧ e_ ≤ day_start + day_length
    ∧ (e_ - s) ∈ allowed_lengths.
Proof.
  intros (vars & m & _ & _ & _ & Hextract)%schedule_ok_extract Ha Hshift.
  destruct (assignment_inv _ _ _ _ _ _ _ _ _ _ _ _ Hextract Ha)
    as (emp & feasible & wh & Hemp & Hfs & _ & Hfirst & Hname & _).
  rewrite Hshift in Hfirst.
  apply first_chosen_Some in Hfirst as (done & s_idx & rest & v & Hl & _).
  assert ((s, e_) ∈ feasible) as Hin.
  { apply list_elem_of_lookup. exists s_idx. by eapply enumerate_mid. }
  exists emp, feasible. split_and!; [done..| | | |].
  - by apply (elem_of_feasible _ _ _ _ _ _ _ Hemp Hfs).
  - apply (elem_of_feasible _ _ _ _ _ _ _ Hemp Hfs) in Hin as [Hin _].
    apply elem_of_build_candidate_shifts in Hin as (L & _ & -> & ? & ?). lia.
  - apply (elem_of_feasible _ _ _ _ _ _ _ Hemp Hfs) in Hin as [Hin _].
    apply elem_of_build_candidate_shifts in Hin as (L & _ & -> & ? & ?). lia.
  - apply (elem_of_feasible _ _ _ _ _ _ _ Hemp Hfs) in Hin as [Hin _].
    apply elem_of_build_candidate_shifts in Hin as (L & HL & -> & ? & ?).
    by replace (s + L - s) with L by lia.
Qed.

(** What the function does to the outside is always the same: it creates
    a model and calls the solver on it. *)
Lemma schedule_effects :
  ∃ vars m, the_model = Ok (vars, m) ∧ result.1 = [CpModel_created; Solve_called m].
Proof.
  destruct model_of_built as (vars & m & Hmodel & _). exists vars, m.
  split; [done|]. unfold schedule_workers_softmin_hardmax. cbv zeta.
  unfold model_of, feasible_of, hours_of in Hmodel. rewrite Hmodel.
  by destruct (solver time_limit m).
Qed.

(** The function never raises. *)
Lemma schedule_never_raises : ∃ o, result.2 = Ok o.
Proof.
  destruct model_of_built as (vars & m & Hmodel & Hbuilt).
  unfold schedule_workers_softmin_hardmax. cbv zeta.
  unfold model_of, feasible_of, hours_of in Hmodel. rewrite Hmodel.
  destruct (solver time_limit m) as [status Value]. simpl.
  destruct (extract_total Value vars m employees feasible_shifts
              (length employees) hours day_start (day_start + day_length)
              min_workers max_workers one_shift Hbuilt) as [r Hr].
  { unfold feasible_of. by rewrite length_feasible_shifts_of. }
  unfold feasible_of, hours_of in Hr.
  destruct status; simpl; try (by eexists);
    unfold mbind, res_bind; rewrite Hr; by eexists.
Qed.


End core.

(** ** The checks of [run_scheduler] *)

Lemma rejected_no_model run self :
  rejected run self → ¬ builds_model run.1 ∧ ¬ calls_solver run.1.
Proof.
  intros (title & message & ->). unfold builds_model, calls_solver. simpl. split.
  - intros Hin. apply list_elem_of_singleton in Hin. discriminate.
  - intros [model Hin]. apply list_elem_of_singleton in Hin. discriminate.
Qed.

Section ui.
Variable solver : CpSolver.

(** Past its three checks, [run_scheduler] calls the core, which creates a
    model and calls the solver. *)
Lemma run_scheduler_calls_core self :
  self_employees self ≠ [] →
  0 ≤ min_cov_var self ≤ max_cov_var self →
  builds_model (run_scheduler solver self).1
  ∧ calls_solver (run_scheduler solver self).1.
Proof.
  intros Hemp Hcov. unfold run_scheduler.
  rewrite bool_decide_eq_false_2 by (by destruct (self_employees self)).
  rewrite bool_decide_eq_false_2 by lia.
  rewrite bool_decide_eq_false_2 by lia.
  destruct (schedule_effects solver (self_employees self) (day_start_var self)
              (day_length_var self) [4; 5] (min_cov_var self) (max_cov_var self)
              true 10%Q) as (vars & m & _ & Heff).
  destruct (schedule_workers_softmin_hardmax _ _ _ _ _ _ _ _ _)
    as [effects result]. simpl in Heff. subst effects.
  unfold builds_model, calls_solver.
  destruct result as [[|r]|e]; simpl; split; try (by left);
    exists m; by right; left.
Qed.

(** C8, as amended: a negative coverage bound, or a maximum below the
    minimum, makes [run_scheduler] show an error dialog and return, its
    state unchanged, before the core is called: no model is created and the
    solver is not called. *)
Theorem invalid_coverage_rejected self :
  min_cov_var self < 0 ∨ max_cov_var self < 0
  ∨ max_cov_var self < min_cov_var self →
  rejected (run_scheduler solver self) self
  ∧ ¬ builds_model (run_scheduler solver self).1
  ∧ ¬ calls_solver (run_scheduler solver self).1.
Proof.
  intros Hbad.
  assert (rejected (run_scheduler solver self) self) as Hrej.
  { unfold run_scheduler, rejected. case_bool_decide; [by eexists _, _|].
    case_bool_decide; [by eexists _, _|].
    case_bool_decide; [by eexists _, _|]. lia. }
  split; [done|]. by apply (rejected_no_model _ self).
Qed.

(** A day in which no allowed length fits is not rejected: the candidate
    set is empty, the model is created and the solver is called. *)
Lemma no_fitting_length_not_rejected self :
  self_employees self ≠ [] →
  0 ≤ min_cov_var self ≤ max_cov_var self →
  day_length_var self < 4 →
  build_candidate_shifts (day_start_var self) (day_length_var self) [4; 5] = []
  ∧ builds_model (run_scheduler solver self).1
  ∧ calls_solver (run_scheduler solver self).1.
Proof.
  intros Hemp Hcov Hlen. split; [|by apply run_scheduler_calls_core].
  apply build_candidate_shifts_nil. intros L HL.
  apply list_elem_of_In in HL. simpl in HL. destruct HL as [<-|[<-|[]]]; lia.
Qed.

(** C9, as amended: with no employee, [run_scheduler] shows the error
    "No employees" and returns before the core is called, so that no model
    is created and the solver is not called. *)
Theorem no_employees_rejected self :
  self_employees self = [] →
  run_scheduler solver self
  = ([showerror "No employees" "Add at least one employee."], Ok self)
  ∧ ¬ builds_model (run_scheduler solver self).1
  ∧ ¬ calls_solver (run_scheduler solver self).1.
Proof.
  intros Hemp.
  assert (run_scheduler solver self
          = ([showerror "No employees" "Add at least one employee."], Ok self)) as Hrun.
  { unfold run_scheduler. by rewrite Hemp. }
  split; [done|]. apply (rejected_no_model _ self). by eexists _, _.
Qed.

(** The core itself has no such check: without employees it creates the
    model and calls the solver. *)
Lemma core_without_employees ds dl allowed mn mx flag t :
  builds_model (schedule_workers_softmin_hardmax solver [] ds dl allowed mn mx flag t).1
  ∧ calls_solver (schedule_workers_softmin_hardmax solver [] ds dl allowed mn mx flag t).1.
Proof.
  destruct (schedule_effects solver [] ds dl allowed mn mx flag t)
    as (vars & m & _ & ->).
  split; [by left|]. exists m. by right; left.
Qed.

(** That model has no solution (the maximum of no work-hour variable is
    posted), so with a sound solver the core returns "no_solution". *)
Lemma core_without_employees_no_solution ds dl allowed mn mx flag t :
  sound solver →
  (schedule_workers_softmin_hardmax solver [] ds dl allowed mn mx flag t).2
  = Ok no_solution.
Proof.
  intros Hsound.
  destruct (schedule_never_raises solver [] ds dl allowed mn mx flag t) as [[|r] Ho];
    [done|].
  apply (schedule_ok_inv solver Hsound) in Ho
    as (vars & m & _ & Hbuilt & Hsat & _).
  pose proof (built_max_work _ _ _ _ _ _ _ _ Hbuilt) as Hmax.
  pose proof (built_work_hours_length _ _ _ _ _ _ _ _ Hbuilt) as Hlen.
  apply (satisfies_posted _ _ _ Hsat) in Hmax. simpl in Hmax.
  destruct (Vars.work_hours vars); [done|done].
Qed.

End ui.

(** ** The definitions at work on the small days *)

Example morning_run :
  (schedule_workers_softmin_hardmax morning_solver morning_staff
     8 4 [4; 5] 1 2 true 10%Q).2
  = Ok (ok morning_schedule).
Proof. vm_compute. reflexivity. Qed.

Example morning_model_size :
  ∃ vars m,
    model_of morning_staff 8 4 [4; 5] 1 2 true = Ok (vars, m)
    ∧ length (variables m) = 16%nat ∧ length (constraints m) = 21%nat.
Proof. eexists _, _. vm_compute. done. Qed.

Lemma coverage_at_most_max_witness :
  ∃ c, coverage_by_hour morning_schedule !! 9 = Some c
       ∧ c ≤ 2 ∧ max_workers_per_hour morning_schedule = 2.
Proof.
  apply (coverage_at_most_max morning_solver (checking_solver_sound morning_values)
           morning_staff 8 4 [4; 5] 1 2 true 10%Q morning_schedule 9).
  - vm_compute. reflexivity.
  - lia.
Defined.

Lemma coverage_plus_understaff_at_least_min_witness :
  ∃ c u, coverage_by_hour morning_schedule !! 11 = Some c
         ∧ understaff_by_hour morning_schedule !! 11 = Some u
         ∧ 0 ≤ u ∧ 1 ≤ c + u.
Proof.
  apply (coverage_plus_understaff_at_least_min morning_solver
           (checking_solver_sound morning_values)
           morning_staff 8 4 [4; 5] 1 2 true 10%Q morning_schedule 11).
  - vm_compute. reflexivity.
  - lia.
Defined.

Example five_hour_run :
  (schedule_workers_softmin_hardmax five_hour_solver five_hour_staff
     8 5 [4; 5] 1 2 true 10%Q).2
  = Ok (ok five_hour_schedule).
Proof. vm_compute. reflexivity. Qed.

(** Two shifts for Alex: a solver that proposes them gets a result when
    the one-shift constraints are left out, and none when they are posted. *)
Example double_shift_refused :
  (schedule_workers_softmin_hardmax (checking_solver double_shift_values)
     five_hour_staff 8 5 [4; 5] 1 2 true 10%Q).2 = Ok no_solution
  ∧ ∃ r, (schedule_workers_softmin_hardmax (checking_solver double_shift_values)
            five_hour_staff 8 5 [4; 5] 1 2 false 10%Q).2 = Ok (ok r)
         ∧ work_hours <$> assignments r = [8; 0].
Proof.
  split; [vm_compute; reflexivity|].
  eexists. split; [vm_compute; reflexivity|]. reflexivity.
Qed.

Lemma at_most_one_shift_witness :
  feasible_of five_hour_staff 8 5 [4; 5]
  = [[(8, 12); (9, 13); (8, 13)]; [(9, 13)]]
  ∧ ∃ vars m,
      model_of five_hour_staff 8 5 [4; 5] 1 2 true = Ok (vars, m)
      ∧ ∀ e_idx shifts,
          feasible_of five_hour_staff 8 5 [4; 5] !! e_idx = Some shifts →
          let chosen := selected (five_hour_solver 10%Q m).2 (Vars.x vars) e_idx shifts in
          (length chosen ≤ 1)%nat
          ∧ ∃ a, assignments five_hour_schedule !! e_idx = Some a
                 ∧ shift a = head chosen.
Proof.
  split; [vm_compute; reflexivity|].
  apply (at_most_one_shift five_hour_solver (checking_solver_sound five_hour_values)
           five_hour_staff 8 5 [4; 5] 1 2 true 10%Q five_hour_schedule).
  - reflexivity.
  - vm_compute. reflexivity.
Defined.



Lemma fairness_spread_is_max_minus_min_witness :
  ∃ vars m,
    model_of morning_staff 8 4 [4; 5] 1 2 true = Ok (vars, m)
    ∧ (∃ hi lo,
         list_max (work_hours <$> assignments morning_schedule) = Some hi
         ∧ list_min (work_hours <$> assignments morning_schedule) = Some lo
         ∧ fairness_spread morning_schedule = hi - lo)
    ∧ ∀ e_idx shifts,
        feasible_of morning_staff 8 4 [4; 5] !! e_idx = Some shifts →
        ∃ a, assignments morning_schedule !! e_idx = Some a
             ∧ work_hours a
               = sumZ (shift_length <$>
                         selected (morning_solver 10%Q m).2 (Vars.x vars) e_idx shifts)
             ∧ (shifts = [] → work_hours a = 0).
Proof.
  apply (fairness_spread_is_max_minus_min morning_solver
           (checking_solver_sound morning_values)
           morning_staff 8 4 [4; 5] 1 2 true 10%Q morning_schedule).
  vm_compute. reflexivity.
Defined.

Lemma reported_shift_is_feasible_witness :
  ∃ emp feasible,
    morning_staff !! 0%nat = Some emp ∧ "Alex" = name emp
    ∧ feasible_of morning_staff 8 4 [4; 5] !! 0%nat = Some feasible
    ∧ (8, 12) ∈ feasible
    ∧ (∀ h, 8 ≤ h < 12 → h ∉ get_unavailable emp)
    ∧ 8 ≤ 8 ∧ 12 ≤ 8 + 4 ∧ (12 - 8) ∈ [4; 5].
Proof.
  apply (reported_shift_is_feasible morning_solver morning_staff 8 4 [4; 5] 1 2 true
           10%Q morning_schedule 0%nat
           {| employee := "Alex"; shift := Some (8, 12); work_hours := 4;
              unavailable_sorted := [12] |} 8 12).
  - vm_compute. reflexivity.
  - reflexivity.
  - reflexivity.
Defined.

Lemma invalid_coverage_rejected_witness :
  rejected (run_scheduler morning_solver crossed_bounds) crossed_bounds
  ∧ ¬ builds_model (run_scheduler morning_solver crossed_bounds).1
  ∧ ¬ calls_solver (run_scheduler morning_solver crossed_bounds).1.
Proof.
  apply (invalid_coverage_rejected morning_solver crossed_bounds).
  right. right. simpl. lia.
Defined.

Lemma no_employees_rejected_witness :
  run_scheduler morning_solver empty_window
  = ([showerror "No employees" "Add at least one employee."], Ok empty_window)
  ∧ ¬ builds_model (run_scheduler morning_solver empty_window).1
  ∧ ¬ calls_solver (run_scheduler morning_solver empty_window).1.
Proof.
  apply (no_employees_rejected morning_solver empty_window). reflexivity.
Defined.

(** ** Where the specification and the code part ways *)

(** Against C8 as stated: a three-hour day, in which neither allowed length
    fits, is invalid by the specification's list, yet [run_scheduler] does
    not reject it: the model is created and the solver is called. *)
Lemma invalid_configuration_reaches_solver :
  invalid_configuration short_day
  ∧ builds_model (run_scheduler morning_solver short_day).1
  ∧ calls_solver (run_scheduler morning_solver short_day).1
  ∧ ¬ rejected (run_scheduler morning_solver short_day) short_day.
Proof.
  assert (builds_model (run_scheduler morning_solver short_day).1
          ∧ calls_solver (run_scheduler morning_solver short_day).1) as [Hb Hc].
  { apply run_scheduler_calls_core; [done|simpl; lia]. }
  split_and!; [|done|done|].
  - do 4 right. intros L HL. simpl.
    apply list_elem_of_In in HL. simpl in HL. destruct HL as [<-|[<-|[]]]; lia.
  - intros Hrej. by apply rejected_no_model in Hrej as [Hno _].
Qed.

(** Against C9 as stated: called without employees, the core does not
    reject the request; it creates the model and calls the solver, and only
    the solver's answer makes it return "no_solution". *)
Lemma core_accepts_no_employees :
  builds_model
    (schedule_workers_softmin_hardmax morning_solver [] 8 12 [4; 5] 1 2 true 10%Q).1
  ∧ calls_solver
      (schedule_workers_softmin_hardmax morning_solver [] 8 12 [4; 5] 1 2 true 10%Q).1
  ∧ (schedule_workers_softmin_hardmax morning_solver [] 8 12 [4; 5] 1 2 true 10%Q).2
    = Ok no_solution.
Proof.
  split_and!.
  - apply core_without_employees.
  - apply core_without_employees.
  - vm_compute. reflexivity.
Qed.

(** * Further properties of the core *)

Example blackout_run :
  (schedule_workers_softmin_hardmax (checking_solver blackout_values) blackout_staff
     8 4 [4; 5] 1 2 true 10%Q).2
  = Ok (ok blackout_schedule).
Proof. vm_compute. reflexivity. Qed.

(** ** Keys of a dictionary comprehension *)

Lemma dict_of_items_lookup_None {V} (items : list (Z * V)) k :
  k ∉ items.*1 → dict_of_items items !! k = None.
Proof.
  unfold dict_of_items.
  cut (∀ d0 : gmap Z V, d0 !! k = None → k ∉ items.*1 →
         foldl (λ d '(k, v), <[k := v]> d) d0 items !! k = None).
  { intros Hgen. by apply Hgen. }
  induction items as [|[k0 v0] items IH]; intros d0 Hd0 Hk; simpl; [done|].
  rewrite fmap_cons in Hk. apply not_elem_of_cons in Hk as [Hne Hk].
  apply IH; [|done]. by rewrite lookup_insert_ne.
Qed.

Lemma collect_values_keys (Value : IntVar → Z) (d : gmap Z IntVar) hours items :
  collect (λ h, v ← dict_get d h; Ok (h, Value v)) hours = Ok items →
  items.*1 = hours.
Proof.
  intros Hitems%collect_Ok.
  induction Hitems as [|h [k v] hours items Hh _ IH]; [done|].
  rewrite fmap_cons, IH. f_equal. simpl.
  unfold mbind, res_bind in Hh. destruct (dict_get d h); [|done].
  by injection Hh as <- _.
Qed.

Lemma sumZ_zero {A} (f : A → Z) (l : list A) :
  (∀ a, a ∈ l → f a = 0) → sumZ (f <$> l) = 0.
Proof.
  unfold sumZ. induction l as [|a l IH]; intros Hf; [done|].
  rewrite fmap_cons. cbn [foldr]. rewrite Hf by left.
  rewrite IH; [done|]. intros b Hb. apply Hf. by right.
Qed.

Lemma sumZ_nonneg (l : list Z) : (∀ a, a ∈ l → 0 ≤ a) → 0 ≤ sumZ l.
Proof.
  unfold sumZ. induction l as [|a l IH]; intros Hpos; simpl; [done|].
  assert (0 ≤ a) by (apply Hpos; left).
  assert (0 ≤ foldr Z.add 0 l) by (apply IH; intros; apply Hpos; by right). lia.
Qed.

(** A selected shift is one of the employee's feasible shifts. *)
Lemma selected_subset Value x e_idx shifts (s : Shift) :
  s ∈ selected Value x e_idx shifts → s ∈ shifts.
Proof.
  unfold selected. intros ([i s'] & -> & Hin)%list_elem_of_fmap.
  apply list_elem_of_filter in Hin as [_ Hin].
  apply elem_of_enumerate in Hin. simpl. by eapply list_elem_of_lookup_2.
Qed.

Section more_core.
Variable solver : CpSolver.
Hypothesis solver_sound : sound solver.

Variable employees : list Employee.
Variables day_start day_length : Z.
Variable allowed_lengths : list Z.
Variables min_workers max_workers : Z.
Variable one_shift : bool.
Variable time_limit : Q.

Local Abbreviation run :=
  (schedule_workers_softmin_hardmax solver employees day_start day_length
     allowed_lengths min_workers max_workers one_shift time_limit).
Local Abbreviation fshifts :=
  (feasible_of employees day_start day_length allowed_lengths).
Local Abbreviation day := (hours_of day_start day_length).
Local Abbreviation built_model :=
  (model_of employees day_start day_length allowed_lengths
            min_workers max_workers one_shift).

(** All that is known about the values reported for an hour of the day. *)
Lemma hour_values r h :
  run.2 = Ok (ok r) →
  day_start ≤ h < day_start + day_length →
  ∃ c u,
    coverage_by_hour r !! h = Some c ∧ understaff_by_hour r !! h = Some u
    ∧ 0 ≤ c ≤ Z.of_nat (length employees) ∧ 0 ≤ u ≤ 1000
    ∧ c ≤ max_workers ∧ min_workers ≤ c + u.
Proof.
  intros (vars & m & _ & Hbuilt & Hsat & Hextract)%(schedule_ok_inv solver solver_sound) Hh.
  apply elem_of_range in Hh.
  destruct (coverage_by_hour_inv _ _ _ _ _ _ _ _ _ _ h Hextract Hh)
    as (cov & u & Hcov & Hu & Hc & Hus).
  destruct (built_hours _ _ _ _ _ _ _ _ Hbuilt h Hh)
    as (cov' & u' & Hcov' & Hu' & Hdc & Hdu & Hle & Hge & _).
  assert (cov' = cov) as -> by congruence.
  assert (u' = u) as -> by congruence.
  apply (satisfies_posted _ _ _ Hsat) in Hle, Hge. simpl in Hle, Hge.
  apply (satisfies_declared _ _ _ _ _ Hsat) in Hdc, Hdu.
  eexists _, _. split_and!; [exact Hc|exact Hus|lia..].
Qed.

(** In a solution, at most one decision variable of an employee is 1 when
    the one-shift constraints were posted. *)
Lemma selected_at_most_one vars m e_idx shifts :
  one_shift = true →
  Built fshifts (length employees) day min_workers max_workers one_shift vars m →
  satisfies (solver time_limit m).2 m →
  fshifts !! e_idx = Some shifts →
  (length (selected (solver time_limit m).2 (Vars.x vars) e_idx shifts) ≤ 1)%nat.
Proof.
  intros Hflag Hbuilt Hsat Hfs.
  destruct (built_one_shift _ _ _ _ _ _ _ _ Hbuilt Hflag e_idx shifts Hfs)
    as (terms & Hterms & Hposted).
  apply (satisfies_posted _ _ _ Hsat) in Hposted. simpl in Hposted.
  rewrite eval_py_sum in Hposted. unfold selected. rewrite length_fmap.
  enough (Z.of_nat (length (filter (is_selected (solver time_limit m).2
             (Vars.x vars) e_idx) (enumerate shifts)))
          ≤ sumZ (eval (solver time_limit m).2 <$> terms)) by lia.
  apply count_selected_le.
  eapply Forall2_impl; [by apply x_terms_enumerate|].
  intros p t (v & Hv & ->). exists v. split_and!; [done|done|].
  apply (built_bool _ _ _ _ _ _ _ _ Hbuilt) in Hv.
  apply (satisfies_declared _ _ _ _ _ Hsat) in Hv. lia.
Qed.


Lemma hour_keys r h :
  (schedule_workers_softmin_hardmax solver employees day_start day_length
     allowed_lengths min_workers max_workers one_shift time_limit).2 = Ok (ok r) →
  (is_Some (coverage_by_hour r !! h) ↔ h ∈ hours_of day_start day_length)
  ∧ (is_Some (understaff_by_hour r !! h) ↔ h ∈ hours_of day_start day_length)
  ∧ (h ∈ hours_of day_start day_length ↔ day_start ≤ h < day_start + day_length).
Proof.
  intros (vars & m & _ & _ & _ & Hextract)%schedule_ok_extract.
  pose proof Hextract
    as (chosen & cov_items & us_items & _ & Hcov & Hus & _ & ->)%extract_inv.
  simpl. split_and!; [split|split|apply elem_of_range].
  - intros Hsome. destruct (decide (h ∈ day)) as [|Hout]; [done|].
    rewrite dict_of_items_lookup_None in Hsome; [by destruct Hsome|].
    by rewrite (collect_values_keys _ _ _ _ Hcov).
  - intros Hh. destruct (collect_values_lookup _ _ _ _ Hcov h Hh) as (v & _ & ->).
    by eexists.
  - intros Hsome. destruct (decide (h ∈ day)) as [|Hout]; [done|].
    rewrite dict_of_items_lookup_None in Hsome; [by destruct Hsome|].
    by rewrite (collect_values_keys _ _ _ _ Hus).
  - intros Hh. destruct (collect_values_lookup _ _ _ _ Hus h Hh) as (v & _ & ->).
    by eexists.
Qed.

(** X3: in a result with status "ok", ["assignments"] has one entry per
    employee, in the order of the input; the entry carries the employee's
    name, and its ["unavailable"] list is sorted, without duplicates, and has
    exactly the employee's unavailable hours. *)
Theorem assignments_follow_employees r :
  (schedule_workers_softmin_hardmax solver employees day_start day_length
     allowed_lengths min_workers max_workers one_shift time_limit).2 = Ok (ok r) →
  length (assignments r) = length employees
  ∧ ∀ i e, employees !! i = Some e →
      ∃ a, assignments r !! i = Some a
           ∧ employee a = name e
           ∧ Sorted Z.le (unavailable_sorted a)
           ∧ NoDup (unavailable_sorted a)
           ∧ ∀ h, h ∈ unavailable_sorted a ↔ h ∈ get_unavailable e.
Proof.
  intros (vars & m & _ & _ & _ & Hextract)%schedule_ok_extract.
  assert (length (assignments r) = length employees) as Hlen.
  { rewrite (length_assignments _ _ _ _ _ _ _ _ _ _ Hextract).
    unfold feasible_of. apply length_feasible_shifts_of. }
  split; [done|]. intros i e He.
  destruct (lookup_lt_is_Some_2 (assignments r) i) as [a Ha].
  { rewrite Hlen. by eapply lookup_lt_Some. }
  destruct (assignment_inv _ _ _ _ _ _ _ _ _ _ _ _ Hextract Ha)
    as (e' & shifts & wh & He' & _ & _ & _ & Hname & _ & Hsorted).
  assert (e' = e) as -> by congruence.
  exists a. rewrite Hsorted. unfold sorted. split_and!; [done|done|..].
  - apply Sorted_merge_sort. apply _.
  - rewrite merge_sort_Permutation. apply NoDup_elements.
  - intros h. rewrite merge_sort_Permutation. apply elem_of_elements.
Qed.

(** X4: a result with status "ok" is never returned for an empty list of
    employees: the maximum of no work-hour variable has no value. *)
Theorem ok_needs_an_employee r :
  (schedule_workers_softmin_hardmax solver employees day_start day_length
     allowed_lengths min_workers max_workers one_shift time_limit).2 = Ok (ok r) →
  employees ≠ [] ∧ assignments r ≠ [].
Proof.
  intros Hr.
  pose proof Hr as (vars & m & _ & Hbuilt & Hsat & Hextract)%(schedule_ok_inv solver solver_sound).
  pose proof (built_max_work _ _ _ _ _ _ _ _ Hbuilt) as Hmax.
  pose proof (built_work_hours_length _ _ _ _ _ _ _ _ Hbuilt) as Hlen.
  apply (satisfies_posted _ _ _ Hsat) in Hmax. simpl in Hmax.
  unfold feasible_of in Hlen. rewrite length_feasible_shifts_of in Hlen.
  assert (employees ≠ []) as Hne.
  { intros ->. by destruct (Vars.work_hours vars). }
  split; [done|]. intros Hnil. apply Hne.
  apply (f_equal length) in Hnil.
  rewrite (length_assignments _ _ _ _ _ _ _ _ _ _ Hextract) in Hnil.
  unfold feasible_of in Hnil. rewrite length_feasible_shifts_of in Hnil.
  by destruct employees.
Qed.

(** X2: in a result with status "ok" the keys of [coverage_by_hour] and of
    [understaff_by_hour] are exactly the hours of the day. *)
Theorem hour_keys_are_the_day r h :
  (schedule_workers_softmin_hardmax solver employees day_start day_length
     allowed_lengths min_workers max_workers one_shift time_limit).2 = Ok (ok r) →
  (is_Some (coverage_by_hour r !! h) ↔ day_start ≤ h < day_start + day_length)
  ∧ (is_Some (understaff_by_hour r !! h) ↔ day_start ≤ h < day_start + day_length).
Proof.
  intros (Hcov & Hus & Hday)%(hour_keys r h). rewrite <- Hday. by split.
Qed.

(** The spread posted on lines 133-138, read back. *)
Lemma spread_inv r :
  run.2 = Ok (ok r) →
  ∃ hi lo,
    list_max (work_hours <$> assignments r) = Some hi
    ∧ list_min (work_hours <$> assignments r) = Some lo
    ∧ fairness_spread r = hi - lo.
Proof.
  intros (vars & m & Hmodel & Hbuilt & Hsat & Hextract)%(schedule_ok_inv solver solver_sound).
  pose proof (built_max_work _ _ _ _ _ _ _ _ Hbuilt) as Hmax.
  pose proof (built_min_work _ _ _ _ _ _ _ _ Hbuilt) as Hmin.
  pose proof (built_spread _ _ _ _ _ _ _ _ Hbuilt) as Hspread.
  apply (satisfies_posted _ _ _ Hsat) in Hmax, Hmin, Hspread.
  simpl in Hmax, Hmin, Hspread.
  rewrite <- list_fmap_compose in Hmax, Hmin.
  rewrite (work_hours_column _ _ _ _ _ _ _ _ _ _ Hextract)
    by apply (built_work_hours_length _ _ _ _ _ _ _ _ Hbuilt).
  eexists _, _. split_and!; [exact Hmax|exact Hmin|].
  apply extract_inv in Hextract as (? & ? & ? & _ & _ & _ & _ & ->). done.
Qed.

(** The reported work hours are values of variables with domain [0, 24]. *)
Lemma work_hours_range r a :
  run.2 = Ok (ok r) → a ∈ assignments r → 0 ≤ work_hours a ≤ 24.
Proof.
  intros (vars & m & _ & Hbuilt & Hsat & Hextract)%(schedule_ok_inv solver solver_sound)
         [i Ha]%list_elem_of_lookup.
  destruct (assignment_inv _ _ _ _ _ _ _ _ _ _ _ _ Hextract Ha)
    as (e & shifts & wh & _ & Hfs & Hwh & _ & _ & -> & _).
  destruct (built_work_hours _ _ _ _ _ _ _ _ Hbuilt i shifts Hfs)
    as (wh' & terms & Hwh' & Hdecl & _).
  assert (wh' = wh) as -> by congruence.
  by apply (satisfies_declared _ _ _ _ _ Hsat) in Hdecl.
Qed.

(** An hour that no feasible shift of any employee covers has coverage 0. *)
Lemma coverage_zero r h :
  run.2 = Ok (ok r) →
  day_start ≤ h < day_start + day_length →
  (∀ i shifts (s : Shift), fshifts !! i = Some shifts → s ∈ shifts → ¬ (s.1 ≤ h < s.2)) →
  coverage_by_hour r !! h = Some 0
  ∧ ∃ u, understaff_by_hour r !! h = Some u ∧ min_workers ≤ u.
Proof.
  intros Hr Hh Hfree.
  destruct (reported_coverage_counts solver solver_sound _ _ _ _ _ _ _ _ r h Hr Hh)
    as (vars & m & _ & Hcov).
  destruct (hour_values r h Hr Hh) as (c & u & Hc & Hu & _ & _ & _ & Hge).
  rewrite Hcov in Hc |- *. rewrite sumZ_zero in Hc |- *.
  - injection Hc as <-. split; [done|]. exists u. split; [done|lia].
  - intros [i shifts] Hin%elem_of_enumerate. simpl.
    rewrite filter_none; [done|]. intros s Hs%selected_subset. by eapply Hfree.
  - intros [i shifts] Hin%elem_of_enumerate. simpl.
    rewrite filter_none; [done|]. intros s Hs%selected_subset. by eapply Hfree.
Qed.

(** X5: when every allowed length exceeds the day length, a result with
    status "ok" schedules nobody: every entry has no shift and 0 work
    hours, the spread is 0, and every hour of the day has coverage 0 and an
    understaff of at least the minimum. *)
Theorem no_fitting_length_assigns_nobody r :
  (∀ L, L ∈ allowed_lengths → day_length < L) →
  (schedule_workers_softmin_hardmax solver employees day_start day_length
     allowed_lengths min_workers max_workers one_shift time_limit).2 = Ok (ok r) →
  (∀ a, a ∈ assignments r → shift a = None ∧ work_hours a = 0)
  ∧ fairness_spread r = 0
  ∧ ∀ h, day_start ≤ h < day_start + day_length →
      coverage_by_hour r !! h = Some 0
      ∧ ∃ u, understaff_by_hour r !! h = Some u ∧ min_workers ≤ u.
Proof.
  intros Hfit Hr.
  assert (∀ i shifts, fshifts !! i = Some shifts → shifts = []) as Hempty.
  { intros i shifts. unfold feasible_of.
    rewrite (build_candidate_shifts_nil _ _ _ Hfit), feasible_shifts_of_lookup.
    destruct (employees !! i); [|done]. by intros [= <-]. }
  assert (∀ a, a ∈ assignments r → shift a = None ∧ work_hours a = 0) as Hrows.
  { intros a [i Ha]%list_elem_of_lookup.
    pose proof Hr as (vars & m & _ & _ & _ & Hextract)%schedule_ok_extract.
    destruct (assignment_inv _ _ _ _ _ _ _ _ _ _ _ _ Hextract Ha)
      as (e & shifts & wh & _ & Hfs & _ & Hfirst & _).
    pose proof (Hempty _ _ Hfs) as ->. simpl in Hfirst.
    destruct (no_feasible_shift_no_work solver solver_sound _ _ _ _ _ _ _ _ r Hr i [] Hfs)
      as (a' & Ha' & Hzero).
    assert (a' = a) as -> by congruence.
    split; [congruence|by apply Hzero]. }
  split; [done|]. split.
  - destruct (spread_inv r Hr) as (hi & lo & Hhi & Hlo & ->).
    apply list_max_spec in Hhi as [(a & -> & Ha)%list_elem_of_fmap _].
    apply list_min_spec in Hlo as [(b & -> & Hb)%list_elem_of_fmap _].
    destruct (Hrows a Ha) as [_ ->]. destruct (Hrows b Hb) as [_ ->]. done.
  - intros h Hh. apply coverage_zero; [done|done|].
    intros i shifts s Hfs Hs. apply Hempty in Hfs as ->. by apply elem_of_nil in Hs.
Qed.

(** X6: an hour of the day at which every employee is unavailable has, in
    every result with status "ok", coverage 0 and an understaff of at least
    [min_workers_per_hour]. *)
Theorem blackout_hour_understaffed r h :
  (∀ e, e ∈ employees → h ∈ get_unavailable e) →
  day_start ≤ h < day_start + day_length →
  (schedule_workers_softmin_hardmax solver employees day_start day_length
     allowed_lengths min_workers max_workers one_shift time_limit).2 = Ok (ok r) →
  coverage_by_hour r !! h = Some 0
  ∧ ∃ u, understaff_by_hour r !! h = Some u ∧ min_workers ≤ u.
Proof.
  intros Hblack Hh Hr. apply coverage_zero; [done|done|].
  intros i shifts [s t] Hfs Hs Hcovers. simpl in Hcovers.
  destruct (employees !! i) as [e|] eqn:He.
  - apply (elem_of_feasible _ _ _ _ _ _ _ He Hfs) in Hs as [_ Hfree].
    apply (Hfree h Hcovers), Hblack. by eapply list_elem_of_lookup_2.
  - unfold feasible_of in Hfs. by rewrite feasible_shifts_of_lookup, He in Hfs.
Qed.

(** X7: in a result with status "ok", the coverage reported for an hour of
    the day is the number of selected shifts that cover it, summed over the
    employees. *)
Theorem coverage_counts_workers r h :
  (schedule_workers_softmin_hardmax solver employees day_start day_length
     allowed_lengths min_workers max_workers one_shift time_limit).2 = Ok (ok r) →
  day_start ≤ h < day_start + day_length →
  ∃ vars m,
    model_of employees day_start day_length allowed_lengths
             min_workers max_workers one_shift = Ok (vars, m)
    ∧ coverage_by_hour r !! h
      = Some (sumZ ((λ q : nat * list Shift,
                       Z.of_nat (length (filter (λ s : Shift, s.1 ≤ h < s.2)
                         (selected (solver time_limit m).2 (Vars.x vars) q.1 q.2))))
                    <$> enumerate
                          (feasible_of employees day_start day_length allowed_lengths))).
Proof. apply reported_coverage_counts, solver_sound. Qed.

(** X8: in a result with status "ok", ["total_understaff"] is the sum of the
    values of ["understaff_by_hour"] over the hours of the day. *)
Theorem total_understaff_is_sum r :
  (schedule_workers_softmin_hardmax solver employees day_start day_length
     allowed_lengths min_workers max_workers one_shift time_limit).2 = Ok (ok r) →
  total_understaff r
  = sumZ ((λ h, default 0 (understaff_by_hour r !! h))
            <$> hours_of day_start day_length).
Proof. apply reported_total_understaff, solver_sound. Qed.

(** With the one-shift constraints, the work hours are those of the shift
    reported. *)
Lemma work_hours_of_shift r a :
  one_shift = true → run.2 = Ok (ok r) → a ∈ assignments r →
  work_hours a = from_option shift_length 0 (shift a).
Proof.
  intros Hflag Hr [i Ha]%list_elem_of_lookup.
  pose proof Hr as (vars & m & Hmodel & Hbuilt & Hsat & Hextract)%(schedule_ok_inv solver solver_sound).
  destruct (assignment_inv _ _ _ _ _ _ _ _ _ _ _ _ Hextract Ha)
    as (e & shifts & wh & _ & Hfs & _ & Hfirst%first_chosen_head & _).
  destruct (work_hours_of_employee solver solver_sound _ _ _ _ _ _ _ _
              r vars m i shifts Hmodel Hr Hfs) as (a' & Ha' & Hsum).
  assert (a' = a) as -> by congruence.
  pose proof (selected_at_most_one vars m i shifts Hflag Hbuilt Hsat Hfs) as Hone.
  unfold selected in *. rewrite Hsum, Hfirst.
  destruct (snd <$> filter _ (enumerate shifts)) as [|s [|s' l]]; simpl in *;
    [done| |lia].
  unfold sumZ. simpl. lia.
Qed.


(** X9: with [max_one_shift_per_employee] true, in a result with status "ok"
    the work hours of an entry are the length of its shift, and 0 when the
    shift is [None]. *)
Theorem work_hours_match_shift r a :
  one_shift = true →
  (schedule_workers_softmin_hardmax solver employees day_start day_length
     allowed_lengths min_workers max_workers one_shift time_limit).2 = Ok (ok r) →
  a ∈ assignments r →
  work_hours a = from_option shift_length 0 (shift a).
Proof. apply work_hours_of_shift. Qed.

(** The fields copied from the arguments. *)
Lemma result_fields r :
  run.2 = Ok (ok r) →
  day_start_hour r = day_start ∧ day_end_hour r = day_start + day_length
  ∧ min_workers_per_hour r = min_workers ∧ max_workers_per_hour r = max_workers.
Proof.
  intros (vars & m & _ & _ & _ & Hextract)%schedule_ok_extract.
  apply extract_inv in Hextract as (? & ? & ? & _ & _ & _ & _ & ->). done.
Qed.

(** A shift reported is a candidate shift. *)
Lemma shift_in_day r a s :
  run.2 = Ok (ok r) → a ∈ assignments r → shift a = Some s →
  day_start ≤ s.1 ∧ s.2 ≤ day_start + day_length ∧ shift_length s ∈ allowed_lengths.
Proof.
  intros (vars & m & _ & _ & _ & Hextract)%schedule_ok_extract
         [i Ha]%list_elem_of_lookup Hshift.
  destruct (assignment_inv _ _ _ _ _ _ _ _ _ _ _ _ Hextract Ha)
    as (emp & feasible & wh & Hemp & Hfs & _ & Hfirst & _).
  rewrite Hshift in Hfirst.
  apply first_chosen_Some in Hfirst as (done & s_idx & rest & v & Hl & _).
  assert (s ∈ feasible) as Hin.
  { apply list_elem_of_lookup. exists s_idx. by eapply enumerate_mid. }
  destruct s as [s0 s1].
  apply (elem_of_feasible _ _ _ _ _ _ _ Hemp Hfs) in Hin as [Hin _].
  apply elem_of_build_candidate_shifts in Hin as (L & HL & -> & ? & ?).
  unfold shift_length. simpl. split_and!; [lia|lia|].
  by replace (s0 + L - s0) with L by lia.
Qed.

(** The result of a call as [run_scheduler] makes it. *)
Lemma core_result_ok r :
  0 ≤ min_workers ≤ max_workers → allowed_lengths = [4; 5] → one_shift = true →
  run.2 = Ok (ok r) → result_ok r.
Proof.
  intros Hbounds Hallowed Hflag Hr.
  destruct (result_fields r Hr) as (Hds & Hde & Hmn & Hmx).
  unfold result_ok. rewrite Hds, Hde, Hmn, Hmx. split_and!; [lia|lia| |].
  - intros h Hh. destruct (hour_values r h Hr Hh) as (c & u & Hc & Hu & ? & ? & ? & ?).
    exists c, u. split_and!; [done|done|lia..].
  - intros a s Ha Hs. destruct (shift_in_day r a s Hr Ha Hs) as (? & ? & HL).
    rewrite (work_hours_of_shift r a Hflag Hr Ha), Hs. simpl.
    split_and!; [done|done| |done].
    rewrite Hallowed in HL. apply list_elem_of_In in HL. simpl in HL.
    destruct HL as [<-|[<-|[]]]; [by left|by right].
Qed.

(** X10: the values of a result with status "ok" are within the domains of
    the variables they come from: a coverage is between 0 and the number of
    employees, an understaff between 0 and 1000, the work hours and the
    spread between 0 and 24, and the total understaff is not negative. *)
Theorem reported_values_bounded r :
  (schedule_workers_softmin_hardmax solver employees day_start day_length
     allowed_lengths min_workers max_workers one_shift time_limit).2 = Ok (ok r) →
  (∀ h c, coverage_by_hour r !! h = Some c → 0 ≤ c ≤ Z.of_nat (length employees))
  ∧ (∀ h u, understaff_by_hour r !! h = Some u → 0 ≤ u ≤ 1000)
  ∧ (∀ a, a ∈ assignments r → 0 ≤ work_hours a ≤ 24)
  ∧ 0 ≤ fairness_spread r ≤ 24
  ∧ 0 ≤ total_understaff r.
Proof.
  intros Hr.
  assert (∀ h u, understaff_by_hour r !! h = Some u → 0 ≤ u ≤ 1000) as Hus.
  { intros h u Hu.
    destruct (hour_keys r h Hr) as (_ & Hkey & Hday).
    assert (day_start ≤ h < day_start + day_length) as Hh.
    { apply Hday, Hkey. by eexists. }
    destruct (hour_values r h Hr Hh) as (c' & u' & _ & Hu' & _ & Hb & _).
    assert (u' = u) as -> by congruence. done. }
  split_and!.
  - intros h c Hc.
    destruct (hour_keys r h Hr) as (Hkey & _ & Hday).
    assert (day_start ≤ h < day_start + day_length) as Hh.
    { apply Hday, Hkey. by eexists. }
    destruct (hour_values r h Hr Hh) as (c' & u' & Hc' & _ & Hb & _).
    assert (c' = c) as -> by congruence. done.
  - done.
  - intros a Ha. by apply (work_hours_range r a Hr Ha).
  - destruct (spread_inv r Hr) as (hi & lo & Hhi & Hlo & ->).
    apply list_max_spec in Hhi as [(a & -> & Ha)%list_elem_of_fmap Hub].
    apply list_min_spec in Hlo as [(b & -> & Hb)%list_elem_of_fmap Hlb].
    assert (work_hours b ≤ work_hours a).
    { apply Hub, list_elem_of_fmap. by exists b. }
    lia.
  - destruct (spread_inv r Hr) as (hi & lo & Hhi & Hlo & ->).
    apply list_max_spec in Hhi as [(a & -> & Ha)%list_elem_of_fmap Hub].
    apply list_min_spec in Hlo as [(b & -> & Hb)%list_elem_of_fmap Hlb].
    pose proof (work_hours_range r a Hr Ha). pose proof (work_hours_range r b Hr Hb).
    lia.
  - rewrite (reported_total_understaff solver solver_sound _ _ _ _ _ _ _ _ r Hr).
    apply sumZ_nonneg. intros u (h & -> & Hh)%list_elem_of_fmap.
    destruct (understaff_by_hour r !! h) as [u|] eqn:Hu; simpl; [|done].
    by apply (Hus h u Hu).
Qed.

End more_core.

(** * Further properties of the helpers *)

Example format_hour_midnight : format_hour 0 = "12:00 AM".
Proof. reflexivity. Qed.

Example format_hour_afternoon : format_hour 15 = "3:00 PM".
Proof. vm_compute. reflexivity. Qed.

Example format_hour_wraps : format_hour 24 = "12:00 AM" ∧ format_hour (-1) = "11:00 PM".
Proof. split; vm_compute; reflexivity. Qed.

(** The hours of one day, as a list. *)
Lemma hour_cases (k : Z) : 0 ≤ k < 24 → k ∈ range 0 24.
Proof. intros Hk. by apply elem_of_range. Qed.

(** X11: [format_hour] is the twelve-hour clock: the number shown is
    [((h mod 24) + 11) mod 12 + 1], between 1 and 12, followed by [":00 AM"]
    for the first twelve hours of the day and [":00 PM"] for the others; it
    depends on the hour modulo 24 only. *)
Theorem format_hour_twelve_hour_clock h :
  format_hour h
  = pretty ((h `mod` 24 + 11) `mod` 12 + 1)
    +:+ (if bool_decide (h `mod` 24 < 12) then ":00 AM" else ":00 PM")
  ∧ 1 ≤ (h `mod` 24 + 11) `mod` 12 + 1 ≤ 12
  ∧ ∀ k, format_hour (h + 24 * k) = format_hour h.
Proof.
  split_and!.
  - unfold format_hour. cbv zeta.
    assert (h `mod` 24 ∈ range 0 24) as Hk by (apply hour_cases, Z.mod_pos_bound; lia).
    revert Hk. generalize (h `mod` 24). intros k Hk.
    assert (Forall (λ k,
      (if bool_decide (k = 0) then "12:00 AM"
       else if bool_decide (k < 12) then pretty k +:+ ":00 AM"
       else if bool_decide (k = 12) then "12:00 PM"
       else pretty (k - 12) +:+ ":00 PM")
      = pretty ((k + 11) `mod` 12 + 1)
        +:+ (if bool_decide (k < 12) then ":00 AM" else ":00 PM")) (range 0 24)) as Hall.
    { apply (bool_decide_unpack _). vm_compute. exact I. }
    rewrite Forall_forall in Hall. by apply Hall.
  - pose proof (Z.mod_pos_bound (h `mod` 24 + 11) 12). lia.
  - pose proof (Z.mod_pos_bound (h `mod` 24 + 11) 12). lia.
  - intros k. unfold format_hour.
    replace ((h + 24 * k) `mod` 24) with (h `mod` 24); [done|].
    rewrite (Z.mul_comm 24 k). by rewrite Z.mod_add.
Qed.

(** X12: two hours get the same label exactly when they are the same hour
    of the day: within one day, labels are distinct. *)
Theorem format_hour_injective a b :
  format_hour a = format_hour b ↔ a `mod` 24 = b `mod` 24.
Proof.
  split.
  - unfold format_hour. cbv zeta.
    assert (a `mod` 24 ∈ range 0 24) as Ha by (apply hour_cases, Z.mod_pos_bound; lia).
    assert (b `mod` 24 ∈ range 0 24) as Hb by (apply hour_cases, Z.mod_pos_bound; lia).
    revert Ha Hb. generalize (a `mod` 24) (b `mod` 24). intros k j Hk Hj.
    assert (Forall (λ k, Forall (λ j,
      (if bool_decide (k = 0) then "12:00 AM"
       else if bool_decide (k < 12) then pretty k +:+ ":00 AM"
       else if bool_decide (k = 12) then "12:00 PM"
       else pretty (k - 12) +:+ ":00 PM")
      = (if bool_decide (j = 0) then "12:00 AM"
         else if bool_decide (j < 12) then pretty j +:+ ":00 AM"
         else if bool_decide (j = 12) then "12:00 PM"
         else pretty (j - 12) +:+ ":00 PM")
      → k = j) (range 0 24)) (range 0 24)) as Hall.
    { apply (bool_decide_unpack _). vm_compute. exact I. }
    rewrite Forall_forall in Hall. specialize (Hall k Hk).
    rewrite Forall_forall in Hall. by apply Hall.
  - intros Hmod. unfold format_hour. by rewrite Hmod.
Qed.

(** ** Counting candidate shifts *)

Lemma length_range a b : Z.of_nat (length (range a b)) = Z.max 0 (b - a).
Proof. unfold range. rewrite length_fmap, length_seq. lia. Qed.

(** X13: the number of candidate shifts is the sum, over the allowed
    lengths [L], of the number of start hours [day_length - L + 1], counted
    as 0 when [L] does not fit. *)
Theorem build_candidate_shifts_count ds dl ls :
  Z.of_nat (length (build_candidate_shifts ds dl ls))
  = sumZ ((λ L, Z.max 0 (dl - L + 1)) <$> ls).
Proof.
  rewrite build_candidate_shifts_unfold. unfold sumZ.
  induction ls as [|L ls IH]; [done|].
  rewrite bind_cons, length_app, Nat2Z.inj_add, fmap_cons, length_fmap, length_range.
  cbn [foldr]. rewrite <- IH. f_equal. f_equal. lia.
Qed.

(** ** Employees without classes, and with more classes *)

(** X14: an employee whose dictionary has no ["unavailable"] key, or an
    empty set under it, keeps every candidate shift. *)
Theorem free_employee_keeps_all_shifts employees all_shifts i e :
  employees !! i = Some e →
  unavailable e = None ∨ unavailable e = Some ∅ →
  feasible_shifts_of employees all_shifts !! i = Some all_shifts.
Proof.
  intros He Hfree. rewrite feasible_shifts_of_lookup, He. simpl. f_equal.
  assert (get_unavailable e = ∅) as -> by (unfold get_unavailable; by destruct Hfree as [-> | ->]).
  induction all_shifts as [|[s t] l IH]; [done|].
  rewrite filter_cons_True, IH; [done|].
  apply not_overlaps_unavailability. intros h _. apply not_elem_of_empty.
Qed.

(** X15: more unavailable hours leave fewer feasible shifts: if the
    unavailable hours of one employee include those of another, the feasible
    shifts of the first are a sublist of those of the second. *)
Theorem more_classes_fewer_shifts employees all_shifts i j e1 e2 f1 f2 :
  employees !! i = Some e1 →
  employees !! j = Some e2 →
  get_unavailable e2 ⊆ get_unavailable e1 →
  feasible_shifts_of employees all_shifts !! i = Some f1 →
  feasible_shifts_of employees all_shifts !! j = Some f2 →
  f1 `sublist_of` f2.
Proof.
  intros He1 He2 Hsub. rewrite !feasible_shifts_of_lookup, He1, He2.
  intros [= <-] [= <-].
  set (P1 := λ s : Shift, ¬ overlaps_unavailability s (get_unavailable e1)).
  set (P2 := λ s : Shift, ¬ overlaps_unavailability s (get_unavailable e2)).
  assert (∀ s, P1 s → P2 s) as Himpl.
  { intros [s t] Hfree. apply not_overlaps_unavailability. intros h Hh Hin.
    apply (proj1 (not_overlaps_unavailability s t _) Hfree h Hh). by apply Hsub. }
  induction all_shifts as [|s l IH]; [done|].
  destruct (decide (P1 s)) as [Hfree|Hbusy].
  - rewrite (filter_cons_True P1), (filter_cons_True P2) by auto.
    by apply sublist_skip.
  - rewrite (filter_cons_False P1) by done.
    destruct (decide (P2 s)).
    + rewrite (filter_cons_True P2) by done. by apply sublist_cons.
    + by rewrite (filter_cons_False P2) by done.
Qed.

(** * Properties of the window *)

(** ** Removing the selected rows *)

Lemma delete_rows_from_0 {A} (idxs : list nat) (rows : list A) :
  delete_rows idxs rows = delete_rows_from 0 idxs rows.
Proof. done. Qed.

Lemma delete_rows_from_cons {A} (n : nat) (idxs : list nat) (row : A) rows :
  delete_rows_from n idxs (row :: rows)
  = (if bool_decide (n ∈ idxs) then [] else [row]) ++ delete_rows_from (S n) idxs rows.
Proof. done. Qed.

Lemma delete_rows_from_ext {A} (n : nat) (idxs1 idxs2 : list nat) (rows : list A) :
  (∀ j, n ≤ j < n + length rows → j ∈ idxs1 ↔ j ∈ idxs2)%nat →
  delete_rows_from n idxs1 rows = delete_rows_from n idxs2 rows.
Proof.
  revert n. induction rows as [|row rows IH]; intros n Hext; [done|].
  rewrite !delete_rows_from_cons. f_equal.
  - rewrite (bool_decide_ext (n ∈ idxs1) (n ∈ idxs2)); [done|].
    apply Hext. simpl. lia.
  - apply IH. intros j Hj. apply Hext. simpl. lia.
Qed.

Lemma delete_rows_from_id {A} (n : nat) (idxs : list nat) (rows : list A) :
  (∀ j, j ∈ idxs → j < n)%nat → delete_rows_from n idxs rows = rows.
Proof.
  revert n. induction rows as [|row rows IH]; intros n Hlt; [done|].
  rewrite delete_rows_from_cons, bool_decide_eq_false_2.
  - simpl. f_equal. apply IH. intros j Hj. apply Hlt in Hj. lia.
  - intros Hn. apply Hlt in Hn. lia.
Qed.

Lemma delete_rows_from_delete {A} (n i : nat) (idxs : list nat) (rows : list A) :
  (∀ j, j ∈ idxs → j < i)%nat → (n ≤ i)%nat → (i - n < length rows)%nat →
  delete_rows_from n idxs (delete (i - n)%nat rows) = delete_rows_from n (i :: idxs) rows.
Proof.
  revert n. induction rows as [|row rows IH]; intros n Hidxs Hn Hlen;
    [simpl in Hlen; lia|].
  destruct (decide (i = n)) as [->|Hne].
  - rewrite Nat.sub_diag. simpl delete.
    rewrite (delete_rows_from_id n idxs rows) by done.
    rewrite delete_rows_from_cons, bool_decide_eq_true_2 by left.
    simpl. symmetry. apply delete_rows_from_id.
    intros j [->|Hj%Hidxs]%elem_of_cons; lia.
  - replace (i - n)%nat with (S (i - S n)) by lia. simpl delete.
    rewrite !delete_rows_from_cons. f_equal.
    + rewrite (bool_decide_ext (n ∈ idxs) (n ∈ i :: idxs)); [done|].
      rewrite elem_of_cons. split; [by right|]. by intros [->|?].
    + apply IH; [done|lia|simpl in Hlen; lia].
Qed.

(** Popping at distinct positions, from the last one down, removes exactly
    the rows at these positions. *)
Lemma pop_all_descending (idxs : list nat) (employees : list Employee) :
  StronglySorted (flip Nat.le) idxs → NoDup idxs →
  pop_all idxs employees = delete_rows idxs employees.
Proof.
  rewrite delete_rows_from_0. unfold pop_all.
  intros Hsorted. revert employees.
  induction Hsorted as [|i idxs Hsorted IH Hhead]; intros employees Hdup.
  - simpl. symmetry. apply delete_rows_from_id. intros j Hj. by apply elem_of_nil in Hj.
  - apply NoDup_cons in Hdup as [Hi Hdup]. simpl foldl.
    assert (∀ j, j ∈ idxs → j < i)%nat as Hlt.
    { intros j Hj. rewrite Forall_forall in Hhead. specialize (Hhead j Hj).
      unfold flip in Hhead. assert (j ≠ i) by (by intros ->). lia. }
    case_bool_decide as Hin.
    + rewrite IH by done.
      pose proof (delete_rows_from_delete 0 i idxs employees Hlt) as Hdel.
      rewrite Nat.sub_0_r in Hdel. apply Hdel; lia.
    + rewrite IH by done. apply delete_rows_from_ext.
      intros j Hj. rewrite elem_of_cons. split; [by right|].
      intros [->|?]; [lia|done].
Qed.

Lemma pop_all_selected (idxs : list nat) (employees : list Employee) :
  NoDup idxs →
  pop_all (reverse (merge_sort Nat.le idxs)) employees = delete_rows idxs employees.
Proof.
  intros Hdup. rewrite pop_all_descending.
  - rewrite !delete_rows_from_0. apply delete_rows_from_ext. intros j _.
    by rewrite elem_of_reverse, merge_sort_Permutation.
  - apply Sorted_StronglySorted; [intros ???; unfold flip; lia|].
    apply Sorted_reverse, Sorted_merge_sort. intros a b; lia.
  - by rewrite reverse_Permutation, merge_sort_Permutation.
Qed.

Lemma delete_rows_fmap {A B} (f : A → B) (idxs : list nat) (rows : list A) :
  delete_rows idxs (f <$> rows) = f <$> delete_rows idxs rows.
Proof.
  rewrite !delete_rows_from_0. generalize 0%nat.
  induction rows as [|row rows IH]; intros n; [done|].
  rewrite fmap_cons, !delete_rows_from_cons, fmap_app, IH.
  by case_bool_decide.
Qed.

(** The rows that are left are those at the positions not selected, in
    their order. *)
Lemma delete_rows_spec {A} (idxs : list nat) (rows : list A) :
  delete_rows idxs rows `sublist_of` rows
  ∧ ∀ row, row ∈ delete_rows idxs rows ↔ ∃ i, (i ∉ idxs) ∧ rows !! i = Some row.
Proof.
  rewrite delete_rows_from_0.
  cut (∀ n,
    delete_rows_from n idxs rows `sublist_of` rows
    ∧ ∀ row, row ∈ delete_rows_from n idxs rows
             ↔ ∃ i, ((n + i)%nat ∉ idxs) ∧ rows !! i = Some row).
  { intros Hgen. apply (Hgen 0%nat). }
  induction rows as [|row rows IH]; intros n.
  { split; [done|]. intros row. split; [by intros ?%elem_of_nil|].
    intros (i & _ & Hi). by rewrite lookup_nil in Hi. }
  rewrite delete_rows_from_cons. destruct (IH (S n)) as [Hsub Hin]. split.
  - case_bool_decide; simpl; [by apply sublist_cons|by apply sublist_skip].
  - intros row'. rewrite elem_of_app, Hin. split.
    + intros [Hhead|(i & Hi & Hrow)].
      * case_bool_decide as Hn; [by apply elem_of_nil in Hhead|].
        apply list_elem_of_singleton in Hhead as ->. exists 0%nat.
        by rewrite Nat.add_0_r.
      * exists (S i). by replace (n + S i)%nat with (S n + i)%nat by lia.
    + intros ([|i] & Hi & Hrow).
      * left. rewrite Nat.add_0_r in Hi. rewrite bool_decide_eq_false_2 by done.
        simpl in Hrow. injection Hrow as ->. left.
      * right. exists i. by replace (S n + i)%nat with (n + S i)%nat by lia.
Qed.

Lemma delete_rows_nil {A} (rows : list A) : delete_rows [] rows = rows.
Proof.
  rewrite delete_rows_from_0. apply delete_rows_from_id.
  intros j Hj. by apply elem_of_nil in Hj.
Qed.

(** ** [remove_selected] *)

Lemma remove_selected_spec (idxs : list nat) (self : Window) :
  NoDup idxs →
  remove_selected idxs self
  = ([], {| ui := with_employees (ui self) (delete_rows idxs (self_employees (ui self)));
            name_var := name_var self; unavail_var := unavail_var self;
            demo_var := demo_var self;
            emp_tree := delete_rows idxs (emp_tree self) |}).
Proof.
  intros Hdup. destruct idxs as [|i idxs].
  - rewrite !delete_rows_nil. by destruct self as [[] ? ? ? ?].
  - unfold remove_selected. by rewrite pop_all_selected.
Qed.

Lemma remove_selected_ok (idxs : list nat) (self : Window) :
  NoDup idxs → employees_ok self → employees_ok (remove_selected idxs self).2.
Proof.
  intros Hdup [Htree Hemp]. rewrite remove_selected_spec by done.
  unfold employees_ok. simpl. split.
  - by rewrite Htree, delete_rows_fmap.
  - intros e He. apply Hemp.
    destruct (delete_rows_spec idxs (self_employees (ui self))) as [_ Hin].
    apply Hin in He as (i & _ & Hi). by apply list_elem_of_lookup_2 in Hi.
Qed.

(** X16: [remove_selected] removes the employees at the positions of the
    selected rows, and nothing else: the employees left are those at the
    other positions, in their order, and so are the rows of the table; a
    table that showed the employees still does.  The stored result is not
    touched. *)
Theorem remove_selected_deletes_rows (idxs : list nat) (self : Window) :
  NoDup idxs →
  (remove_selected idxs self).1 = []
  ∧ self_employees (ui (remove_selected idxs self).2)
    = delete_rows idxs (self_employees (ui self))
  ∧ emp_tree (remove_selected idxs self).2 = delete_rows idxs (emp_tree self)
  ∧ self_employees (ui (remove_selected idxs self).2) `sublist_of` self_employees (ui self)
  ∧ (∀ e, e ∈ self_employees (ui (remove_selected idxs self).2)
          ↔ ∃ i, (i ∉ idxs) ∧ self_employees (ui self) !! i = Some e)
  ∧ self_last_result (ui (remove_selected idxs self).2) = self_last_result (ui self)
  ∧ (employees_ok self → employees_ok (remove_selected idxs self).2).
Proof.
  intros Hdup. split_and!; try (by rewrite remove_selected_spec).
  - rewrite remove_selected_spec by done. simpl. apply delete_rows_spec.
  - rewrite remove_selected_spec by done. simpl. apply delete_rows_spec.
  - by apply remove_selected_ok.
Qed.

(** ** [add_employee] *)

Lemma parse_unavailable_Some (py : Python) (raw : string) (unavailable : gset Z) :
  parse_unavailable py raw = Some unavailable →
  (∀ h, h ∈ unavailable → 0 ≤ h ≤ 23)
  ∧ (∀ h, h ∈ unavailable ↔
          ∃ p, p ∈ split_commas raw ∧ str_strip py p ≠ EmptyString
               ∧ int_of_str py (str_strip py p) = Some h)
  ∧ (∀ p, p ∈ split_commas raw → str_strip py p ≠ EmptyString →
          is_Some (int_of_str py (str_strip py p))).
Proof.
  unfold parse_unavailable. intros Hparse.
  destruct (mapM _ _) as [hours|] eqn:Hhours; simpl in Hparse; [|done].
  case_bool_decide as Hrange; [|done]. injection Hparse as <-.
  apply mapM_Some in Hhours. split_and!.
  - intros h Hh. apply Hrange in Hh. lia.
  - intros h. rewrite elem_of_list_to_set. split.
    + intros Hh. apply list_elem_of_lookup in Hh as [i Hi].
      destruct (Forall2_lookup_r _ _ _ _ _ Hhours Hi) as (q & Hq & Hint).
      apply list_elem_of_lookup_2, list_elem_of_filter in Hq as [Hne Hq].
      apply list_elem_of_fmap in Hq as (p & -> & Hp). by exists p.
    + intros (p & Hp & Hne & Hint).
      assert (str_strip py p
              ∈ filter (λ p, p ≠ EmptyString) (str_strip py <$> split_commas raw))
        as [i Hi]%list_elem_of_lookup.
      { apply list_elem_of_filter. split; [done|]. apply list_elem_of_fmap. by exists p. }
      destruct (Forall2_lookup_l _ _ _ _ _ Hhours Hi) as (h' & Hh' & Hint').
      assert (h' = h) as -> by congruence. by apply list_elem_of_lookup_2 in Hh'.
  - intros p Hp Hne.
    assert (str_strip py p
            ∈ filter (λ p, p ≠ EmptyString) (str_strip py <$> split_commas raw))
      as [i Hi]%list_elem_of_lookup.
    { apply list_elem_of_filter. split; [done|]. apply list_elem_of_fmap. by exists p. }
    destruct (Forall2_lookup_l _ _ _ _ _ Hhours Hi) as (h' & Hh' & Hint'). by exists h'.
Qed.

(** The window after an employee was added. *)
Lemma add_employee_cases (py : Python) (self : Window) :
  (∃ title message,
     add_employee py self = ([core_effect (showerror title message)], self))
  ∨ (∃ unavailable : gset Z,
       str_strip py (name_var self) ≠ EmptyString
       ∧ (if bool_decide (str_strip py (unavail_var self) = EmptyString)
          then unavailable = ∅
          else parse_unavailable py (str_strip py (unavail_var self)) = Some unavailable)
       ∧ add_employee py self
         = ([], {| ui := with_employees (ui self)
                           (self_employees (ui self)
                              ++ [{| name := str_strip py (name_var self);
                                     unavailable := Some unavailable |}]);
                   name_var := EmptyString; unavail_var := EmptyString;
                   demo_var := demo_var self;
                   emp_tree := emp_tree self
                                 ++ [employee_row (str_strip py (name_var self))
                                                  unavailable] |})).
Proof.
  unfold add_employee. cbv zeta.
  case_bool_decide as Hname; [left; by eexists _, _|].
  case_bool_decide as Hraw.
  - right. by exists ∅.
  - destruct (parse_unavailable _ _) as [unavailable|] eqn:Hparse.
    + right. by exists unavailable.
    + left. by eexists _, _.
Qed.

Lemma add_employee_ok (py : Python) (self : Window) :
  employees_ok self → employees_ok (add_employee py self).2.
Proof.
  intros [Htree Hemp].
  destruct (add_employee_cases py self)
    as [(title & message & ->)|(unavailable & Hname & Hhours & ->)]; [done|].
  unfold employees_ok. simpl. split.
  - by rewrite fmap_app, Htree.
  - intros e [He| ->%list_elem_of_singleton]%elem_of_app; [by apply Hemp|].
    split; [done|]. simpl. case_bool_decide.
    + subst unavailable. intros h Hh. by apply elem_of_empty in Hh.
    + by apply parse_unavailable_Some in Hhours as [Hrange _].
Qed.

(** X17: [add_employee] either shows one error and leaves the window as it
    was, or appends one employee and the row that shows it and empties the
    two entry fields.  The employee added has the stripped name, which is
    not empty, and unavailable hours that are all between 0 and 23: none
    when the hours field is blank, and otherwise exactly the integers
    between its commas, every piece that is not blank being an integer.  A
    blank name, a piece that is not an integer or an hour out of this range
    adds nothing. *)
Theorem add_employee_validates (py : Python) (self : Window) :
  (∃ title message,
     add_employee py self = ([core_effect (showerror title message)], self))
  ∨ (∃ unavailable : gset Z,
       add_employee py self
       = ([], {| ui := with_employees (ui self)
                         (self_employees (ui self)
                            ++ [{| name := str_strip py (name_var self);
                                   unavailable := Some unavailable |}]);
                 name_var := EmptyString; unavail_var := EmptyString;
                 demo_var := demo_var self;
                 emp_tree := emp_tree self
                               ++ [employee_row (str_strip py (name_var self))
                                                unavailable] |})
       ∧ str_strip py (name_var self) ≠ EmptyString
       ∧ (∀ h, h ∈ unavailable → 0 ≤ h ≤ 23)
       ∧ (str_strip py (unavail_var self) = EmptyString → unavailable = ∅)
       ∧ (str_strip py (unavail_var self) ≠ EmptyString →
          (∀ h, h ∈ unavailable ↔
                ∃ p, p ∈ split_commas (str_strip py (unavail_var self))
                     ∧ str_strip py p ≠ EmptyString
                     ∧ int_of_str py (str_strip py p) = Some h)
          ∧ ∀ p, p ∈ split_commas (str_strip py (unavail_var self)) →
                 str_strip py p ≠ EmptyString →
                 is_Some (int_of_str py (str_strip py p)))).
Proof.
  destruct (add_employee_cases py self)
    as [Herr|(unavailable & Hname & Hhours & Hadd)]; [by left|].
  right. exists unavailable. split; [done|]. split; [done|].
  case_bool_decide as Hraw.
  - subst unavailable. split_and!; [|done|done].
    intros h Hh. by apply elem_of_empty in Hh.
  - apply parse_unavailable_Some in Hhours as (Hrange & Hexact & Hints).
    split_and!; [done|done|]. intros _. done.
Qed.

(** ** [load_selected_demo] *)

Lemma dict_lookup_Some {V} (d : list (string * V)) key v :
  dict_lookup d key = Some v → (key, v) ∈ d.
Proof.
  induction d as [|[k v'] d IH]; simpl; [done|].
  case_bool_decide as Hk.
  - intros [= ->]. subst k. left.
  - intros Hd. right. by apply IH.
Qed.

(** Every demo dataset has an employee, bounds in order, names that are
    not empty and hours between 0 and 23. *)
Lemma demo_datasets_valid key data :
  dict_lookup DEMO_DATASETS key = Some data →
  data_employees data ≠ []
  ∧ 0 ≤ data_min_cov data ≤ data_max_cov data
  ∧ ∀ e, e ∈ data_employees data →
      name e ≠ EmptyString ∧ ∀ h, h ∈ get_unavailable e → 0 ≤ h ≤ 23.
Proof.
  intros Hkey%dict_lookup_Some.
  assert (Forall (λ kd : string * Dataset,
            data_employees kd.2 ≠ []
            ∧ 0 ≤ data_min_cov kd.2 ≤ data_max_cov kd.2
            ∧ Forall (λ e, name e ≠ EmptyString
                           ∧ set_Forall (λ h, 0 ≤ h ≤ 23) (get_unavailable e))
                     (data_employees kd.2)) DEMO_DATASETS) as Hall.
  { apply (bool_decide_unpack _). vm_compute. exact I. }
  rewrite Forall_forall in Hall. destruct (Hall _ Hkey) as (Hne & Hb & Hemp).
  simpl in Hne, Hb, Hemp.
  split_and!; [done|lia|lia|]. intros e He.
  rewrite Forall_forall in Hemp. destruct (Hemp e He) as [Hname Hhours].
  split; [done|]. intros h Hh. by apply Hhours.
Qed.

(** The loop of lines 427-429 appends the employees and their rows. *)
Lemma load_employees (init : Window) (es : list Employee) :
  foldl (λ self e,
           {| ui := with_employees (ui self)
                      (self_employees (ui self)
                         ++ [{| name := name e;
                                unavailable := Some (get_unavailable e) |}]);
              name_var := name_var self; unavail_var := unavail_var self;
              demo_var := demo_var self;
              emp_tree := emp_tree self
                            ++ [employee_row (name e) (get_unavailable e)] |})
        init es
  = {| ui := with_employees (ui init)
               (self_employees (ui init)
                  ++ ((λ e, {| name := name e;
                               unavailable := Some (get_unavailable e) |}) <$> es));
       name_var := name_var init; unavail_var := unavail_var init;
       demo_var := demo_var init;
       emp_tree := emp_tree init
                     ++ ((λ e, employee_row (name e) (get_unavailable e)) <$> es) |}.
Proof.
  revert init. induction es as [|e es IH]; intros init.
  - simpl. rewrite !app_nil_r. by destruct init as [[] ? ? ? ?].
  - simpl foldl. rewrite IH. simpl. by rewrite <- !app_assoc.
Qed.

Lemma load_selected_demo_Some (self : Window) (data : Dataset) :
  dict_lookup DEMO_DATASETS (demo_var self) = Some data →
  load_selected_demo self
  = ([core_effect results_cleared;
      showinfo "Demo Loaded"
        ("Loaded: " +:+ demo_var self +:+ newline +:+ newline
           +:+ "Click 'Run Scheduler' to generate the schedule.")],
     {| ui := {| self_employees :=
                   (λ e, {| name := name e;
                            unavailable := Some (get_unavailable e) |})
                     <$> data_employees data;
                 self_last_result := None;
                 day_start_var := data_day_start data;
                 day_length_var := data_day_length data;
                 min_cov_var := data_min_cov data;
                 max_cov_var := data_max_cov data |};
        name_var := name_var self; unavail_var := unavail_var self;
        demo_var := demo_var self;
        emp_tree := (λ e, employee_row (name e) (get_unavailable e))
                      <$> data_employees data |}).
Proof.
  intros Hdata. unfold load_selected_demo. cbv zeta. rewrite Hdata.
  unfold clear_all. rewrite load_employees. done.
Qed.

Lemma load_selected_demo_ok (self : Window) :
  employees_ok self → employees_ok (load_selected_demo self).2.
Proof.
  intros Hok.
  destruct (dict_lookup DEMO_DATASETS (demo_var self)) as [data|] eqn:Hdata.
  - rewrite (load_selected_demo_Some self data Hdata). unfold employees_ok. simpl.
    split.
    + rewrite <- list_fmap_compose. by apply list_fmap_ext.
    + intros e (e' & -> & He')%list_elem_of_fmap.
      destruct (demo_datasets_valid _ _ Hdata) as (_ & _ & Hvalid).
      by apply (Hvalid e').
  - unfold load_selected_demo. cbv zeta. by rewrite Hdata.
Qed.

(** X18: [load_selected_demo] with a key that is not a demo does nothing.
    With the key of a demo it replaces the employees and the table by
    those of the dataset, sets the four numbers of the configuration,
    drops the stored result and shows one dialog; the entry fields are
    not touched.  The window it leaves passes the checks of
    [run_scheduler]: a click on Run then reaches the solver. *)
Theorem load_selected_demo_replaces (solver : CpSolver) (self : Window) :
  match dict_lookup DEMO_DATASETS (demo_var self) with
  | None => load_selected_demo self = ([], self)
  | Some data =>
      (load_selected_demo self).1
      = [core_effect results_cleared;
         showinfo "Demo Loaded"
           ("Loaded: " +:+ demo_var self +:+ newline +:+ newline
              +:+ "Click 'Run Scheduler' to generate the schedule.")]
      ∧ ui (load_selected_demo self).2
        = {| self_employees :=
               (λ e, {| name := name e; unavailable := Some (get_unavailable e) |})
                 <$> data_employees data;
             self_last_result := None;
             day_start_var := data_day_start data;
             day_length_var := data_day_length data;
             min_cov_var := data_min_cov data;
             max_cov_var := data_max_cov data |}
      ∧ emp_tree (load_selected_demo self).2
        = (λ e, employee_row (name e) (get_unavailable e)) <$> data_employees data
      ∧ name_var (load_selected_demo self).2 = name_var self
      ∧ unavail_var (load_selected_demo self).2 = unavail_var self
      ∧ demo_var (load_selected_demo self).2 = demo_var self
      ∧ builds_model (run_scheduler solver (ui (load_selected_demo self).2)).1
      ∧ calls_solver (run_scheduler solver (ui (load_selected_demo self).2)).1
  end.
Proof.
  destruct (dict_lookup DEMO_DATASETS (demo_var self)) as [data|] eqn:Hdata.
  - rewrite (load_selected_demo_Some self data Hdata). simpl.
    split_and!; [done..| |];
      destruct (demo_datasets_valid _ _ Hdata) as (Hne & Hb & _);
      apply run_scheduler_calls_core; simpl; try done;
      by destruct (data_employees data).
  - unfold load_selected_demo. cbv zeta. by rewrite Hdata.
Qed.

(** ** [run_scheduler] in the window *)

Section window.
Variable solver : CpSolver.

(** What a call of [run_scheduler] can do to the state. *)
Lemma run_scheduler_inv (self : SchedulerUI) :
  rejected (run_scheduler solver self) self
  ∨ (self_employees self ≠ [] ∧ 0 ≤ min_cov_var self ≤ max_cov_var self
     ∧ ∃ m o,
         (schedule_workers_softmin_hardmax solver (self_employees self)
            (day_start_var self) (day_length_var self) [4; 5]
            (min_cov_var self) (max_cov_var self) true 10%Q)
         = ([CpModel_created; Solve_called m], Ok o)
         ∧ run_scheduler solver self
           = match o with
             | no_solution =>
                 ([CpModel_created; Solve_called m; results_cleared;
                   showerror "No solution"
                     "Solver did not find a schedule (unexpected with soft min)."],
                  Ok (set_last_result self None))
             | ok r =>
                 ([CpModel_created; Solve_called m; results_cleared;
                   results_rendered r],
                  Ok (set_last_result self (Some r)))
             end).
Proof.
  unfold run_scheduler, rejected. cbv zeta.
  case_bool_decide as Hemp; [left; by eexists _, _|].
  case_bool_decide as Hneg; [left; by eexists _, _|].
  case_bool_decide as Hcross; [left; by eexists _, _|].
  right. split; [by destruct (self_employees self)|]. split; [lia|].
  destruct (schedule_effects solver (self_employees self) (day_start_var self)
              (day_length_var self) [4; 5] (min_cov_var self) (max_cov_var self)
              true 10%Q) as (vars & m & _ & Heff).
  destruct (schedule_never_raises solver (self_employees self) (day_start_var self)
              (day_length_var self) [4; 5] (min_cov_var self) (max_cov_var self)
              true 10%Q) as [o Ho].
  destruct (schedule_workers_softmin_hardmax _ _ _ _ _ _ _ _ _)
    as [effects result]. simpl in Heff, Ho. subst effects result.
  exists m, o. split; [done|]. by destruct o.
Qed.


(** ** What holds in every window that can be reached *)

Lemma step_employees_ok (py : Python) (a : Action) (w : Window) :
  possible a → employees_ok w → employees_ok (step solver py a w).2.
Proof.
  intros Ha Hok. destruct a; simpl; try done.
  - by apply add_employee_ok.
  - by apply remove_selected_ok.
  - split; [done|]. intros e He. by apply elem_of_nil in He.
  - by apply load_selected_demo_ok.
  - destruct (run_scheduler_inv (ui w))
      as [(title & message & ->)|(_ & _ & m & o & _ & ->)]; [done|].
    by destruct o.
Qed.

Lemma reachable_employees_ok (py : Python) (w : Window) :
  reachable solver py w → employees_ok w.
Proof.
  induction 1 as [|w a Hw IH Ha].
  - split; [done|]. intros e He. by apply elem_of_nil in He.
  - by apply step_employees_ok.
Qed.

Hypothesis solver_sound : sound solver.

Lemma step_result_ok (py : Python) (a : Action) (w : Window) :
  (∀ r, self_last_result (ui w) = Some r → result_ok r) →
  ∀ r, self_last_result (ui (step solver py a w).2) = Some r → result_ok r.
Proof.
  intros Hok r. destruct a; unfold step; cbv beta iota zeta;
    try (simpl; apply Hok).
  - destruct (add_employee_cases py w)
      as [(title & message & ->)|(unavailable & _ & _ & ->)]; simpl; apply Hok.
  - unfold remove_selected. destruct selected_rows; simpl; apply Hok.
  - done.
  - unfold load_selected_demo. cbv zeta.
    destruct (dict_lookup DEMO_DATASETS (demo_var w)) as [data|] eqn:Hdata;
      [|apply Hok].
    pose proof (load_selected_demo_Some w data Hdata) as Hload.
    unfold load_selected_demo in Hload. cbv zeta in Hload. rewrite Hdata in Hload.
    by rewrite Hload.
  - destruct (run_scheduler_inv (ui w))
      as [(title & message & ->)|(_ & Hb & m & o & Hcore & ->)]; [apply Hok|].
    destruct o as [|r']; simpl; [done|]. intros [= ->].
    apply (core_result_ok solver solver_sound (self_employees (ui w))
             (day_start_var (ui w)) (day_length_var (ui w)) [4; 5]
             (min_cov_var (ui w)) (max_cov_var (ui w)) true 10%Q r);
      [done|done|done|]. by rewrite Hcore.
Qed.

Lemma reachable_result_ok (py : Python) (w : Window) (r : Schedule) :
  reachable solver py w → self_last_result (ui w) = Some r → result_ok r.
Proof.
  intros Hw. revert r. induction Hw as [|w a Hw IH Ha]; [done|].
  by apply step_result_ok.
Qed.

End window.

(** X20: in every window that can be reached from the opening window, the
    table shows the employees: row [i] is the name of employee [i] and the
    employee's unavailable hours, in increasing order, joined by commas;
    and every employee has a name that is not empty and unavailable hours
    between 0 and 23. *)
Theorem table_shows_employees (solver : CpSolver) (py : Python) (w : Window) :
  reachable solver py w →
  emp_tree w
  = (λ e, (name e, join "," (pretty <$> sorted (get_unavailable e))))
      <$> self_employees (ui w)
  ∧ ∀ e, e ∈ self_employees (ui w) →
      name e ≠ EmptyString ∧ ∀ h, h ∈ get_unavailable e → 0 ≤ h ≤ 23.
Proof. apply reachable_employees_ok. Qed.

(** X21: with a solver that meets its contract, the result stored in a
    window that can be reached is consistent, whatever was edited since the
    run: its bounds are in order, every hour of its day has a coverage
    between 0 and its maximum and an understaff that is not negative and
    fills the gap to its minimum, and every shift in it lies within its day,
    lasts 4 or 5 hours, and is as long as the work hours beside it. *)
Theorem stored_result_is_consistent (solver : CpSolver) (py : Python)
    (w : Window) (r : Schedule) :
  sound solver → reachable solver py w → self_last_result (ui w) = Some r →
  result_ok r.
Proof. intros Hsound. by apply reachable_result_ok. Qed.

(** ** The coverage written to the file and to the text view *)

Lemma range_lookup a b (i : nat) h : range a b !! i = Some h → h = a + Z.of_nat i.
Proof.
  unfold range. rewrite list_lookup_fmap.
  destruct (seq 0 (Z.to_nat (b - a)) !! i) as [j|] eqn:Hj; [|done].
  apply lookup_seq in Hj as [-> _]. by intros [= <-].
Qed.

(** With a value for every hour, one row is written per hour, and no
    [KeyError] is raised. *)
Lemma csv_rows_total (result : Schedule) (hours : list Z) (written : list (list string)) :
  (∀ h, h ∈ hours → is_Some (coverage_by_hour result !! h)
                    ∧ is_Some (understaff_by_hour result !! h)) →
  ∃ rows,
    csv_rows result hours written = (written ++ rows, None)
    ∧ Forall2 (λ h row,
                 ∃ cov short,
                   coverage_by_hour result !! h = Some cov
                   ∧ understaff_by_hour result !! h = Some short
                   ∧ row = [pretty h; pretty (h + 1);
                            format_hour h; format_hour (h + 1);
                            pretty cov; pretty short;
                            pretty (min_workers_per_hour result);
                            pretty (max_workers_per_hour result)])
              hours rows.
Proof.
  revert written. induction hours as [|h hours IH]; intros written Hkeys.
  - exists []. by rewrite app_nil_r.
  - destruct (Hkeys h) as [[cov Hcov] [short Hshort]]; [left|].
    simpl. rewrite Hcov, Hshort.
    destruct (IH (written ++ [[pretty h; pretty (h + 1);
                               format_hour h; format_hour (h + 1);
                               pretty cov; pretty short;
                               pretty (min_workers_per_hour result);
                               pretty (max_workers_per_hour result)]]))
      as (rows & -> & Hrows).
    { intros h' Hh'. apply Hkeys. by right. }
    eexists (_ :: rows). rewrite <- app_assoc. split; [done|].
    constructor; [|done]. by exists cov, short.
Qed.

Lemma coverage_lines_total (result : Schedule) (hours : list Z)
    (inserted : list (string * bool)) :
  (∀ h, h ∈ hours → is_Some (coverage_by_hour result !! h)
                    ∧ is_Some (understaff_by_hour result !! h)) →
  ∃ lines,
    coverage_lines result hours inserted = (inserted ++ lines, None)
    ∧ Forall2 (λ h (line : string * bool),
                 ∃ cov short,
                   coverage_by_hour result !! h = Some cov
                   ∧ understaff_by_hour result !! h = Some short
                   ∧ line.2 = bool_decide (short > 0)
                   ∧ line.1
                     = if line.2
                       then ("  " +:+ format_hour h +:+ " – " +:+ format_hour (h + 1)
                               +:+ " : " +:+ pretty cov +:+ " worker(s)")
                              +:+ "   UNDERSTAFF +" +:+ pretty short +:+ newline
                       else ("  " +:+ format_hour h +:+ " – " +:+ format_hour (h + 1)
                               +:+ " : " +:+ pretty cov +:+ " worker(s)")
                              +:+ newline)
              hours lines.
Proof.
  revert inserted. induction hours as [|h hours IH]; intros inserted Hkeys.
  - exists []. by rewrite app_nil_r.
  - destruct (Hkeys h) as [[cov Hcov] [short Hshort]]; [left|].
    simpl. rewrite Hcov, Hshort. cbv zeta.
    assert (∀ h', h' ∈ hours → is_Some (coverage_by_hour result !! h')
                               ∧ is_Some (understaff_by_hour result !! h')) as Hrest.
    { intros h' Hh'. apply Hkeys. by right. }
    destruct (bool_decide (short > 0)) eqn:Hpos.
    + destruct (IH (inserted ++
                [(("  " +:+ format_hour h +:+ " – " +:+ format_hour (h + 1)
                     +:+ " : " +:+ pretty cov +:+ " worker(s)")
                    +:+ "   UNDERSTAFF +" +:+ pretty short +:+ newline, true)]) Hrest)
        as (lines & -> & Hlines).
      eexists (_ :: lines). rewrite <- app_assoc. split; [done|].
      constructor; [|done]. exists cov, short. simpl. by rewrite Hpos.
    + destruct (IH (inserted ++
                [(("  " +:+ format_hour h +:+ " – " +:+ format_hour (h + 1)
                     +:+ " : " +:+ pretty cov +:+ " worker(s)")
                    +:+ newline, false)]) Hrest)
        as (lines & -> & Hlines).
      eexists (_ :: lines). rewrite <- app_assoc. split; [done|].
      constructor; [|done]. exists cov, short. simpl. by rewrite Hpos.
Qed.

(** X22: in a window that can be reached and stores a result, with a solver
    that meets its contract, an export to a chosen path that the file
    system accepts never fails: the file gets the header and then exactly
    one row for each hour of the day of the result, in order, with the
    hour, the next hour, their two labels, the coverage, the understaff and
    the two bounds; the values in a row respect the bounds in it.
    "Export complete" is shown. *)
Theorem export_writes_every_hour (solver : CpSolver) (py : Python) (w : Window)
    (r : Schedule) (path : string) :
  sound solver → reachable solver py w → self_last_result (ui w) = Some r →
  path ≠ EmptyString →
  ∃ rows,
    export_coverage_csv path None w
    = [csv_written path (csv_header :: rows);
       showinfo "Export complete" ("Saved coverage CSV:" +:+ newline +:+ path)]
    ∧ length rows = Z.to_nat (day_end_hour r - day_start_hour r)
    ∧ ∀ (i : nat) row, rows !! i = Some row →
        ∃ cov short,
          coverage_by_hour r !! (day_start_hour r + Z.of_nat i) = Some cov
          ∧ understaff_by_hour r !! (day_start_hour r + Z.of_nat i) = Some short
          ∧ row = [pretty (day_start_hour r + Z.of_nat i);
                   pretty (day_start_hour r + Z.of_nat i + 1);
                   format_hour (day_start_hour r + Z.of_nat i);
                   format_hour (day_start_hour r + Z.of_nat i + 1);
                   pretty cov; pretty short;
                   pretty (min_workers_per_hour r);
                   pretty (max_workers_per_hour r)]
          ∧ 0 ≤ cov ≤ max_workers_per_hour r
          ∧ 0 ≤ short ∧ min_workers_per_hour r ≤ cov + short.
Proof.
  intros Hsound Hw Hr Hpath.
  destruct (reachable_result_ok solver Hsound py w r Hw Hr) as (_ & Hhours & _).
  destruct (csv_rows_total r (range (day_start_hour r) (day_end_hour r)) [csv_header])
    as (rows & Hrows & Hall).
  { intros h Hh%elem_of_range. destruct (Hhours h Hh) as (c & u & -> & -> & _).
    by split. }
  exists rows. unfold export_coverage_csv. rewrite Hr, bool_decide_eq_false_2 by done.
  rewrite Hrows. split_and!; [done| |].
  - apply Forall2_length in Hall. rewrite <- Hall.
    pose proof (length_range (day_start_hour r) (day_end_hour r)). lia.
  - intros i row Hrow.
    destruct (Forall2_lookup_r _ _ _ _ _ Hall Hrow)
      as (h & Hh & cov & short & Hcov & Hshort & ->).
    pose proof (range_lookup _ _ _ _ Hh) as ->.
    apply list_elem_of_lookup_2, elem_of_range in Hh.
    destruct (Hhours _ Hh) as (c & u & Hc & Hu & ? & ? & ?).
    exists cov, short. split_and!; [done|done|done|..];
      assert (c = cov) by congruence; assert (u = short) by congruence; lia.
Qed.

(** X23: the coverage summary that [run_scheduler] writes for a result has,
    after its header, one line for each hour of the day, in order, and no
    key is missing.  The line of an hour carries the red tag, and the text
    UNDERSTAFF, exactly when the understaff of that hour is positive; with
    a solver that meets its contract, every hour whose coverage is below
    the minimum has both. *)
Theorem coverage_report_marks_understaffed (solver : CpSolver)
    (employees : list Employee) (day_start day_length : Z) (allowed_lengths : list Z)
    (min_workers max_workers : Z) (one_shift : bool) (time_limit : Q) (r : Schedule) :
  sound solver →
  (schedule_workers_softmin_hardmax solver employees day_start day_length
     allowed_lengths min_workers max_workers one_shift time_limit).2 = Ok (ok r) →
  ∃ lines,
    coverage_report day_start r = ((coverage_header r, false) :: lines, None)
    ∧ length lines = Z.to_nat day_length
    ∧ ∀ (i : nat) text tagged, lines !! i = Some (text, tagged) →
        ∃ cov short,
          coverage_by_hour r !! (day_start + Z.of_nat i) = Some cov
          ∧ understaff_by_hour r !! (day_start + Z.of_nat i) = Some short
          ∧ (tagged = true ↔ 0 < short)
          ∧ (cov < min_workers → tagged = true)
          ∧ text
            = if tagged
              then ("  " +:+ format_hour (day_start + Z.of_nat i) +:+ " – "
                      +:+ format_hour (day_start + Z.of_nat i + 1)
                      +:+ " : " +:+ pretty cov +:+ " worker(s)")
                     +:+ "   UNDERSTAFF +" +:+ pretty short +:+ newline
              else ("  " +:+ format_hour (day_start + Z.of_nat i) +:+ " – "
                      +:+ format_hour (day_start + Z.of_nat i + 1)
                      +:+ " : " +:+ pretty cov +:+ " worker(s)")
                     +:+ newline.
Proof.
  intros Hsound Hr.
  destruct (result_fields solver employees day_start day_length allowed_lengths
              min_workers max_workers one_shift time_limit r Hr) as (_ & Hde & _).
  destruct (coverage_lines_total r (range day_start (day_end_hour r))
              [(coverage_header r, false)]) as (lines & Hlines & Hall).
  { intros h Hh%elem_of_range. rewrite Hde in Hh.
    destruct (hour_values solver Hsound employees day_start day_length allowed_lengths
                min_workers max_workers one_shift time_limit r h Hr Hh)
      as (c & u & -> & -> & _). by split. }
  exists lines. unfold coverage_report. rewrite Hlines. split_and!; [done| |].
  - apply Forall2_length in Hall. rewrite <- Hall, Hde.
    pose proof (length_range day_start (day_start + day_length)). lia.
  - intros i text tagged Hline.
    destruct (Forall2_lookup_r _ _ _ _ _ Hall Hline)
      as (h & Hh & cov & short & Hcov & Hshort & Htag & Htext).
    pose proof (range_lookup _ _ _ _ Hh) as ->.
    apply list_elem_of_lookup_2, elem_of_range in Hh. rewrite Hde in Hh.
    destruct (hour_values solver Hsound employees day_start day_length allowed_lengths
                min_workers max_workers one_shift time_limit r _ Hr Hh)
      as (c & u & Hc & Hu & ? & ? & ? & ?).
    assert (c = cov) by congruence. assert (u = short) by congruence.
    simpl in Htag, Htext. exists cov, short. split_and!; [done|done| | |done].
    + rewrite Htag. rewrite bool_decide_eq_true. lia.
    + intros Hlow. rewrite Htag. apply bool_decide_eq_true. lia.
Qed.

(** * What the weights of the objective buy *)

Lemma sum_over_bounds (Value : IntVar → Z) (d : gmap Z IntVar) (hours : list Z) lo hi :
  (∀ h, h ∈ hours → ∃ v, d !! h = Some v ∧ lo ≤ Value v ≤ hi) →
  lo * Z.of_nat (length hours) ≤ sum_over Value d hours ≤ hi * Z.of_nat (length hours).
Proof.
  unfold sum_over, sumZ. induction hours as [|h hours IH]; intros Hall.
  - simpl. lia.
  - rewrite fmap_cons. cbn [foldr length].
    destruct (Hall h) as (v & -> & Hv); [left|]. simpl from_option.
    assert (lo * Z.of_nat (length hours)
            ≤ foldr Z.add 0 ((λ h0, from_option Value 0 (d !! h0)) <$> hours)
            ≤ hi * Z.of_nat (length hours)) as Hrest.
    { apply IH. intros h' Hh'. apply Hall. by right. }
    lia.
Qed.

(** The domains of the three variables of the objective (lines 137, 141
    and 145). *)
Lemma build_model_domains employees fs hours mn mx one_shift m :
  yields (build_model employees fs hours mn mx one_shift) m
         (λ vars m', declared m' (Vars.spread vars) 0 24
                     ∧ declared m' (Vars.total_coverage vars) 0 10000
                     ∧ declared m' (Vars.total_understaff vars) 0 10000).
Proof.
  unfold build_model.
  eapply yields_bind; [apply decision_vars_spec|].
  intros x m1 Hext1 [Hbool Hkeys].
  eapply yields_bind.
  { instantiate (1 := λ _ _, True).
    destruct one_shift.
    - eapply yields_mono; [by apply one_shift_constraints_spec|]. done.
    - by apply yields_ret. }
  intros [] m2 Hext2 _.
  eapply yields_bind; [by apply coverage_constraints_spec|].
  intros [cv us] m3 Hext3 Hhours.
  eapply yields_bind; [by apply work_hour_vars_spec|].
  intros whs m4 Hext4 _.
  eapply yields_bind; [apply yields_NewIntVar_declared|].
  intros max_work m5 Hext5 _.
  eapply yields_bind; [apply yields_NewIntVar_declared|].
  intros min_work m6 Hext6 _.
  eapply yields_bind; [apply yields_Add_posted|].
  intros [] m7 Hext7 _.
  eapply yields_bind; [apply yields_Add_posted|].
  intros [] m8 Hext8 _.
  eapply yields_bind; [apply yields_NewIntVar_declared|].
  intros spread m9 Hext9 Hspread.
  eapply yields_bind; [apply yields_Add_posted|].
  intros [] m10 Hext10 _.
  eapply yields_bind; [apply yields_NewIntVar_declared|].
  intros total_coverage m11 Hext11 Htc.
  destruct (var_terms_total cv hours) as [cov_terms Hcov_terms].
  { intros h Hh. destruct (Hhours h Hh) as (cov & u & Hc & _). by exists cov. }
  eapply yields_bind; [by apply yields_lift_eq|].
  intros ? m12 Hext12 ->.
  eapply yields_bind; [apply yields_Add_posted|].
  intros [] m13 Hext13 _.
  eapply yields_bind; [apply yields_NewIntVar_declared|].
  intros total_understaff m14 Hext14 Htu.
  destruct (var_terms_total us hours) as [us_terms Hus_terms].
  { intros h Hh. destruct (Hhours h Hh) as (cov & u & _ & Hu & _). by exists u. }
  eapply yields_bind; [by apply yields_lift_eq|].
  intros ? m15 Hext15 ->.
  eapply yields_bind; [apply yields_Add_posted|].
  intros [] m16 Hext16 _.
  eapply yields_bind; [apply yields_Minimize_objective|].
  intros [] m17 Hext17 _.
  simpl in Hspread, Htc, Htu. apply yields_ret. simpl. split_and!.
  - eapply declared_extends; [|exact Hspread]. chain_extends.
  - eapply declared_extends; [|exact Htc]. chain_extends.
  - eapply declared_extends; [|exact Htu]. chain_extends.
Qed.

Lemma model_of_domains employees day_start day_length allowed_lengths
    min_workers max_workers one_shift vars m :
  model_of employees day_start day_length allowed_lengths
           min_workers max_workers one_shift = Ok (vars, m) →
  declared m (Vars.spread vars) 0 24
  ∧ declared m (Vars.total_coverage vars) 0 10000
  ∧ declared m (Vars.total_understaff vars) 0 10000.
Proof.
  unfold model_of. intros Hmodel.
  destruct (build_model_domains employees
              (feasible_of employees day_start day_length allowed_lengths)
              (hours_of day_start day_length) min_workers max_workers one_shift
              new_CpModel) as (vars' & m' & Hbuild & _ & Hdom).
  rewrite Hmodel in Hbuild. by injection Hbuild as <- <-.
Qed.

Section priority.
Variable employees : list Employee.
Variables day_start day_length : Z.
Variable allowed_lengths : list Z.
Variables min_workers max_workers : Z.
Variable one_shift : bool.
Variable vars : Vars.t.
Variable m : CpModel.
Hypothesis built :
  Built (feasible_of employees day_start day_length allowed_lengths) (length employees)
        (hours_of day_start day_length) min_workers max_workers one_shift vars m.
Variable Value : IntVar → Z.
Hypothesis solution : satisfies Value m.

(** In a solution the total coverage is between 0 and the maximum times the
    number of hours. *)
Lemma solution_total_coverage :
  0 ≤ Value (Vars.total_coverage vars)
  ∧ (Value (Vars.total_coverage vars) = 0
     ∨ Value (Vars.total_coverage vars) ≤ max_workers * day_length).
Proof.
  destruct (built_total_coverage _ _ _ _ _ _ _ _ built) as (ct & Hct & Hpc).
  apply (satisfies_posted _ _ _ solution) in Hpc. simpl in Hpc.
  rewrite eval_py_sum, (sum_over_var_terms _ _ _ _ Hct) in Hpc. rewrite Hpc.
  pose proof (sum_over_bounds Value (Vars.coverage_vars vars)
                (hours_of day_start day_length) 0 max_workers) as Hsum.
  destruct Hsum as [Hlo Hhi].
  { intros h Hh.
    destruct (built_hours _ _ _ _ _ _ _ _ built h Hh)
      as (cov & u & Hcov & _ & Hdc & _ & Hle & _).
    apply (satisfies_posted _ _ _ solution) in Hle. simpl in Hle.
    apply (satisfies_declared _ _ _ _ _ solution) in Hdc.
    exists cov. split; [done|lia]. }
  split; [lia|].
  pose proof (length_range day_start (day_start + day_length)) as Hlen.
  unfold hours_of in *.
  destruct (decide (day_length ≤ 0)) as [Hempty|Hday].
  - left. replace (Z.of_nat (length (range day_start (day_start + day_length))))
      with 0 in * by lia. lia.
  - right. replace (Z.of_nat (length (range day_start (day_start + day_length))))
      with day_length in * by lia. done.
Qed.

(** In a solution the spread is between 0 and 24. *)
Lemma solution_spread : 0 ≤ Value (Vars.spread vars) ≤ 24.
Proof.
  pose proof (built_max_work _ _ _ _ _ _ _ _ built) as Hmax.
  pose proof (built_min_work _ _ _ _ _ _ _ _ built) as Hmin.
  pose proof (built_spread _ _ _ _ _ _ _ _ built) as Hspread.
  apply (satisfies_posted _ _ _ solution) in Hmax, Hmin, Hspread.
  simpl in Hmax, Hmin, Hspread.
  rewrite <- list_fmap_compose in Hmax, Hmin.
  assert (∀ b, b ∈ (eval Value ∘ LVar) <$> Vars.work_hours vars → 0 ≤ b ≤ 24) as Hrange.
  { intros b (wh & -> & [i Hi]%list_elem_of_lookup)%list_elem_of_fmap. simpl.
    assert (is_Some (feasible_of employees day_start day_length allowed_lengths !! i))
      as [shifts Hfs].
    { apply lookup_lt_is_Some.
      rewrite <- (built_work_hours_length _ _ _ _ _ _ _ _ built).
      by eapply lookup_lt_Some. }
    destruct (built_work_hours _ _ _ _ _ _ _ _ built i shifts Hfs)
      as (wh' & terms & Hwh' & Hdecl & _).
    assert (wh' = wh) as -> by congruence.
    by apply (satisfies_declared _ _ _ _ _ solution) in Hdecl. }
  apply list_max_spec in Hmax as [Hhi Hub].
  apply list_min_spec in Hmin as [Hlo Hlb].
  pose proof (Hrange _ Hhi). pose proof (Hrange _ Hlo).
  pose proof (Hub _ Hlo). lia.
Qed.

End priority.

(** X24: if the valuation that the solver returns is optimal for the model,
    which is what the status OPTIMAL says, then understaffing comes first:
    no solution of the model has a smaller total understaff than the one
    reported, for the spread is at most 24 and the total coverage at most
    10000, which the weight 100000 outweighs.  When moreover
    [max_workers_per_hour * day_length_hours] is below 1000, no solution
    with the same total understaff has a smaller spread, and none with the
    same understaff and spread has a smaller total coverage. *)
Theorem understaff_is_minimised_first (solver : CpSolver) (employees : list Employee)
    (day_start day_length : Z) (allowed_lengths : list Z)
    (min_workers max_workers : Z) (one_shift : bool) (time_limit : Q)
    (vars : Vars.t) (m : CpModel) (r : Schedule) :
  sound solver →
  model_of employees day_start day_length allowed_lengths
           min_workers max_workers one_shift = Ok (vars, m) →
  (schedule_workers_softmin_hardmax solver employees day_start day_length
     allowed_lengths min_workers max_workers one_shift time_limit).2 = Ok (ok r) →
  (∀ Value', satisfies Value' m →
     eval (solver time_limit m).2 (objective_of vars) ≤ eval Value' (objective_of vars)) →
  ∀ Value', satisfies Value' m →
    total_understaff r ≤ Value' (Vars.total_understaff vars)
    ∧ (max_workers * day_length < 1000 →
       total_understaff r = Value' (Vars.total_understaff vars) →
       fairness_spread r ≤ Value' (Vars.spread vars)
       ∧ (fairness_spread r = Value' (Vars.spread vars) →
          (solver time_limit m).2 (Vars.total_coverage vars)
          ≤ Value' (Vars.total_coverage vars))).
Proof.
  intros Hsound Hmodel Hr Hopt Value' Hsat'.
  destruct (schedule_ok_inv solver Hsound employees day_start day_length
              allowed_lengths min_workers max_workers one_shift time_limit r Hr)
    as (vars0 & m0 & Hmodel0 & Hbuilt & Hsat & Hextract).
  rewrite Hmodel in Hmodel0. injection Hmodel0 as <- <-.
  apply extract_inv in Hextract as (? & ? & ? & _ & _ & _ & _ & ->). simpl.
  specialize (Hopt Value' Hsat'). simpl in Hopt.
  destruct (model_of_domains _ _ _ _ _ _ _ _ _ Hmodel) as (Hds & Hdc & _).
  pose proof (satisfies_declared _ _ _ _ _ Hsat Hds) as HS.
  pose proof (satisfies_declared _ _ _ _ _ Hsat' Hds) as HS'.
  pose proof (satisfies_declared _ _ _ _ _ Hsat Hdc) as HC.
  pose proof (satisfies_declared _ _ _ _ _ Hsat' Hdc) as HC'.
  split; [lia|]. intros Hsmall Hsame.
  pose proof (solution_total_coverage _ _ _ _ _ _ _ _ _ Hbuilt _ Hsat') as [_ HC''].
  split; [lia|]. intros Hspread. lia.
Qed.

(** * The further properties at work *)


Lemma hour_keys_are_the_day_witness :
  (is_Some (coverage_by_hour morning_schedule !! 9) ↔ 8 ≤ 9 < 8 + 4)
  ∧ (is_Some (understaff_by_hour morning_schedule !! 9) ↔ 8 ≤ 9 < 8 + 4).
Proof.
  apply (hour_keys_are_the_day morning_solver morning_staff 8 4 [4; 5] 1 2 true
           10%Q morning_schedule 9).
  vm_compute. reflexivity.
Defined.

Lemma assignments_follow_employees_witness :
  length (assignments morning_schedule) = length morning_staff
  ∧ ∀ i e, morning_staff !! i = Some e →
      ∃ a, assignments morning_schedule !! i = Some a
           ∧ employee a = name e
           ∧ Sorted Z.le (unavailable_sorted a)
           ∧ NoDup (unavailable_sorted a)
           ∧ ∀ h, h ∈ unavailable_sorted a ↔ h ∈ get_unavailable e.
Proof.
  apply (assignments_follow_employees morning_solver morning_staff 8 4 [4; 5] 1 2
           true 10%Q morning_schedule).
  vm_compute. reflexivity.
Defined.

Lemma ok_needs_an_employee_witness :
  morning_staff ≠ [] ∧ assignments morning_schedule ≠ [].
Proof.
  apply (ok_needs_an_employee morning_solver (checking_solver_sound morning_values)
           morning_staff 8 4 [4; 5] 1 2 true 10%Q morning_schedule).
  vm_compute. reflexivity.
Defined.

Lemma no_fitting_length_assigns_nobody_witness :
  ∃ r,
    (schedule_workers_softmin_hardmax
       (checking_solver [0; 1; 0; 1; 0; 1; 0; 0; 0; 0; 0; 3])
       [worker "Alex" []] 8 3 [4; 5] 1 2 true 10%Q).2 = Ok (ok r)
    ∧ (∀ a, a ∈ assignments r → shift a = None ∧ work_hours a = 0)
    ∧ fairness_spread r = 0
    ∧ ∀ h, 8 ≤ h < 8 + 3 →
        coverage_by_hour r !! h = Some 0
        ∧ ∃ u, understaff_by_hour r !! h = Some u ∧ 1 ≤ u.
Proof.
  eexists. split; [vm_compute; reflexivity|].
  apply (no_fitting_length_assigns_nobody
           (checking_solver [0; 1; 0; 1; 0; 1; 0; 0; 0; 0; 0; 3])
           (checking_solver_sound _) [worker "Alex" []] 8 3 [4; 5] 1 2 true 10%Q).
  - intros L HL. apply list_elem_of_In in HL. simpl in HL.
    destruct HL as [<-|[<-|[]]]; lia.
  - vm_compute. reflexivity.
Defined.

Lemma blackout_hour_understaffed_witness :
  coverage_by_hour blackout_schedule !! 9 = Some 0
  ∧ ∃ u, understaff_by_hour blackout_schedule !! 9 = Some u ∧ 1 ≤ u.
Proof.
  apply (blackout_hour_understaffed blackout_solver (checking_solver_sound _)
           blackout_staff 8 4 [4; 5] 1 2 true 10%Q blackout_schedule 9).
  - intros e ->%list_elem_of_singleton. vm_compute. reflexivity.
  - lia.
  - vm_compute. reflexivity.
Defined.

Lemma coverage_counts_workers_witness :
  ∃ vars m,
    model_of morning_staff 8 4 [4; 5] 1 2 true = Ok (vars, m)
    ∧ coverage_by_hour morning_schedule !! 10
      = Some (sumZ ((λ q : nat * list Shift,
                       Z.of_nat (length (filter (λ s : Shift, s.1 ≤ 10 < s.2)
                         (selected (morning_solver 10%Q m).2 (Vars.x vars) q.1 q.2))))
                    <$> enumerate (feasible_of morning_staff 8 4 [4; 5]))).
Proof.
  apply (coverage_counts_workers morning_solver (checking_solver_sound morning_values)
           morning_staff 8 4 [4; 5] 1 2 true 10%Q morning_schedule 10).
  - vm_compute. reflexivity.
  - lia.
Defined.

Lemma total_understaff_is_sum_witness :
  total_understaff blackout_schedule
  = sumZ ((λ h, default 0 (understaff_by_hour blackout_schedule !! h)) <$> hours_of 8 4).
Proof.
  apply (total_understaff_is_sum blackout_solver (checking_solver_sound _)
           blackout_staff 8 4 [4; 5] 1 2 true 10%Q blackout_schedule).
  vm_compute. reflexivity.
Defined.

Lemma work_hours_match_shift_witness :
  work_hours {| employee := "Alex"; shift := Some (8, 12); work_hours := 4;
                unavailable_sorted := [12] |}
  = from_option shift_length 0 (Some (8, 12)).
Proof.
  apply (work_hours_match_shift morning_solver (checking_solver_sound morning_values)
           morning_staff 8 4 [4; 5] 1 2 true 10%Q morning_schedule
           {| employee := "Alex"; shift := Some (8, 12); work_hours := 4;
              unavailable_sorted := [12] |}).
  - reflexivity.
  - vm_compute. reflexivity.
  - apply list_elem_of_here.
Defined.

Lemma reported_values_bounded_witness :
  (∀ h c, coverage_by_hour morning_schedule !! h = Some c
          → 0 ≤ c ≤ Z.of_nat (length morning_staff))
  ∧ (∀ h u, understaff_by_hour morning_schedule !! h = Some u → 0 ≤ u ≤ 1000)
  ∧ (∀ a, a ∈ assignments morning_schedule → 0 ≤ work_hours a ≤ 24)
  ∧ 0 ≤ fairness_spread morning_schedule ≤ 24
  ∧ 0 ≤ total_understaff morning_schedule.
Proof.
  apply (reported_values_bounded morning_solver (checking_solver_sound morning_values)
           morning_staff 8 4 [4; 5] 1 2 true 10%Q morning_schedule).
  vm_compute. reflexivity.
Defined.

Lemma free_employee_keeps_all_shifts_witness :
  feasible_shifts_of [worker "Faith" []; {| name := "Gus"; unavailable := None |}]
                     (build_candidate_shifts 8 5 [4; 5]) !! 1%nat
  = Some (build_candidate_shifts 8 5 [4; 5]).
Proof.
  apply (free_employee_keeps_all_shifts
           [worker "Faith" []; {| name := "Gus"; unavailable := None |}]
           (build_candidate_shifts 8 5 [4; 5]) 1%nat
           {| name := "Gus"; unavailable := None |}).
  - reflexivity.
  - by left.
Defined.

Lemma more_classes_fewer_shifts_witness :
  [(9, 13)] `sublist_of` [(8, 12); (9, 13)].
Proof.
  apply (more_classes_fewer_shifts
           [worker "Carlos" [8; 14]; worker "Ethan" [14]]
           (build_candidate_shifts 8 5 [4]) 0%nat 1%nat
           (worker "Carlos" [8; 14]) (worker "Ethan" [14])).
  - reflexivity.
  - reflexivity.
  - apply (bool_decide_unpack _). vm_compute. exact I.
  - vm_compute. reflexivity.
  - vm_compute. reflexivity.
Defined.

Lemma remove_selected_deletes_rows_witness :
  (remove_selected [1%nat] three_rows).1 = []
  ∧ self_employees (ui (remove_selected [1%nat] three_rows).2)
    = delete_rows [1%nat] (self_employees (ui three_rows))
  ∧ emp_tree (remove_selected [1%nat] three_rows).2
    = delete_rows [1%nat] (emp_tree three_rows)
  ∧ self_employees (ui (remove_selected [1%nat] three_rows).2)
      `sublist_of` self_employees (ui three_rows)
  ∧ (∀ e, e ∈ self_employees (ui (remove_selected [1%nat] three_rows).2)
          ↔ ∃ i, (i ∉ [1%nat]) ∧ self_employees (ui three_rows) !! i = Some e)
  ∧ self_last_result (ui (remove_selected [1%nat] three_rows).2)
    = self_last_result (ui three_rows)
  ∧ (employees_ok three_rows → employees_ok (remove_selected [1%nat] three_rows).2).
Proof.
  apply (remove_selected_deletes_rows [1%nat] three_rows).
  apply NoDup_singleton.
Defined.

Example remove_selected_middle :
  self_employees (ui (remove_selected [1%nat] three_rows).2)
  = [worker "Alex" [10]; worker "Carlos" [9; 14]]
  ∧ emp_tree (remove_selected [1%nat] three_rows).2
    = [("Alex", "10"); ("Carlos", "9,14")].
Proof. vm_compute. done. Qed.


Lemma reachable_run_actions solver py (actions : list Action) (w : Window) :
  Forall possible actions → reachable solver py w →
  reachable solver py (run_actions solver py actions w).
Proof.
  unfold run_actions. intros Hall. revert w.
  induction Hall as [|a actions Ha Hall IH]; intros w Hw; [done|].
  simpl. apply IH. by apply reachable_step.
Qed.

Lemma blackout_window_reachable : reachable blackout_solver small_python blackout_window.
Proof.
  apply reachable_run_actions; [|apply reachable_opening].
  repeat constructor.
Qed.

Example blackout_window_state :
  self_employees (ui blackout_window) = blackout_staff
  ∧ emp_tree blackout_window = [("Alex", "9")]
  ∧ self_last_result (ui blackout_window) = Some blackout_schedule.
Proof. vm_compute. done. Qed.

Lemma table_shows_employees_witness :
  emp_tree blackout_window
  = (λ e, (name e, join "," (pretty <$> sorted (get_unavailable e))))
      <$> self_employees (ui blackout_window)
  ∧ ∀ e, e ∈ self_employees (ui blackout_window) →
      name e ≠ EmptyString ∧ ∀ h, h ∈ get_unavailable e → 0 ≤ h ≤ 23.
Proof.
  apply (table_shows_employees blackout_solver small_python blackout_window).
  apply blackout_window_reachable.
Defined.

Lemma stored_result_is_consistent_witness : result_ok blackout_schedule.
Proof.
  apply (stored_result_is_consistent blackout_solver small_python blackout_window
           blackout_schedule).
  - apply checking_solver_sound.
  - apply blackout_window_reachable.
  - vm_compute. reflexivity.
Defined.

Lemma export_writes_every_hour_witness :
  ∃ rows,
    export_coverage_csv "coverage_export.csv" None blackout_window
    = [csv_written "coverage_export.csv" (csv_header :: rows);
       showinfo "Export complete"
                ("Saved coverage CSV:" +:+ newline +:+ "coverage_export.csv")]
    ∧ length rows = Z.to_nat (day_end_hour blackout_schedule
                              - day_start_hour blackout_schedule)
    ∧ ∀ (i : nat) row, rows !! i = Some row →
        ∃ cov short,
          coverage_by_hour blackout_schedule
            !! (day_start_hour blackout_schedule + Z.of_nat i) = Some cov
          ∧ understaff_by_hour blackout_schedule
              !! (day_start_hour blackout_schedule + Z.of_nat i) = Some short
          ∧ row = [pretty (day_start_hour blackout_schedule + Z.of_nat i);
                   pretty (day_start_hour blackout_schedule + Z.of_nat i + 1);
                   format_hour (day_start_hour blackout_schedule + Z.of_nat i);
                   format_hour (day_start_hour blackout_schedule + Z.of_nat i + 1);
                   pretty cov; pretty short;
                   pretty (min_workers_per_hour blackout_schedule);
                   pretty (max_workers_per_hour blackout_schedule)]
          ∧ 0 ≤ cov ≤ max_workers_per_hour blackout_schedule
          ∧ 0 ≤ short ∧ min_workers_per_hour blackout_schedule ≤ cov + short.
Proof.
  apply (export_writes_every_hour blackout_solver small_python blackout_window
           blackout_schedule "coverage_export.csv").
  - apply checking_solver_sound.
  - apply blackout_window_reachable.
  - vm_compute. reflexivity.
  - done.
Defined.

Example blackout_export :
  export_coverage_csv "coverage_export.csv" None blackout_window
  = [csv_written "coverage_export.csv"
       [csv_header;
        ["8"; "9"; "8:00 AM"; "9:00 AM"; "0"; "1"; "1"; "2"];
        ["9"; "10"; "9:00 AM"; "10:00 AM"; "0"; "1"; "1"; "2"];
        ["10"; "11"; "10:00 AM"; "11:00 AM"; "0"; "1"; "1"; "2"];
        ["11"; "12"; "11:00 AM"; "12:00 PM"; "0"; "1"; "1"; "2"]];
     showinfo "Export complete"
              ("Saved coverage CSV:" +:+ newline +:+ "coverage_export.csv")].
Proof. vm_compute. reflexivity. Qed.

Lemma coverage_report_marks_understaffed_witness :
  ∃ lines,
    coverage_report 8 blackout_schedule
    = ((coverage_header blackout_schedule, false) :: lines, None)
    ∧ length lines = Z.to_nat 4
    ∧ ∀ (i : nat) text tagged, lines !! i = Some (text, tagged) →
        ∃ cov short,
          coverage_by_hour blackout_schedule !! (8 + Z.of_nat i) = Some cov
          ∧ understaff_by_hour blackout_schedule !! (8 + Z.of_nat i) = Some short
          ∧ (tagged = true ↔ 0 < short)
          ∧ (cov < 1 → tagged = true)
          ∧ text
            = if tagged
              then ("  " +:+ format_hour (8 + Z.of_nat i) +:+ " – "
                      +:+ format_hour (8 + Z.of_nat i + 1)
                      +:+ " : " +:+ pretty cov +:+ " worker(s)")
                     +:+ "   UNDERSTAFF +" +:+ pretty short +:+ newline
              else ("  " +:+ format_hour (8 + Z.of_nat i) +:+ " – "
                      +:+ format_hour (8 + Z.of_nat i + 1)
                      +:+ " : " +:+ pretty cov +:+ " worker(s)")
                     +:+ newline.
Proof.
  apply (coverage_report_marks_understaffed blackout_solver blackout_staff
           8 4 [4; 5] 1 2 true 10%Q blackout_schedule).
  - apply checking_solver_sound.
  - vm_compute. reflexivity.
Defined.

Lemma understaff_is_minimised_first_witness :
  ∃ vars m,
    model_of blackout_staff 8 4 [4; 5] 1 2 true = Ok (vars, m)
    ∧ ∀ Value', satisfies Value' m →
        total_understaff blackout_schedule ≤ Value' (Vars.total_understaff vars)
        ∧ (2 * 4 < 1000 →
           total_understaff blackout_schedule = Value' (Vars.total_understaff vars) →
           fairness_spread blackout_schedule ≤ Value' (Vars.spread vars)
           ∧ (fairness_spread blackout_schedule = Value' (Vars.spread vars) →
              (blackout_solver 10%Q m).2 (Vars.total_coverage vars)
              ≤ Value' (Vars.total_coverage vars))).
Proof.
  destruct (model_of_built blackout_staff 8 4 [4; 5] 1 2 true)
    as (vars & m & Hmodel & _).
  exists vars, m. split; [exact Hmodel|].
  apply (understaff_is_minimised_first blackout_solver blackout_staff 8 4 [4; 5] 1 2
           true 10%Q vars m blackout_schedule).
  - apply checking_solver_sound.
  - exact Hmodel.
  - vm_compute. reflexivity.
  - intros Value' [Hdom Hall]. vm_compute in Hmodel. injection Hmodel as <- <-.
    assert (eval (blackout_solver 10%Q {| variables := _; constraints := _; objective := _ |}).2
              (objective_of {| Vars.x := _ |}) = 400000) as ->.
    { vm_compute. reflexivity. }
    pose proof (Hdom 11%nat _ eq_refl) as Hspread. unfold in_domain in Hspread.
    simpl in Hspread, Hall.
    repeat (apply Forall_cons in Hall as [? Hall]). unfold holds in *.
    simpl in *. lia.
Defined.

(** ** The demo datasets at work *)

(** In the two understaff demos Faith is free from 11 to 13: her feasible
    shifts include 10 to 14, which covers the hours that the notes call
    blacked out, so that hour is not one at which every employee is
    unavailable. *)
Example understaff_demos_leave_noon_open :
  ∀ key, key = "Understaff demo (forced gap at 12 PM)"
         ∨ key = "Understaff demo (2-hour blackout 11–1)" →
    ∃ data shifts,
      dict_lookup DEMO_DATASETS key = Some data
      ∧ feasible_of (data_employees data) (data_day_start data)
                    (data_day_length data) [4; 5] !! 5%nat = Some shifts
      ∧ (10, 14) ∈ shifts.
Proof.
  intros key [-> | ->]; eexists _, _; (split; [reflexivity|]);
    (split; [vm_compute; reflexivity|]);
    apply (bool_decide_unpack _); vm_compute; exact I.
Qed.
